(** * Enhanced Image Generation tool: a shallow embedding of
    [enhanced_image_generation.py] and the properties of its
    normalisation / emission pipeline.

    Modelling conventions.
    - A Python [str] is a Rocq [string] holding its UTF-8 bytes; [len] and
      prefix slices count code points ([utf8_len], [utf8_take]); [lower] and
      [strip] act on the ASCII range.
    - Python values that flow through the tool untyped ([__user__], the
      response of the generation collaborator, dictionary fields) are terms
      of [value]: [None], booleans, integers, strings, lists, dicts with
      string keys, and plain objects. Floats, bytes and tuples are not
      modelled. The parameters the signature types ([prompt: str],
      [width], [height], [steps: int], the optional [workflow], [sampler],
      [seed]) have those types.
    - Exceptions are explicit: a computation returns an [outcome]; only
      [Exception]s are modelled (no cancellation, no interrupt).
    - The host (file system, event transport, user lookup, generation
      collaborator) is a record of oracles, [host]. What the tool does to it
      is recorded in a [world] that is threaded through the monad [M]: the
      host setting [IMAGE_STEPS], the events handed to the transport, the
      file-system calls, the calls of the collaborator. The collaborator may
      change the setting; the transport and the file system do not.
    - Paths follow [pathlib] on POSIX.
    - Logging has no effect on results and is left out of [generate_image],
      but for the one argument of a log call that can raise on the values
      modelled: the [len] of the image in [_emit_image], which is evaluated
      whatever the log level. The logging helpers of the class are modelled
      on their own, a logger being its level and a call giving the records
      that reach the handlers. *)

From Stdlib Require Import String Ascii List ZArith NArith Lia Bool.
From Stdlib Require Import DecimalString.
Import ListNotations.

Set Warnings "-register-all".

Local Open Scope list_scope.
Local Open Scope string_scope.

(* ================================================================== *)
(** ** Python strings *)

Module PyStr.

(** [s.startswith(p)] *)
Definition startswith (p s : string) : bool := String.prefix p s.

(** [needle in s] for two strings. *)
Fixpoint contains (needle s : string) : bool :=
  startswith needle s ||
  match s with
  | EmptyString => false
  | String _ r => contains needle r
  end.

Definition lower_ascii (c : ascii) : ascii :=
  let n := nat_of_ascii c in
  if (65 <=? n)%nat && (n <=? 90)%nat then ascii_of_nat (n + 32) else c.

(** [s.lower()] on the ASCII range. *)
Fixpoint lower (s : string) : string :=
  match s with
  | EmptyString => EmptyString
  | String c r => String (lower_ascii c) (lower r)
  end.

(** The ASCII characters [str.isspace] accepts: TAB..CR, FS..US and SPACE. *)
Definition is_space (c : ascii) : bool :=
  let n := nat_of_ascii c in
  ((9 <=? n)%nat && (n <=? 13)%nat) || ((28 <=? n)%nat && (n <=? 32)%nat).

Fixpoint lstrip (s : string) : string :=
  match s with
  | EmptyString => EmptyString
  | String c r => if is_space c then lstrip r else s
  end.

Fixpoint rstrip (s : string) : string :=
  match s with
  | EmptyString => EmptyString
  | String c r =>
      let r' := rstrip r in
      if is_space c && (r' =? "") then "" else String c r'
  end.

(** [s.strip()] *)
Definition strip (s : string) : string := rstrip (lstrip s).

(** [s.split(sep)] for a one-character separator: empty fields are kept. *)
Fixpoint split (sep : ascii) (s : string) : list string :=
  match s with
  | EmptyString => [""]
  | String c r =>
      if Ascii.eqb c sep then "" :: split sep r
      else match split sep r with
           | f :: fs => String c f :: fs
           | [] => [String c ""]
           end
  end.

(** [sep.join(parts)] *)
Fixpoint join (sep : string) (parts : list string) : string :=
  match parts with
  | [] => ""
  | [p] => p
  | p :: ps => p ++ sep ++ join sep ps
  end.

(** A UTF-8 continuation byte (10xxxxxx) starts no character. *)
Definition is_continuation (c : ascii) : bool :=
  let n := nat_of_ascii c in (128 <=? n)%nat && (n <? 192)%nat.

(** [len(s)]: the number of code points. *)
Fixpoint utf8_len (s : string) : nat :=
  match s with
  | EmptyString => 0
  | String c r => (if is_continuation c then 0 else 1) + utf8_len r
  end.

(** [s[:n]]: the first [n] code points. *)
Fixpoint utf8_take (n : nat) (s : string) : string :=
  match s with
  | EmptyString => EmptyString
  | String c r =>
      if is_continuation c then String c (utf8_take n r)
      else match n with
           | O => EmptyString
           | S n' => String c (utf8_take n' r)
           end
  end.

(** [str(z)] for an integer. *)
Definition of_Z (z : Z) : string := NilZero.string_of_int (Z.to_int z).

Definition of_nat (n : nat) : string := of_Z (Z.of_nat n).

(** The double quote, which no literal of this file contains. *)
Definition dq : string := String (ascii_of_nat 34) EmptyString.

Definition hex_digit (n : N) : ascii :=
  match String.get (N.to_nat n) "0123456789abcdef" with
  | Some c => c
  | None => "0"%char
  end.

(** [width] lowercase hexadecimal digits of [n], most significant first. *)
Fixpoint hex (width : nat) (n : N) : string :=
  match width with
  | O => EmptyString
  | S w => hex w (n / 16) ++ String (hex_digit (n mod 16)) EmptyString
  end.

End PyStr.

(* ================================================================== *)
(** ** Python values, exceptions *)

(** An exception: its class and [str(e)]. *)
Record exc : Type := Exc { exc_type : string; exc_msg : string }.

(** The result of a call that may raise. *)
Inductive outcome (A : Type) : Type :=
| Ok (a : A)
| Raise (e : exc).
Arguments Ok {A} a.
Arguments Raise {A} e.

(** The dynamically typed values the tool handles. [VDict] keeps insertion
    order (which [json.dumps] prints); its keys are strings. [VObj cls text
    attrs] is an instance of class [cls] that is no container: [str] gives
    [text], [getattr] reads [attrs]. *)
Inductive value : Type :=
| VNone
| VBool (b : bool)
| VInt (z : Z)
| VStr (s : string)
| VList (items : list value)
| VDict (entries : list (string * value))
| VObj (cls text : string) (attrs : list (string * value)).

Module Py.

(** Truth value testing ([if v:]). *)
Definition truthy (v : value) : bool :=
  match v with
  | VNone => false
  | VBool b => b
  | VInt z => negb (z =? 0)%Z
  | VStr s => negb (s =? "")
  | VList l => match l with [] => false | _ => true end
  | VDict d => match d with [] => false | _ => true end
  | VObj _ _ _ => true
  end.

(** [type(v).__name__] *)
Definition type_name (v : value) : string :=
  match v with
  | VNone => "NoneType"
  | VBool _ => "bool"
  | VInt _ => "int"
  | VStr _ => "str"
  | VList _ => "list"
  | VDict _ => "dict"
  | VObj cls _ _ => cls
  end.

Definition is_str (v : value) : bool :=
  match v with VStr _ => true | _ => false end.

(** [d.get(k)] on the entries of a dict: [None] when the key is absent. *)
Fixpoint lookup (k : string) (d : list (string * value)) : option value :=
  match d with
  | [] => None
  | (k', v) :: r => if k' =? k then Some v else lookup k r
  end.

(** [needle in v] for a string [needle]. *)
Definition contains (needle : string) (v : value) : outcome bool :=
  match v with
  | VDict d => Ok (match lookup needle d with Some _ => true | None => false end)
  | VList l =>
      Ok (existsb (fun x => match x with VStr s => s =? needle | _ => false end) l)
  | VStr s => Ok (PyStr.contains needle s)
  | _ => Raise (Exc "TypeError"
                  ("argument of type '" ++ type_name v ++ "' is not iterable"))
  end.

(** [v[key]] for a string [key]. *)
Definition getitem (v : value) (key : string) : outcome value :=
  match v with
  | VDict d =>
      match lookup key d with
      | Some x => Ok x
      | None => Raise (Exc "KeyError" ("'" ++ key ++ "'"))
      end
  | VList _ =>
      Raise (Exc "TypeError" "list indices must be integers or slices, not str")
  | VStr _ =>
      Raise (Exc "TypeError" "string indices must be integers, not 'str'")
  | _ => Raise (Exc "TypeError"
                  ("'" ++ type_name v ++ "' object is not subscriptable"))
  end.

(** [len(v)]: strings, lists and dicts have a length; [None], booleans,
    numbers and plain objects have none. *)
Definition len (v : value) : outcome nat :=
  match v with
  | VStr s => Ok (PyStr.utf8_len s)
  | VList l => Ok (List.length l)
  | VDict d => Ok (List.length d)
  | _ => Raise (Exc "TypeError"
                  ("object of type '" ++ type_name v ++ "' has no len()"))
  end.

(** One character of [repr(s)], [q] being the quote chosen. *)
Definition repr_char (q : ascii) (c : ascii) : string :=
  let n := nat_of_ascii c in
  if Ascii.eqb c q || Ascii.eqb c "\"%char then String "\"%char (String c "")
  else if (n =? 9)%nat then "\t"
  else if (n =? 10)%nat then "\n"
  else if (n =? 13)%nat then "\r"
  else if (n <? 32)%nat || (n =? 127)%nat
       then "\x" ++ PyStr.hex 2 (N.of_nat n)
  else String c "".

Fixpoint repr_chars (q : ascii) (s : string) : string :=
  match s with
  | EmptyString => EmptyString
  | String c r => repr_char q c ++ repr_chars q r
  end.

(** [repr(s)] of a string: single quotes, unless the string holds a single
    quote and no double quote. Bytes of non-ASCII characters are kept (they
    are taken to be printable). *)
Definition repr_str (s : string) : string :=
  let q := if PyStr.contains "'" s && negb (PyStr.contains PyStr.dq s)
           then ascii_of_nat 34 else "'"%char in
  String q (repr_chars q s) ++ String q "".

(** [repr(v)] *)
Fixpoint repr (v : value) : string :=
  match v with
  | VNone => "None"
  | VBool true => "True"
  | VBool false => "False"
  | VInt z => PyStr.of_Z z
  | VStr s => repr_str s
  | VList l => "[" ++ PyStr.join ", " (map repr l) ++ "]"
  | VDict d =>
      "{" ++ PyStr.join ", "
               (map (fun kv => repr_str (fst kv) ++ ": " ++ repr (snd kv)) d)
          ++ "}"
  | VObj _ text _ => text
  end.

(** [str(v)], also what an f-string field prints. *)
Definition str (v : value) : string :=
  match v with
  | VStr s => s
  | _ => repr v
  end.

End Py.

(* ================================================================== *)
(** ** [json.dumps] with its default arguments *)

Module Json.

(** One ASCII character inside a JSON string ([ensure_ascii=True]). *)
Definition escape_ascii (c : ascii) : string :=
  let n := nat_of_ascii c in
  if (n =? 34)%nat then "\" ++ PyStr.dq
  else if (n =? 92)%nat then "\\"
  else if (n =? 8)%nat then "\b"
  else if (n =? 12)%nat then "\f"
  else if (n =? 10)%nat then "\n"
  else if (n =? 13)%nat then "\r"
  else if (n =? 9)%nat then "\t"
  else if (n <? 32)%nat || (n =? 127)%nat then "\u" ++ PyStr.hex 4 (N.of_nat n)
  else String c "".

(** A code point above the ASCII range: one [\uXXXX], or a surrogate pair. *)
Definition escape_code_point (cp : N) : string :=
  (if cp <? 65536 then "\u" ++ PyStr.hex 4 cp
   else let v := cp - 65536 in
        "\u" ++ PyStr.hex 4 (55296 + v / 1024) ++
        "\u" ++ PyStr.hex 4 (56320 + v mod 1024))%N.

(** The inside of a JSON string, decoding the UTF-8 bytes of [s]. *)
Fixpoint escape (s : string) : string :=
  match s with
  | EmptyString => EmptyString
  | String c1 r1 =>
      let n1 := N_of_ascii c1 in
      if (n1 <? 128)%N then escape_ascii c1 ++ escape r1
      else
        match r1 with
        | EmptyString => EmptyString
        | String c2 r2 =>
            let n2 := (N_of_ascii c2 mod 64)%N in
            if (n1 <? 224)%N
            then escape_code_point ((n1 mod 32) * 64 + n2) ++ escape r2
            else
              match r2 with
              | EmptyString => EmptyString
              | String c3 r3 =>
                  let n3 := (N_of_ascii c3 mod 64)%N in
                  if (n1 <? 240)%N
                  then escape_code_point ((n1 mod 16) * 4096 + n2 * 64 + n3)
                         ++ escape r3
                  else
                    match r3 with
                    | EmptyString => EmptyString
                    | String c4 r4 =>
                        let n4 := (N_of_ascii c4 mod 64)%N in
                        escape_code_point
                          ((n1 mod 8) * 262144 + n2 * 4096 + n3 * 64 + n4)
                          ++ escape r4
                    end
              end
        end
  end.

Definition dumps_str (s : string) : string := PyStr.dq ++ escape s ++ PyStr.dq.

(** [json.dumps(v)]: raises [TypeError] at the first value that is none of
    dict, list, str, int, bool, None. *)
Fixpoint dumps (v : value) : outcome string :=
  match v with
  | VNone => Ok "null"
  | VBool true => Ok "true"
  | VBool false => Ok "false"
  | VInt z => Ok (PyStr.of_Z z)
  | VStr s => Ok (dumps_str s)
  | VList l =>
      match
        (fix items (l : list value) : outcome (list string) :=
           match l with
           | [] => Ok []
           | x :: r =>
               match dumps x with
               | Raise e => Raise e
               | Ok s => match items r with
                         | Raise e => Raise e
                         | Ok ss => Ok (s :: ss)
                         end
               end
           end) l
      with
      | Raise e => Raise e
      | Ok ss => Ok ("[" ++ PyStr.join ", " ss ++ "]")
      end
  | VDict d =>
      match
        (fix entries (d : list (string * value)) : outcome (list string) :=
           match d with
           | [] => Ok []
           | (k, x) :: r =>
               match dumps x with
               | Raise e => Raise e
               | Ok s => match entries r with
                         | Raise e => Raise e
                         | Ok ss => Ok ((dumps_str k ++ ": " ++ s) :: ss)
                         end
               end
           end) d
      with
      | Raise e => Raise e
      | Ok ss => Ok ("{" ++ PyStr.join ", " ss ++ "}")
      end
  | VObj cls _ _ =>
      Raise (Exc "TypeError"
               ("Object of type " ++ cls ++ " is not JSON serializable"))
  end.

End Json.

(* ================================================================== *)
(** ** [base64.b64encode] *)

Module Base64.

Definition alphabet : string :=
  "ABCDEFGHIJKLMNOPQRSTUVWXYZabcdefghijklmnopqrstuvwxyz0123456789+/".

Definition digit (n : N) : string :=
  match String.get (N.to_nat n) alphabet with
  | Some c => String c ""
  | None => "="
  end.

(** Three bytes give four digits; a last group of one or two bytes is padded
    with [=]. *)
Fixpoint b64encode (bs : list Byte.byte) : string :=
  match bs with
  | [] => ""
  | [a] =>
      let n := (Byte.to_N a * 65536)%N in
      digit (n / 262144) ++ digit ((n / 4096) mod 64) ++ "=="
  | [a; b] =>
      let n := (Byte.to_N a * 65536 + Byte.to_N b * 256)%N in
      digit (n / 262144) ++ digit ((n / 4096) mod 64)
        ++ digit ((n / 64) mod 64) ++ "="
  | a :: b :: c :: rest =>
      let n := (Byte.to_N a * 65536 + Byte.to_N b * 256 + Byte.to_N c)%N in
      digit (n / 262144) ++ digit ((n / 4096) mod 64)
        ++ digit ((n / 64) mod 64) ++ digit (n mod 64) ++ b64encode rest
  end.

End Base64.

(* ================================================================== *)
(** ** [pathlib] (POSIX flavour) and the file system *)

Module PathLib.

(** The components of a path: empty ones and [.] are dropped. *)
Definition parts (p : string) : list string :=
  filter (fun c => negb (c =? "") && negb (c =? ".")) (PyStr.split "/" p).

(** [Path(p).name] *)
Definition name (p : string) : string := last (parts p) "".

(** [s.rfind(c)], [None] standing for -1. *)
Fixpoint rfind (c : ascii) (s : string) : option nat :=
  match s with
  | EmptyString => None
  | String a r =>
      match rfind c r with
      | Some i => Some (S i)
      | None => if Ascii.eqb a c then Some O else None
      end
  end.

(** [Path(p).suffix]: from the last dot of the name, unless that dot is the
    first or the last character. *)
Definition suffix (p : string) : string :=
  let n := name p in
  match rfind "." n with
  | Some i =>
      if (0 <? i)%nat && (i <? String.length n - 1)%nat
      then substring i (String.length n - i) n
      else ""
  | None => ""
  end.

End PathLib.

(** What a path names. [StatFails]: [stat] raises an [OSError] other than
    "not found" (so [exists()] raises). [Regular size readable bytes]: a
    regular file of [st_size = size] holding [bytes]; opening or reading it
    raises when [readable] is [false] (no permission, say). *)
Inductive fs_entry : Type :=
| Absent
| StatFails
| NotRegular
| Regular (st_size : Z) (readable : bool) (content : list Byte.byte).

(** The file-system calls the tool makes, as recorded in the world. *)
Inductive fs_op : Type :=
| OpExists (p : string)
| OpIsFile (p : string)
| OpStat (p : string)
| OpRead (p : string).

(* ================================================================== *)
(** ** Configuration, host and world *)

(** [EMIT_METHOD_PRIORITY: Literal["auto", "direct", "markdown", "html"]] *)
Inductive emit_method : Type := Auto | Direct | Markdown | Html.

Definition emit_method_str (m : emit_method) : string :=
  match m with
  | Auto => "auto"
  | Direct => "direct"
  | Markdown => "markdown"
  | Html => "html"
  end.

(** [Tools.Valves] *)
Record Valves : Type := {
  DEBUG_ENABLED : bool;
  VERBOSE_LOGGING : bool;
  EMIT_METHOD_PRIORITY : emit_method;
  MAX_FILE_SIZE_MB : Z;
  SUPPORTED_FORMATS : string
}.

(** The defaults of the [Field]s. *)
Definition default_valves : Valves :=
  {| DEBUG_ENABLED := false;
     VERBOSE_LOGGING := false;
     EMIT_METHOD_PRIORITY := Auto;
     MAX_FILE_SIZE_MB := 10;
     SUPPORTED_FORMATS := "png,jpg,jpeg,webp,gif,bmp,tiff" |}.

(** One call of the generation collaborator: the value of the host setting
    [IMAGE_STEPS] it could read, its arguments, and what it gave back. *)
Record gen_call : Type := {
  steps_seen : option value;
  form_data : value;
  user_arg : value;
  gen_result : outcome value
}.

(** The collaborators of one invocation.
    - [fs]: what each path names;
    - [event_emitter]: [None] for a falsy [__event_emitter__]; otherwise the
      transport, which given the events it has received so far and a new
      event either returns or raises;
    - [images_module]: whether [open_webui.routers.images] can be imported;
    - [Users]: [None] when [open_webui.models.users] cannot be imported,
      otherwise [Users.get_user_by_id];
    - [image_generations]: from the setting it can read, the form and the
      user, its result and the value it leaves in the setting;
    - [format_exc]: [traceback.format_exc()] for the exception handled. *)
Record host : Type := {
  fs : string -> fs_entry;
  event_emitter : option (list value -> value -> outcome unit);
  images_module : bool;
  Users : option (value -> outcome value);
  image_generations : option value -> value -> value -> outcome value * value;
  format_exc : exc -> string
}.

(** The mutable part. [IMAGE_STEPS] is
    [__request__.app.state.config.IMAGE_STEPS]: [None] when reading it
    raises (a [None] request, or an object without that attribute path).
    The three logs grow at the end. *)
Record world : Type := {
  IMAGE_STEPS : option value;
  emitted : list value;
  fs_trace : list fs_op;
  gen_calls : list gen_call
}.

Definition initial_world (setting : option value) : world :=
  {| IMAGE_STEPS := setting; emitted := []; fs_trace := []; gen_calls := [] |}.

(* ================================================================== *)
(** ** The monad of the tool: state and exceptions *)

Definition M (A : Type) : Type := world -> outcome A * world.

Definition ret {A} (a : A) : M A := fun w => (Ok a, w).

Definition bind {A B} (m : M A) (k : A -> M B) : M B :=
  fun w => match m w with
           | (Ok a, w') => k a w'
           | (Raise e, w') => (Raise e, w')
           end.

Definition raise {A} (e : exc) : M A := fun w => (Raise e, w).

(** A pure call that may raise. *)
Definition lift {A} (o : outcome A) : M A := fun w => (o, w).

(** [try: m except Exception as e: handler e] *)
Definition try_except {A} (m : M A) (handler : exc -> M A) : M A :=
  fun w => match m w with
           | (Ok a, w') => (Ok a, w')
           | (Raise e, w') => handler e w'
           end.

(** [try: m finally: cleanup], for a [cleanup] that raises nothing. *)
Definition try_finally {A} (m : M A) (cleanup : M unit) : M A :=
  fun w => match m w with
           | (r, w') => (r, snd (cleanup w'))
           end.

Declare Scope tool_scope.
Delimit Scope tool_scope with tool.
Notation "x <- m ;; k" := (bind m (fun x => k))
  (at level 61, m at next level, right associativity) : tool_scope.
Notation "m ;;; k" := (bind m (fun _ => k))
  (at level 61, right associativity) : tool_scope.
Local Open Scope tool_scope.

(** *** Primitive effects *)

Definition log_fs (op : fs_op) : M unit :=
  fun w => (Ok tt, {| IMAGE_STEPS := IMAGE_STEPS w; emitted := emitted w;
                      fs_trace := fs_trace w ++ [op];
                      gen_calls := gen_calls w |}).

Definition os_error : exc := Exc "OSError" "[Errno 13] Permission denied".

(** [Path(p).exists()] *)
Definition path_exists (h : host) (p : string) : M bool :=
  log_fs (OpExists p) ;;;
  match fs h p with
  | Absent => ret false
  | StatFails => raise os_error
  | NotRegular | Regular _ _ _ => ret true
  end.

(** [Path(p).is_file()] *)
Definition path_is_file (h : host) (p : string) : M bool :=
  log_fs (OpIsFile p) ;;;
  match fs h p with
  | Regular _ _ _ => ret true
  | StatFails => raise os_error
  | Absent | NotRegular => ret false
  end.

(** [Path(p).stat().st_size]. The tool stats regular files only; the size
    of any other entry is not modelled. *)
Definition path_stat_size (h : host) (p : string) : M Z :=
  log_fs (OpStat p) ;;;
  match fs h p with
  | Regular size _ _ => ret size
  | NotRegular => ret 0%Z
  | StatFails => raise os_error
  | Absent => raise (Exc "FileNotFoundError" "[Errno 2] No such file or directory")
  end.

(** [open(p, "rb").read()] *)
Definition read_bytes (h : host) (p : string) : M (list Byte.byte) :=
  log_fs (OpRead p) ;;;
  match fs h p with
  | Regular _ true bytes => ret bytes
  | Regular _ false _ | StatFails => raise os_error
  | NotRegular => raise (Exc "IsADirectoryError" "[Errno 21] Is a directory")
  | Absent => raise (Exc "FileNotFoundError" "[Errno 2] No such file or directory")
  end.

(** [await __event_emitter__(event)] for a truthy emitter [f]. *)
Definition call_emitter (f : list value -> value -> outcome unit)
    (event : value) : M unit :=
  fun w => (f (emitted w) event,
            {| IMAGE_STEPS := IMAGE_STEPS w; emitted := emitted w ++ [event];
               fs_trace := fs_trace w; gen_calls := gen_calls w |}).

Definition attribute_error : exc :=
  Exc "AttributeError" "'NoneType' object has no attribute 'app'".

(** [__request__.app.state.config.IMAGE_STEPS] *)
Definition read_IMAGE_STEPS : M value :=
  fun w => match IMAGE_STEPS w with
           | Some v => (Ok v, w)
           | None => (Raise attribute_error, w)
           end.

(** [__request__.app.state.config.IMAGE_STEPS = v] *)
Definition write_IMAGE_STEPS (v : value) : M unit :=
  fun w => match IMAGE_STEPS w with
           | Some _ => (Ok tt, {| IMAGE_STEPS := Some v; emitted := emitted w;
                                  fs_trace := fs_trace w;
                                  gen_calls := gen_calls w |})
           | None => (Raise attribute_error, w)
           end.

(** [await image_generations(request=__request__, form_data=form, user=u)]:
    the collaborator reads the setting as it stands, may leave another value
    in it, and returns or raises. [form] stands for the payload both as the
    [GenerateImageForm] built from it and as the dict used when that fails. *)
Definition call_image_generations (h : host) (form u : value) : M value :=
  fun w =>
    let (r, left) := image_generations h (IMAGE_STEPS w) form u in
    (r, {| IMAGE_STEPS := match IMAGE_STEPS w with
                          | Some _ => Some left
                          | None => None
                          end;
           emitted := emitted w;
           fs_trace := fs_trace w;
           gen_calls := gen_calls w ++
             [{| steps_seen := IMAGE_STEPS w; form_data := form;
                 user_arg := u; gen_result := r |}] |}).

(* ================================================================== *)
(** ** The helpers nested in [generate_image] *)

(** Among the attribute names that equal [k] up to case, the one that comes
    last in [dir()] (which is sorted): the entry that survives in
    [{a.lower(): a for a in dir(uvalves)}]. *)
Fixpoint attr_ignoring_case (k : string) (attrs : list (string * value))
    : option string :=
  match attrs with
  | [] => None
  | (a, _) :: r =>
      let best := attr_ignoring_case k r in
      if PyStr.lower a =? PyStr.lower k then
        match best with
        | Some b => if String.ltb a b then Some b else Some a
        | None => Some a
        end
      else best
  end.

(** The first candidate that is a key (an attribute) of [entries]. *)
Fixpoint first_present (candidates : list string)
    (entries : list (string * value)) : option value :=
  match candidates with
  | [] => None
  | k :: r =>
      match Py.lookup k entries with
      | Some v => Some v
      | None => first_present r entries
      end
  end.

(** The first candidate that names an attribute up to case. *)
Fixpoint first_ignoring_case (candidates : list string)
    (attrs : list (string * value)) : option value :=
  match candidates with
  | [] => None
  | k :: r =>
      match attr_ignoring_case k attrs with
      | Some ak =>
          match Py.lookup ak attrs with
          | Some v => Some v
          | None => first_ignoring_case r attrs
          end
      | None => first_ignoring_case r attrs
      end
  end.

(** [_get_valve(uvalves, *candidates, default=...)]. A dict is searched by
    key; an object by attribute, exactly and then up to case. The builtin
    types have no attribute that a valve name matches, so they give the
    default. *)
Definition _get_valve (uvalves : value) (candidates : list string)
    (default : value) : value :=
  match uvalves with
  | VNone => default
  | VDict d =>
      match first_present candidates d with
      | Some v => v
      | None => default
      end
  | VObj _ _ attrs =>
      match first_present candidates attrs with
      | Some v => v
      | None =>
          match first_ignoring_case candidates attrs with
          | Some v => v
          | None => default
          end
      end
  | _ => default
  end.

(** Lines 120-122: [user_valves], read before any [try]. *)
Definition get_user_valves (user : value) : outcome value :=
  if Py.truthy user then
    match Py.contains "valves" user with
    | Raise e => Raise e
    | Ok true => Py.getitem user "valves"
    | Ok false => Ok VNone
    end
  else Ok VNone.

(** [_make_data_uri_from_b64(b64, mime)] *)
Definition _make_data_uri_from_b64 (b64 mime : string) : string :=
  if PyStr.startswith "data:" b64 then b64
  else "data:" ++ mime ++ ";base64," ++ b64.

Definition mime_map : list (string * string) :=
  [ (".jpg", "image/jpeg");
    (".jpeg", "image/jpeg");
    (".webp", "image/webp");
    (".gif", "image/gif");
    (".bmp", "image/bmp");
    (".tiff", "image/tiff");
    (".png", "image/png") ].

(** [mime_map.get(ext, default)] *)
Fixpoint mime_map_get (ext : string) (table : list (string * string))
    (default : string) : string :=
  match table with
  | [] => default
  | (k, m) :: r => if k =? ext then m else mime_map_get ext r default
  end.

(** The list [supported_exts] built from [SUPPORTED_FORMATS]. *)
Definition supported_exts (valves : Valves) : list string :=
  map (fun ext => "." ++ PyStr.lower (PyStr.strip ext))
      (PyStr.split "," (SUPPORTED_FORMATS valves)).

(** [x in l] for strings. *)
Definition str_in (x : string) (l : list string) : bool :=
  existsb (String.eqb x) l.

(** [_path_to_data_uri(path)] *)
Definition _path_to_data_uri (h : host) (valves : Valves) (path : string)
    : M string :=
  try_except
    (ex <- path_exists h path ;;
     if negb ex then ret ""
     else
       is_file <- path_is_file h path ;;
       if negb is_file then ret ""
       else
         file_size <- path_stat_size h path ;;
         let max_size_bytes := (MAX_FILE_SIZE_MB valves * 1024 * 1024)%Z in
         if (file_size >? max_size_bytes)%Z then ret ""
         else if negb (str_in (PyStr.lower (PathLib.suffix path))
                              (supported_exts valves))
         then ret ""
         else
           bytes <- read_bytes h path ;;
           let b64 := Base64.b64encode bytes in
           let detected_mime :=
             mime_map_get (PyStr.lower (PathLib.suffix path)) mime_map
                          "image/png" in
           ret ("data:" ++ detected_mime ++ ";base64," ++ b64))
    (fun _ => ret "").

(** The dict an event is: [{"type": kind, "data": data}]. *)
Definition event (kind : string) (data : list (string * value)) : value :=
  VDict [("type", VStr kind); ("data", VDict data)].

(** [_emit_status(description, done)] *)
Definition _emit_status (h : host) (show_status : value)
    (description : string) (done : bool) : M unit :=
  if negb (Py.truthy show_status) then ret tt
  else
    try_except
      (match event_emitter h with
       | Some emitter =>
           call_emitter emitter
             (event "status"
                [("description", VStr description); ("done", VBool done)])
       | None => ret tt
       end)
      (fun _ => ret tt).

(** The event [_emit_image_direct] sends: width, height and alt only when
    they are set. *)
Definition direct_event (url_or_datauri : value) (w hh : Z) (alt : string)
    : value :=
  let data :=
    ([("url", url_or_datauri)]
     ++ (if negb (w =? 0)%Z && (w >? 0)%Z then [("width", VInt w)] else [])
     ++ (if negb (hh =? 0)%Z && (hh >? 0)%Z then [("height", VInt hh)] else [])
     ++ (if negb (alt =? "") then [("alt", VStr alt)] else []))%list in
  event "image" data.

(** [_emit_image_direct(url_or_datauri, w, h, alt)] *)
Definition _emit_image_direct (h : host) (url_or_datauri : value)
    (w hh : Z) (alt : string) : M bool :=
  try_except
    (match event_emitter h with
     | Some emitter =>
         call_emitter emitter (direct_event url_or_datauri w hh alt) ;;;
         ret true
     | None => ret false
     end)
    (fun _ => ret false).

(** The event [_emit_image_markdown] sends. *)
Definition markdown_event (url_or_datauri : value) (alt : string) : value :=
  let markdown_content :=
    "![" ++ alt ++ "](" ++ Py.str url_or_datauri ++ ")" in
  event "message" [("content", VStr markdown_content)].

(** [_emit_image_markdown(url_or_datauri, alt)] *)
Definition _emit_image_markdown (h : host) (url_or_datauri : value)
    (alt : string) : M bool :=
  try_except
    (match event_emitter h with
     | Some emitter =>
         call_emitter emitter (markdown_event url_or_datauri alt) ;;;
         ret true
     | None => ret false
     end)
    (fun _ => ret false).

(** [w or 512] *)
Definition or_512 (w : Z) : Z := if (w =? 0)%Z then 512%Z else w.

(** The event [_emit_image_html] sends. *)
Definition html_event (url_or_datauri : value) (w hh : Z) (alt : string)
    : value :=
  let html_content :=
    "<img src=" ++ PyStr.dq ++ Py.str url_or_datauri ++ PyStr.dq
    ++ " alt=" ++ PyStr.dq ++ alt ++ PyStr.dq
    ++ " style=" ++ PyStr.dq
    ++ "max-width: " ++ PyStr.of_Z (or_512 w)
    ++ "px; max-height: " ++ PyStr.of_Z (or_512 hh)
    ++ "px; border-radius: 8px; box-shadow: 0 2px 8px rgba(0,0,0,0.1);"
    ++ PyStr.dq ++ ">" in
  event "message" [("content", VStr html_content)].

(** [_emit_image_html(url_or_datauri, w, h, alt)] *)
Definition _emit_image_html (h : host) (url_or_datauri : value)
    (w hh : Z) (alt : string) : M bool :=
  try_except
    (match event_emitter h with
     | Some emitter =>
         call_emitter emitter (html_event url_or_datauri w hh alt) ;;;
         ret true
     | None => ret false
     end)
    (fun _ => ret false).

(** The loop of [_emit_image]: the first method that returns [True] ends
    it. *)
Fixpoint try_methods (methods : list (string * M bool)) : M bool :=
  match methods with
  | [] => ret false
  | (_, method_func) :: rest =>
      ok <- method_func ;;
      if ok then ret true else try_methods rest
  end.

(** The alternative text [_emit_image] makes up when it is given none. *)
Definition auto_alt (prompt : string) (index : nat) : string :=
  "Imagen generada: " ++ PyStr.utf8_take 50 prompt
  ++ (if (50 <? PyStr.utf8_len prompt)%nat then "..." else "")
  ++ " - #" ++ PyStr.of_nat index.

(** [_emit_image(url_or_datauri, w, h, alt, index)]. The argument of the
    log call on line 336 holds [len(url_or_datauri)], which is evaluated
    whatever the log level and outside any [try]: an image without a length
    raises there, before any method is tried. *)
Definition _emit_image (h : host) (valves : Valves) (auto_alt_text : value)
    (prompt : string) (url_or_datauri : value) (w hh : Z) (alt : string)
    (index : nat) : M bool :=
  if negb (Py.truthy url_or_datauri) then ret false
  else
    let alt := if Py.truthy auto_alt_text && negb (Py.truthy (VStr alt))
               then auto_alt prompt index else alt in
    lift (Py.len url_or_datauri) ;;;
    let direct := ("directo", _emit_image_direct h url_or_datauri w hh alt) in
    let markdown := ("markdown", _emit_image_markdown h url_or_datauri alt) in
    let html := ("html", _emit_image_html h url_or_datauri w hh alt) in
    let methods :=
      match EMIT_METHOD_PRIORITY valves with
      | Direct => [direct; markdown; html]
      | Markdown => [markdown; direct; html]
      | Html => [html; direct; markdown]
      | Auto => [direct; markdown; html]
      end in
    try_methods methods.

(* ================================================================== *)
(** ** The resolver (the loop over [raw_items]) *)

Definition priority_fields : list string :=
  ["url"; "b64"; "image"; "data"; "base64"; "file_path"; "path"; "src";
   "image_url"].

(** The block the source runs both for a [url] / [file_path] / [path] field
    and for a plain string item: an existing regular file goes through
    [_path_to_data_uri]; anything else, and any value on which [Path] or the
    file tests raise, is kept as it is. *)
Definition local_path_or_url (h : host) (valves : Valves) (v : value)
    : M value :=
  match v with
  | VStr s =>
      try_except
        (ex <- path_exists h s ;;
         is_file <- (if ex then path_is_file h s else ret false) ;;
         if is_file
         then uri <- _path_to_data_uri h valves s ;; ret (VStr uri)
         else ret v)
        (fun _ => ret v)
  | _ => ret v
  end.

(** [_make_data_uri_from_b64(value)] as the resolver calls it: a value that
    is no string has no [startswith]. *)
Definition b64_field (v : value) : M value :=
  match v with
  | VStr s => ret (VStr (_make_data_uri_from_b64 s "image/png"))
  | _ => raise (Exc "AttributeError"
                  ("'" ++ Py.type_name v
                       ++ "' object has no attribute 'startswith'"))
  end.

(** [for field in priority_fields: ...] over the fields still to visit;
    the result is [processed_url] ([None] when no field is taken). *)
Fixpoint scan_fields (h : host) (valves : Valves) (fields : list string)
    (it : list (string * value)) : M value :=
  match fields with
  | [] => ret VNone
  | field :: rest =>
      match Py.lookup field it with
      | Some v =>
          if Py.truthy v then
            if (field =? "url") || str_in field ["file_path"; "path"]
            then local_path_or_url h valves v
            else if str_in field ["b64"; "base64"]
            then b64_field v
            else if Py.is_str v
                    && match v with
                       | VStr s => PyStr.startswith "data:" s
                                   || PyStr.startswith "http" s
                       | _ => false
                       end
            then ret v
            else scan_fields h valves rest it
          else scan_fields h valves rest it
      | None => scan_fields h valves rest it
      end
  end.

(** One turn of the loop: [processed_url] for the item [it]. *)
Definition resolve_item (h : host) (valves : Valves) (it : value)
    : M value :=
  match it with
  | VDict d =>
      processed_url <- scan_fields h valves priority_fields d ;;
      if negb (Py.truthy processed_url)
      then s <- lift (Json.dumps it) ;; ret (VStr s)
      else ret processed_url
  | VStr _ => local_path_or_url h valves it
  | _ => ret (VStr (Py.str it))
  end.

(** The whole loop, [images_out] being the list built so far. *)
Fixpoint process_items (h : host) (valves : Valves) (raw_items : list value)
    (images_out : list value) : M (list value) :=
  match raw_items with
  | [] => ret images_out
  | it :: rest =>
      processed_url <- resolve_item h valves it ;;
      process_items h valves rest
        (if Py.truthy processed_url
         then (images_out ++ [processed_url])%list
         else images_out)
  end.

(** The emission loop: [idx] is the position of the next image,
    [success_count] the count so far. *)
Fixpoint emit_images (h : host) (valves : Valves) (auto_alt_text : value)
    (prompt : string) (width height : Z) (images_out : list value)
    (idx success_count : nat) : M nat :=
  match images_out with
  | [] => ret success_count
  | url :: rest =>
      success <- _emit_image h valves auto_alt_text prompt url width height
                   ("imagen_generada_" ++ PyStr.of_nat (idx + 1)) (idx + 1) ;;
      emit_images h valves auto_alt_text prompt width height rest (S idx)
        (if success then success_count + 1 else success_count)
  end.

(* ================================================================== *)
(** ** [generate_image] *)

(** [from open_webui.routers.images import image_generations, ...] *)
Definition import_images (h : host) : M unit :=
  if images_module h then ret tt
  else raise (Exc "ModuleNotFoundError" "No module named 'open_webui'").

(** [user_obj]: [Users.get_user_by_id(__user__.get("id"))] when both are
    there; any failure on the way leaves [None]. *)
Definition get_user_obj (h : host) (user : value) : value :=
  match Users h with
  | Some get_user_by_id =>
      if Py.truthy user then
        match user with
        | VDict d =>
            match get_user_by_id
                    (match Py.lookup "id" d with Some i => i | None => VNone end)
            with
            | Ok u => u
            | Raise _ => VNone
            end
        | _ => VNone
        end
      else VNone
  | None => VNone
  end.

Definition build_payload (prompt : string) (width height steps : Z)
    (workflow sampler : option string) (seed : option Z) : value :=
  VDict ([("prompt", VStr prompt);
          ("size", VStr (PyStr.of_Z width ++ "x" ++ PyStr.of_Z height));
          ("width", VInt width);
          ("height", VInt height);
          ("steps", VInt steps)]
         ++ match workflow with
            | Some wf => if negb (wf =? "") then [("workflow", VStr wf)] else []
            | None => []
            end
         ++ match sampler with
            | Some sm => if negb (sm =? "") then [("sampler", VStr sm)] else []
            | None => []
            end
         ++ match seed with
            | Some sd => [("seed", VInt sd)]
            | None => []
            end)%list.

(** Lines 378-386: save the host setting and overwrite it with [steps];
    [original_steps] stays [None] when the read raises. *)
Definition override_steps (steps : Z) : M value :=
  fun w =>
    match read_IMAGE_STEPS w with
    | (Ok original, w1) =>
        (Ok original, snd (write_IMAGE_STEPS (VInt steps) w1))
    | (Raise _, w1) => (Ok VNone, w1)
    end.

(** The [finally] block: write [original_steps] back unless it is [None]. *)
Definition restore_steps (original_steps : value) : M unit :=
  try_except
    (match original_steps with
     | VNone => ret tt
     | _ => write_IMAGE_STEPS original_steps
     end)
    (fun _ => ret tt).

Definition success_result (valves : Valves) (show_status auto_alt_text : value)
    (images : value) (images_out : list value) (success_count : nat) : value :=
  VDict
    [("success", VBool true);
     ("images", VList images_out);
     ("images_emitted", VInt (Z.of_nat success_count));
     ("total_processed", VInt (Z.of_nat (List.length images_out)));
     ("raw", if VERBOSE_LOGGING valves then images
             else VStr "Oculto - activa VERBOSE_LOGGING para ver");
     ("method", VStr "internal");
     ("valves_config",
      VDict [("debug", VBool (DEBUG_ENABLED valves));
             ("verbose", VBool (VERBOSE_LOGGING valves));
             ("emit_method", VStr (emit_method_str (EMIT_METHOD_PRIORITY valves)));
             ("user_show_status", show_status);
             ("user_auto_alt", auto_alt_text)])].

Definition failure_result (h : host) (valves : Valves) (e : exc) : value :=
  VDict
    [("success", VBool false);
     ("error", VStr ("Error interno: " ++ exc_msg e));
     ("internal_trace",
      VStr (if DEBUG_ENABLED valves then format_exc h e
            else "Activa DEBUG_ENABLED en Valves para detalles"));
     ("valves_config",
      VDict [("debug", VBool (DEBUG_ENABLED valves));
             ("verbose", VBool (VERBOSE_LOGGING valves))])].

(** The body of the main [try] block (lines 389-614), [show_status] and
    [auto_alt_text] being the two user valves read before it. *)
Definition generate_body (h : host) (valves : Valves) (prompt : string)
    (width height steps : Z) (workflow sampler : option string)
    (seed : option Z) (user show_status auto_alt_text : value) : M value :=
  let payload :=
    build_payload prompt width height steps workflow sampler seed in
  import_images h ;;;
  let user_obj := get_user_obj h user in
  _emit_status h show_status "Generando imagen..." false ;;;
  images <- call_image_generations h payload user_obj ;;
  let raw_items :=
    match images with
    | VNone => []
    | VList l => l
    | _ => [images]
    end in
  images_out <- process_items h valves raw_items [] ;;
  success_count <-
    emit_images h valves auto_alt_text prompt width height images_out 0 0 ;;
  let final_message :=
    "✅ Generación completada: " ++ PyStr.of_nat success_count ++ "/"
    ++ PyStr.of_nat (List.length images_out) ++ " imágenes mostradas" in
  _emit_status h show_status final_message true ;;;
  ret (success_result valves show_status auto_alt_text images images_out
         success_count).

(** The [except Exception as e] block (lines 616-636). *)
Definition generate_failed (h : host) (valves : Valves) (show_status : value)
    (e : exc) : M value :=
  _emit_status h show_status ("❌ Error: " ++ exc_msg e) true ;;;
  ret (failure_result h valves e).

(** [Tools.generate_image]. [__request__] is the [IMAGE_STEPS] slot of the
    world, [__event_emitter__] the host's [event_emitter]. *)
Definition generate_image (h : host) (valves : Valves) (prompt : string)
    (width height steps : Z) (workflow sampler : option string)
    (seed : option Z) (user : value) : M value :=
  user_valves <- lift (get_user_valves user) ;;
  let show_status :=
    _get_valve user_valves
      ["SHOW_PROCESSING_STATUS"; "show_processing_status";
       "showProcessingStatus"] (VBool true) in
  let auto_alt_text :=
    _get_valve user_valves ["AUTO_ALT_TEXT"; "auto_alt_text"; "autoAltText"]
      (VBool true) in
  _emit_status h show_status "Inicializando generación de imagen..." false ;;;
  original_steps <- override_steps steps ;;
  try_finally
    (try_except
       (generate_body h valves prompt width height steps workflow sampler
          seed user show_status auto_alt_text)
       (generate_failed h valves show_status))
    (restore_steps original_steps).

(* ================================================================== *)
(** ** The logging helpers of the class *)

(** The levels of [logging] the tool uses, with their numbers. *)
Inductive log_level : Type := DEBUG | INFO | WARNING | ERROR.

Definition levelno (l : log_level) : Z :=
  match l with
  | DEBUG => 10
  | INFO => 20
  | WARNING => 30
  | ERROR => 40
  end.

(** [logger.log(level, message)] on a logger whose level is [logger_level]:
    the records that reach the handler ([isEnabledFor] lets a record through
    when its level is at least the logger's). *)
Definition logger_log (logger_level level : log_level) (message : string)
    : list (log_level * string) :=
  if (levelno logger_level <=? levelno level)%Z then [(level, message)]
  else [].

(** [_update_log_level()]: the level the logger is set to. *)
Definition _update_log_level (valves : Valves) : log_level :=
  if VERBOSE_LOGGING valves then DEBUG
  else if DEBUG_ENABLED valves then INFO
  else WARNING.

(** [_log_debug(message)] *)
Definition _log_debug (valves : Valves) (logger_level : log_level)
    (message : string) : list (log_level * string) :=
  if VERBOSE_LOGGING valves then logger_log logger_level DEBUG message
  else [].

(** [_log_info(message)] *)
Definition _log_info (valves : Valves) (logger_level : log_level)
    (message : string) : list (log_level * string) :=
  if DEBUG_ENABLED valves then logger_log logger_level INFO message
  else [].

(** [_log_warning(message)] *)
Definition _log_warning (logger_level : log_level) (message : string)
    : list (log_level * string) :=
  logger_log logger_level WARNING message.

(** [_log_error(message)] *)
Definition _log_error (logger_level : log_level) (message : string)
    : list (log_level * string) :=
  logger_log logger_level ERROR message.


(* ================================================================== *)
(** * Specification vocabulary *)

(** ** What a computation does to the world *)

(** [m] always returns: whatever the world, it raises nothing. *)
Definition never_raises {A} (m : M A) : Prop :=
  forall w, exists a, fst (m w) = Ok a.

(** [m] respects the relation [R] between the world before and after. *)
Definition keeps (R : world -> world -> Prop) {A} (m : M A) : Prop :=
  forall w, R w (snd (m w)).

(** The tool leaves the host setting and the record of collaborator calls
    alone. *)
Definition same_host_state (w w' : world) : Prop :=
  IMAGE_STEPS w' = IMAGE_STEPS w /\ gen_calls w' = gen_calls w.

(** Only the event log may have grown. *)
Definition only_emits (w w' : world) : Prop :=
  IMAGE_STEPS w' = IMAGE_STEPS w /\ gen_calls w' = gen_calls w
  /\ fs_trace w' = fs_trace w /\ exists evs, emitted w' = (emitted w ++ evs)%list.

(** Only the file-system trace may have grown. *)
Definition only_reads (w w' : world) : Prop :=
  IMAGE_STEPS w' = IMAGE_STEPS w /\ gen_calls w' = gen_calls w
  /\ emitted w' = emitted w
  /\ exists ops, fs_trace w' = (fs_trace w ++ ops)%list.

(** The world after the file-system calls [ops]. *)
Definition after_fs (ops : list fs_op) (w : world) : world :=
  {| IMAGE_STEPS := IMAGE_STEPS w; emitted := emitted w;
     fs_trace := (fs_trace w ++ ops)%list; gen_calls := gen_calls w |}.

(** The MIME type [_path_to_data_uri] picks for a path. *)
Definition detected_mime (path : string) : string :=
  mime_map_get (PyStr.lower (PathLib.suffix path)) mime_map "image/png".

(** The extension test of [_path_to_data_uri]. *)
Definition extension_supported (valves : Valves) (path : string) : bool :=
  str_in (PyStr.lower (PathLib.suffix path)) (supported_exts valves).

(** The size test of [_path_to_data_uri]. *)
Definition too_large (valves : Valves) (size : Z) : bool :=
  (size >? MAX_FILE_SIZE_MB valves * 1024 * 1024)%Z.

(** The string [_path_to_data_uri] returns for [path]. *)
Definition materialize (h : host) (valves : Valves) (path : string) : string :=
  match fs h path with
  | Regular size true bytes =>
      if too_large valves size || negb (extension_supported valves path)
      then ""
      else "data:" ++ detected_mime path ++ ";base64,"
                   ++ Base64.b64encode bytes
  | _ => ""
  end.

(** Does [v] name an existing regular file? *)
Definition names_regular_file (h : host) (v : value) : bool :=
  match v with
  | VStr s => match fs h s with Regular _ _ _ => true | _ => false end
  | _ => false
  end.

(** What [local_path_or_url] yields. *)
Definition resolved_path (h : host) (valves : Valves) (v : value) : value :=
  match v with
  | VStr s => if names_regular_file h v then VStr (materialize h valves s) else v
  | _ => v
  end.

(** *** The resolver in the words of its contract *)

(** The fields whose value is a path or a URL. *)
Definition is_path_field (field : string) : bool :=
  (field =? "url") || str_in field ["file_path"; "path"].

(** The fields whose value is inline base64. *)
Definition is_b64_field (field : string) : bool :=
  str_in field ["b64"; "base64"].

(** A string that is already a data URI or an http(s) URL. *)
Definition looks_resolved (v : value) : bool :=
  match v with
  | VStr s => PyStr.startswith "data:" s || PyStr.startswith "http" s
  | _ => false
  end.

(** The scan takes a field when its value is truthy and either the field is
    a path or base64 field or the value already looks resolved. *)
Definition accepted (field : string) (v : value) : bool :=
  Py.truthy v
  && (is_path_field field || is_b64_field field || looks_resolved v).

(** The first of [fields] that the mapping holds with an accepted value. *)
Fixpoint first_accepted (fields : list string) (it : list (string * value))
    : option (string * value) :=
  match fields with
  | [] => None
  | field :: rest =>
      match Py.lookup field it with
      | Some v => if accepted field v then Some (field, v)
                  else first_accepted rest it
      | None => first_accepted rest it
      end
  end.

(** The first of [fields] that the mapping holds with a non-empty value,
    whatever the value looks like. *)
Fixpoint first_present_nonempty (fields : list string)
    (it : list (string * value)) : option (string * value) :=
  match fields with
  | [] => None
  | field :: rest =>
      match Py.lookup field it with
      | Some v => if Py.truthy v then Some (field, v)
                  else first_present_nonempty rest it
      | None => first_present_nonempty rest it
      end
  end.

Definition no_startswith (v : value) : exc :=
  Exc "AttributeError"
    ("'" ++ Py.type_name v ++ "' object has no attribute 'startswith'").

(** What the taken field makes of its value. *)
Definition field_result (h : host) (valves : Valves) (field : string)
    (v : value) : outcome value :=
  if is_path_field field then Ok (resolved_path h valves v)
  else if is_b64_field field then
    match v with
    | VStr s => Ok (VStr (_make_data_uri_from_b64 s "image/png"))
    | _ => Raise (no_startswith v)
    end
  else Ok v.

(** The fallback: [json.dumps] of the whole mapping. *)
Definition json_fallback (it : list (string * value)) : outcome value :=
  match Json.dumps (VDict it) with
  | Ok s => Ok (VStr s)
  | Raise e => Raise e
  end.

(** The resolved image of a mapping descriptor. *)
Definition resolve_mapping (h : host) (valves : Valves)
    (it : list (string * value)) : outcome value :=
  match first_accepted priority_fields it with
  | Some (field, v) =>
      match field_result h valves field v with
      | Ok r => if Py.truthy r then Ok r else json_fallback it
      | Raise e => Raise e
      end
  | None => json_fallback it
  end.

(** *** The dispatcher in the words of its contract *)

Inductive delivery : Type := ByDirect | ByMarkdown | ByHtml.

Definition delivery_eqb (a b : delivery) : bool :=
  match a, b with
  | ByDirect, ByDirect | ByMarkdown, ByMarkdown | ByHtml, ByHtml => true
  | _, _ => false
  end.

(** The method a priority names; [auto] names the direct one. *)
Definition preferred (p : emit_method) : delivery :=
  match p with
  | Auto | Direct => ByDirect
  | Markdown => ByMarkdown
  | Html => ByHtml
  end.

(** The named method first, then the others as direct, markdown, html. *)
Definition delivery_order (p : emit_method) : list delivery :=
  preferred p
  :: filter (fun m => negb (delivery_eqb m (preferred p)))
            [ByDirect; ByMarkdown; ByHtml].

(** The event a method hands to the transport. *)
Definition delivery_event (url : value) (w hh : Z) (alt : string)
    (m : delivery) : value :=
  match m with
  | ByDirect => direct_event url w hh alt
  | ByMarkdown => markdown_event url alt
  | ByHtml => html_event url w hh alt
  end.

(** The alternative text [_emit_image] ends up using. *)
Definition effective_alt (auto_alt_text : value) (prompt alt : string)
    (index : nat) : string :=
  if Py.truthy auto_alt_text && negb (Py.truthy (VStr alt))
  then auto_alt prompt index else alt.

(** The list [methods] of [_emit_image], for the alternative text it ends
    up using. *)
Definition methods_of (h : host) (valves : Valves) (url : value) (w hh : Z)
    (alt : string) : list (string * M bool) :=
  let direct := ("directo", _emit_image_direct h url w hh alt) in
  let markdown := ("markdown", _emit_image_markdown h url alt) in
  let html := ("html", _emit_image_html h url w hh alt) in
  match EMIT_METHOD_PRIORITY valves with
  | Direct => [direct; markdown; html]
  | Markdown => [markdown; direct; html]
  | Html => [html; direct; markdown]
  | Auto => [direct; markdown; html]
  end.

(** Does [len(v)] return? *)
Definition has_len (v : value) : bool :=
  match Py.len v with
  | Ok _ => true
  | Raise _ => false
  end.

(** What [len(v)] raises on a value without a length. *)
Definition no_len (v : value) : exc :=
  Exc "TypeError" ("object of type '" ++ Py.type_name v ++ "' has no len()").

(** The exception [_emit_image] raises on [url], if any: a non-empty image
    without a length. *)
Definition emission_error (url : value) : option exc :=
  if Py.truthy url then
    match Py.len url with
    | Raise e => Some e
    | Ok _ => None
    end
  else None.

(** The exception that ends the emission loop over [images_out], if any:
    that of the first image on which [_emit_image] raises. *)
Fixpoint first_emission_error (images_out : list value) : option exc :=
  match images_out with
  | [] => None
  | url :: rest =>
      match emission_error url with
      | Some e => Some e
      | None => first_emission_error rest
      end
  end.

(** The world after the transport has been handed [evs]. *)
Definition after_events (evs : list value) (w : world) : world :=
  {| IMAGE_STEPS := IMAGE_STEPS w; emitted := (emitted w ++ evs)%list;
     fs_trace := fs_trace w; gen_calls := gen_calls w |}.

(** Handing one event to the transport [f]: [true] when the call returns,
    [false] when it raises; the event is on the log either way. *)
Definition attempt (f : list value -> value -> outcome unit) (ev : value)
    (w : world) : outcome bool * world :=
  (match f (emitted w) ev with Ok _ => Ok true | Raise _ => Ok false end,
   after_events [ev] w).

(** The transport [f], having received [history], raises on each of the
    first [n] of [evs] in turn. *)
Definition refused_before (f : list value -> value -> outcome unit)
    (history evs : list value) (n : nat) : Prop :=
  forall i, (i < n)%nat ->
    exists e, f (history ++ firstn i evs)%list (nth i evs VNone) = Raise e.

(** *** Reading a result *)

(** [result[key]] of the dict [generate_image] returns. *)
Definition result_field (key : string) (result : value) : option value :=
  match result with
  | VDict d => Py.lookup key d
  | _ => None
  end.

Definition result_keys (result : value) : list string :=
  match result with
  | VDict d => map fst d
  | _ => []
  end.

Definition success_keys : list string :=
  ["success"; "images"; "images_emitted"; "total_processed"; "raw";
   "method"; "valves_config"].

Definition failure_keys : list string :=
  ["success"; "error"; "internal_trace"; "valves_config"].



(** The descriptors of a response, as [generate_image] normalises it. *)
Definition raw_items_of (images : value) : list value :=
  match images with
  | VNone => []
  | VList l => l
  | _ => [images]
  end.


(** *** Sample hosts, for the concrete runs below *)

Definition sample_fs (p : string) : fs_entry :=
  if p =? "/tmp/cat.png" then Regular 3 true (list_byte_of_string "Man")
  else if p =? "/tmp/photo.JPG" then Regular 2 true (list_byte_of_string "Ma")
  else if p =? "/tmp/notes.txt" then Regular 3 true (list_byte_of_string "Man")
  else if p =? "/tmp/locked.png" then Regular 3 false (list_byte_of_string "Man")
  else if p =? "/srv/out/locked.jpg"
       then Regular 3 false (list_byte_of_string "Man")
  else if p =? "/tmp/huge.png" then Regular 10485761 true []
  else if p =? "/tmp" then NotRegular
  else Absent.

(** A transport that accepts every event. *)
Definition accepting_emitter (history : list value) (ev : value)
    : outcome unit := Ok tt.

(** A transport that raises on every event. *)
Definition failing_emitter (history : list value) (ev : value)
    : outcome unit := Raise (Exc "ConnectionError" "transport closed").

(** A transport that accepts image events only: message events raise. *)
Definition image_only_emitter (history : list value) (ev : value)
    : outcome unit :=
  match ev with
  | VDict (("type", VStr "image") :: _) => Ok tt
  | _ => Raise (Exc "ValueError" "unsupported event")
  end.

(** A host whose generation collaborator gives [response] and leaves the
    setting as it found it. *)
Definition sample_host
    (emitter : option (list value -> value -> outcome unit))
    (response : outcome value) : host :=
  {| fs := sample_fs;
     event_emitter := emitter;
     images_module := true;
     Users := None;
     image_generations :=
       fun setting _ _ =>
         (response, match setting with Some v => v | None => VNone end);
     format_exc := fun e => "Traceback (most recent call last): "
                            ++ exc_type e ++ ": " ++ exc_msg e |}.

(** *** One invocation as seen from outside *)

(** The resolved image of one descriptor, as a function of the file system
    alone. *)
Definition resolve_value (h : host) (valves : Valves) (it : value)
    : outcome value :=
  match it with
  | VDict d => resolve_mapping h valves d
  | VStr _ => Ok (resolved_path h valves it)
  | _ => Ok (VStr (Py.str it))
  end.

(** The list [images_out] for the descriptors [items]: the truthy resolved
    images in the order of the descriptors; the first descriptor whose
    resolution raises decides. *)
Fixpoint resolve_all (h : host) (valves : Valves) (items : list value)
    : outcome (list value) :=
  match items with
  | [] => Ok []
  | it :: rest =>
      match resolve_value h valves it with
      | Raise e => Raise e
      | Ok v =>
          match resolve_all h valves rest with
          | Raise e => Raise e
          | Ok l => Ok (if Py.truthy v then v :: l else l)
          end
      end
  end.

(** The two user valves, as [generate_image] reads them. *)
Definition user_show_status (user_valves : value) : value :=
  _get_valve user_valves
    ["SHOW_PROCESSING_STATUS"; "show_processing_status";
     "showProcessingStatus"] (VBool true).

Definition user_auto_alt (user_valves : value) : value :=
  _get_valve user_valves ["AUTO_ALT_TEXT"; "auto_alt_text"; "autoAltText"]
    (VBool true).

(** The status event for [description] and [done]. *)
Definition status_event (description : string) (done : bool) : value :=
  event "status" [("description", VStr description); ("done", VBool done)].

(** What one call of [_emit_status] hands to the transport: the status
    event, if the user wants statuses and there is a transport. *)
Definition status_events (h : host) (show_status : value)
    (description : string) (done : bool) : list value :=
  if Py.truthy show_status then
    match event_emitter h with
    | Some _ => [status_event description done]
    | None => []
    end
  else [].

(** [event["type"]] *)
Definition event_type (ev : value) : string :=
  match result_field "type" ev with
  | Some (VStr kind) => kind
  | _ => ""
  end.

(** An event that carries an image: the direct one, or a message. *)
Definition is_delivery (ev : value) : bool :=
  (event_type ev =? "image") || (event_type ev =? "message").

(** A status event that reports the end of the work. *)
Definition is_done_status (ev : value) : bool :=
  (event_type ev =? "status")
  && match result_field "data" ev with
     | Some data =>
         match result_field "done" data with
         | Some (VBool true) => true
         | _ => false
         end
     | None => false
     end.

(** The exception of a failing import of the host's image router. *)
Definition import_error : exc :=
  Exc "ModuleNotFoundError" "No module named 'open_webui'".

(** The description of the status sent by the [except] block. *)
Definition error_description (e : exc) : string := "❌ Error: " ++ exc_msg e.

(** The description of the last status of a successful call. *)
Definition final_description (success_count total : nat) : string :=
  "✅ Generación completada: " ++ PyStr.of_nat success_count ++ "/"
  ++ PyStr.of_nat total ++ " imágenes mostradas".

(** The setting as the collaborator finds it. *)
Definition overridden (steps : Z) (w : world) : option value :=
  match IMAGE_STEPS w with
  | Some _ => Some (VInt steps)
  | None => None
  end.

(** The record of the collaborator call an invocation makes from the world
    [w]. *)
Definition the_call (h : host) (prompt : string) (width height steps : Z)
    (workflow sampler : option string) (seed : option Z) (user : value)
    (w : world) : gen_call :=
  let payload :=
    build_payload prompt width height steps workflow sampler seed in
  {| steps_seen := overridden steps w;
     form_data := payload;
     user_arg := get_user_obj h user;
     gen_result := fst (image_generations h (overridden steps w) payload
                          (get_user_obj h user)) |}.


(** The reading of the user valves on lines 120-122 raises for [user]: a
    truthy value that does not support [in], or a list or string on which
    ["valves" in user] holds, so that [user["valves"]] is evaluated. *)
Definition user_probe_fails (user : value) : bool :=
  Py.truthy user
  && match user with
     | VDict _ => false
     | VList l =>
         existsb (fun x => match x with VStr s => s =? "valves" | _ => false end)
                 l
     | VStr s => PyStr.contains "valves" s
     | _ => true
     end.



(** The name the emission loop gives to the image at position [idx]. *)
Definition image_alt (idx : nat) : string :=
  "imagen_generada_" ++ PyStr.of_nat (idx + 1).



(** A descriptor that is neither a mapping nor a string nor an object:
    [None], a boolean, a number or a list. *)
Definition is_plain_value (it : value) : bool :=
  match it with
  | VNone | VBool _ | VInt _ | VList _ => true
  | _ => false
  end.

(** A string that names no regular file (a URL, say). *)
Definition is_remote_string (h : host) (it : value) : bool :=
  Py.is_str it && negb (names_regular_file h it).

(** *** The file-system discipline *)

(** A file-system call the checks of [_path_to_data_uri] allow: the content
    of a path is read only if the path names a regular file that is not too
    large and has a supported extension; looking at a path is always
    allowed. *)
Definition read_allowed (h : host) (valves : Valves) (op : fs_op) : bool :=
  match op with
  | OpRead p =>
      match fs h p with
      | Regular size _ _ =>
          negb (too_large valves size) && extension_supported valves p
      | _ => false
      end
  | _ => true
  end.

(** Between [w] and [w'] only allowed file-system calls were made. *)
Definition reads_checked (h : host) (valves : Valves) (w w' : world) : Prop :=
  exists ops,
    fs_trace w' = (fs_trace w ++ ops)%list
    /\ Forall (fun op => read_allowed h valves op = true) ops.

(** A host in which [open_webui.routers.images] cannot be imported. *)
Definition host_without_images : host :=
  {| fs := sample_fs;
     event_emitter := Some accepting_emitter;
     images_module := false;
     Users := None;
     image_generations := fun setting _ _ =>
       (Ok (VStr "https://example.com/x.png"),
        match setting with Some v => v | None => VNone end);
     format_exc := fun e => exc_type e ++ ": " ++ exc_msg e |}.

(* ================================================================== *)
(** * Properties *)

(** ** Reasoning about the monad *)

Lemma never_raises_ret {A} (a : A) : never_raises (ret a).
Proof. intros w; exists a; reflexivity. Qed.

Lemma never_raises_bind {A B} (m : M A) (k : A -> M B) :
  never_raises m -> (forall a, never_raises (k a)) -> never_raises (bind m k).
Proof.
  intros Hm Hk w. unfold bind.
  destruct (Hm w) as [a Ha]. destruct (m w) as [[a'|e] w']; simpl in Ha.
  - apply Hk.
  - discriminate.
Qed.

Lemma never_raises_try_except {A} (m : M A) (handler : exc -> M A) :
  (forall e, never_raises (handler e)) -> never_raises (try_except m handler).
Proof.
  intros Hh w. unfold try_except.
  destruct (m w) as [[a|e] w'].
  - exists a; reflexivity.
  - apply Hh.
Qed.

Lemma never_raises_try_finally {A} (m : M A) (cleanup : M unit) :
  never_raises m -> never_raises (try_finally m cleanup).
Proof.
  intros Hm w. unfold try_finally.
  destruct (Hm w) as [a Ha]. destruct (m w) as [r w']; simpl in *.
  exists a; exact Ha.
Qed.

(** A relation between the world before and after that every step of a
    computation respects is respected by the whole. *)
Section Keeps.

Variable R : world -> world -> Prop.
Hypothesis R_refl : forall w, R w w.
Hypothesis R_trans : forall w1 w2 w3, R w1 w2 -> R w2 w3 -> R w1 w3.

Lemma keeps_ret {A} (a : A) : keeps R (ret a).
Proof. intros w; apply R_refl. Qed.

Lemma keeps_raise {A} (e : exc) : keeps R (@raise A e).
Proof. intros w; apply R_refl. Qed.

Lemma keeps_lift {A} (o : outcome A) : keeps R (lift o).
Proof. intros w; apply R_refl. Qed.

Lemma keeps_bind {A B} (m : M A) (k : A -> M B) :
  keeps R m -> (forall a, keeps R (k a)) -> keeps R (bind m k).
Proof.
  intros Hm Hk w. unfold bind.
  specialize (Hm w). destruct (m w) as [[a|e] w']; simpl in *.
  - eapply R_trans; [exact Hm | apply Hk].
  - exact Hm.
Qed.

Lemma keeps_try_except {A} (m : M A) (handler : exc -> M A) :
  keeps R m -> (forall e, keeps R (handler e)) -> keeps R (try_except m handler).
Proof.
  intros Hm Hh w. unfold try_except.
  specialize (Hm w). destruct (m w) as [[a|e] w']; simpl in *.
  - exact Hm.
  - eapply R_trans; [exact Hm | apply Hh].
Qed.

Lemma keeps_if {A} (b : bool) (m1 m2 : M A) :
  keeps R m1 -> keeps R m2 -> keeps R (if b then m1 else m2).
Proof. destruct b; auto. Qed.

End Keeps.

Lemma same_host_state_refl w : same_host_state w w.
Proof. split; reflexivity. Qed.

Lemma same_host_state_trans w1 w2 w3 :
  same_host_state w1 w2 -> same_host_state w2 w3 -> same_host_state w1 w3.
Proof. unfold same_host_state; intros [? ?] [? ?]; split; congruence. Qed.

Lemma only_emits_refl w : only_emits w w.
Proof.
  repeat split; exists []; symmetry; apply app_nil_r.
Qed.

Lemma only_emits_trans w1 w2 w3 :
  only_emits w1 w2 -> only_emits w2 w3 -> only_emits w1 w3.
Proof.
  intros (Ha & Hb & Hc & e1 & He1) (Ha' & Hb' & Hc' & e2 & He2).
  repeat split; try congruence.
  exists (e1 ++ e2)%list. rewrite He2, He1, app_assoc. reflexivity.
Qed.

Lemma only_reads_refl w : only_reads w w.
Proof.
  repeat split; exists []; symmetry; apply app_nil_r.
Qed.

Lemma only_reads_trans w1 w2 w3 :
  only_reads w1 w2 -> only_reads w2 w3 -> only_reads w1 w3.
Proof.
  intros (Ha & Hb & Hc & o1 & Ho1) (Ha' & Hb' & Hc' & o2 & Ho2).
  repeat split; try congruence.
  exists (o1 ++ o2)%list. rewrite Ho2, Ho1, app_assoc. reflexivity.
Qed.

Lemma only_emits_same_host w w' : only_emits w w' -> same_host_state w w'.
Proof. intros (? & ? & _); split; assumption. Qed.

Lemma only_reads_same_host w w' : only_reads w w' -> same_host_state w w'.
Proof. intros (? & ? & _); split; assumption. Qed.

(** Builds a [keeps] proof along the structure of a computation. *)
Ltac keeps_step R_refl R_trans :=
  first
    [ apply (keeps_ret _ R_refl)
    | apply (keeps_raise _ R_refl)
    | apply (keeps_lift _ R_refl)
    | apply (keeps_bind _ R_trans); [ | intros ? ]
    | apply (keeps_try_except _ R_trans); [ | intros ? ]
    | apply keeps_if ].

Ltac emits_step := keeps_step only_emits_refl only_emits_trans.
Ltac reads_step := keeps_step only_reads_refl only_reads_trans.

Lemma bind_ok {A B} (m : M A) (k : A -> M B) w a w' :
  m w = (Ok a, w') -> bind m k w = k a w'.
Proof. intros E. unfold bind. rewrite E. reflexivity. Qed.

Lemma bind_raise {A B} (m : M A) (k : A -> M B) w e w' :
  m w = (Raise e, w') -> bind m k w = (Raise e, w').
Proof. intros E. unfold bind. rewrite E. reflexivity. Qed.

(** ** Frame and totality of the emission helpers *)

Lemma call_emitter_only_emits f ev : keeps only_emits (call_emitter f ev).
Proof.
  intros w. unfold call_emitter; simpl.
  repeat split. exists [ev]. reflexivity.
Qed.

Lemma emit_status_never_raises h show_status description done :
  never_raises (_emit_status h show_status description done).
Proof.
  unfold _emit_status. destruct (negb (Py.truthy show_status)).
  - apply never_raises_ret.
  - apply never_raises_try_except. intros e. apply never_raises_ret.
Qed.

Lemma emit_status_only_emits h show_status description done :
  keeps only_emits (_emit_status h show_status description done).
Proof.
  unfold _emit_status. apply keeps_if; [emits_step|].
  emits_step; [|emits_step].
  destruct (event_emitter h); [apply call_emitter_only_emits | emits_step].
Qed.

Lemma emit_image_direct_never_raises h url w hh alt :
  never_raises (_emit_image_direct h url w hh alt).
Proof.
  apply never_raises_try_except. intros e. apply never_raises_ret.
Qed.

Lemma emit_image_markdown_never_raises h url alt :
  never_raises (_emit_image_markdown h url alt).
Proof.
  apply never_raises_try_except. intros e. apply never_raises_ret.
Qed.

Lemma emit_image_html_never_raises h url w hh alt :
  never_raises (_emit_image_html h url w hh alt).
Proof.
  apply never_raises_try_except. intros e. apply never_raises_ret.
Qed.

Lemma emit_image_direct_only_emits h url w hh alt :
  keeps only_emits (_emit_image_direct h url w hh alt).
Proof.
  unfold _emit_image_direct. emits_step; [|emits_step].
  destruct (event_emitter h); [|emits_step].
  emits_step; [apply call_emitter_only_emits | emits_step].
Qed.

Lemma emit_image_markdown_only_emits h url alt :
  keeps only_emits (_emit_image_markdown h url alt).
Proof.
  unfold _emit_image_markdown. emits_step; [|emits_step].
  destruct (event_emitter h); [|emits_step].
  emits_step; [apply call_emitter_only_emits | emits_step].
Qed.

Lemma emit_image_html_only_emits h url w hh alt :
  keeps only_emits (_emit_image_html h url w hh alt).
Proof.
  unfold _emit_image_html. emits_step; [|emits_step].
  destruct (event_emitter h); [|emits_step].
  emits_step; [apply call_emitter_only_emits | emits_step].
Qed.

Lemma try_methods_never_raises methods :
  Forall (fun nm => never_raises (snd nm)) methods ->
  never_raises (try_methods methods).
Proof.
  induction 1 as [|[name m] rest Hm _ IH]; simpl.
  - apply never_raises_ret.
  - apply never_raises_bind; [exact Hm|].
    intros [|]; [apply never_raises_ret | exact IH].
Qed.

Lemma try_methods_only_emits methods :
  Forall (fun nm => keeps only_emits (snd nm)) methods ->
  keeps only_emits (try_methods methods).
Proof.
  induction 1 as [|[name m] rest Hm _ IH]; simpl.
  - emits_step.
  - emits_step; [exact Hm|].
    apply keeps_if; [emits_step | exact IH].
Qed.

(** [_emit_image], case by case: an empty image, an image without a
    length, and an image with one. *)
Lemma emit_image_unfold h valves aat prompt url w hh alt index :
  _emit_image h valves aat prompt url w hh alt index
  = if negb (Py.truthy url) then ret false
    else lift (Py.len url) ;;;
         try_methods
           (methods_of h valves url w hh
              (effective_alt aat prompt alt index)).
Proof. reflexivity. Qed.

Lemma emit_image_empty h valves aat prompt url w hh alt index wd :
  Py.truthy url = false ->
  _emit_image h valves aat prompt url w hh alt index wd = (Ok false, wd).
Proof. intros T. rewrite emit_image_unfold, T. reflexivity. Qed.

Lemma emit_image_raises h valves aat prompt url w hh alt index wd e :
  emission_error url = Some e ->
  _emit_image h valves aat prompt url w hh alt index wd = (Raise e, wd).
Proof.
  unfold emission_error. rewrite emit_image_unfold.
  destruct (Py.truthy url); [|discriminate]. cbn [negb].
  unfold bind, lift. destruct (Py.len url); [discriminate|].
  intros [= <-]. reflexivity.
Qed.

Lemma emit_image_dispatches h valves aat prompt url w hh alt index wd :
  Py.truthy url = true ->
  emission_error url = None ->
  _emit_image h valves aat prompt url w hh alt index wd
  = try_methods
      (methods_of h valves url w hh (effective_alt aat prompt alt index)) wd.
Proof.
  unfold emission_error. rewrite emit_image_unfold. intros ->. cbn [negb].
  unfold bind, lift. destruct (Py.len url); [reflexivity | discriminate].
Qed.

Lemma methods_never_raise h valves url w hh alt :
  Forall (fun nm => never_raises (snd nm)) (methods_of h valves url w hh alt).
Proof.
  unfold methods_of.
  destruct (EMIT_METHOD_PRIORITY valves);
    repeat (apply Forall_cons; simpl);
    auto using emit_image_direct_never_raises,
      emit_image_markdown_never_raises, emit_image_html_never_raises.
Qed.

Lemma methods_only_emit h valves url w hh alt :
  Forall (fun nm => keeps only_emits (snd nm))
         (methods_of h valves url w hh alt).
Proof.
  unfold methods_of.
  destruct (EMIT_METHOD_PRIORITY valves);
    repeat (apply Forall_cons; simpl);
    auto using emit_image_direct_only_emits,
      emit_image_markdown_only_emits, emit_image_html_only_emits.
Qed.

(** [_emit_image] raises on an image without a length only. *)
Lemma emit_image_never_raises h valves aat prompt url w hh alt index :
  emission_error url = None ->
  never_raises (_emit_image h valves aat prompt url w hh alt index).
Proof.
  intros N wd. destruct (Py.truthy url) eqn:T.
  - rewrite (emit_image_dispatches _ _ _ _ _ _ _ _ _ _ T N).
    apply try_methods_never_raises, methods_never_raise.
  - rewrite (emit_image_empty _ _ _ _ _ _ _ _ _ _ T). now exists false.
Qed.

Lemma emit_image_only_emits h valves aat prompt url w hh alt index :
  keeps only_emits (_emit_image h valves aat prompt url w hh alt index).
Proof.
  rewrite emit_image_unfold. apply keeps_if; [emits_step|].
  emits_step; [emits_step|].
  apply try_methods_only_emits, methods_only_emit.
Qed.

Lemma emit_images_never_raises h valves aat prompt width height images_out :
  first_emission_error images_out = None ->
  forall idx count,
    never_raises
      (emit_images h valves aat prompt width height images_out idx count).
Proof.
  induction images_out as [|url rest IH]; intros N idx count;
    cbn [emit_images first_emission_error] in *.
  - apply never_raises_ret.
  - destruct (emission_error url) eqn:E; [discriminate|].
    apply never_raises_bind; [now apply emit_image_never_raises|].
    intros b. now apply IH.
Qed.

(** The loop raises on the first image without a length. *)
Lemma emit_images_raises h valves aat prompt width height images_out e :
  first_emission_error images_out = Some e ->
  forall idx count w,
    fst (emit_images h valves aat prompt width height images_out idx count w)
    = Raise e.
Proof.
  induction images_out as [|url rest IH]; intros N idx count w;
    cbn [emit_images first_emission_error] in *; [discriminate|].
  destruct (emission_error url) as [e'|] eqn:E.
  - assert (e' = e) as -> by congruence.
    now rewrite (bind_raise _ _ _ _ _
                   (emit_image_raises _ _ _ _ _ _ _ _ _ _ _ E)).
  - pose proof (emit_image_never_raises h valves aat prompt url width height
                  ("imagen_generada_" ++ PyStr.of_nat (idx + 1)) (idx + 1)
                  E w) as [b Hb].
    unfold bind at 1.
    destruct (_emit_image h valves aat prompt url width height _ _ w)
      as [[b'|e'] w1]; cbn [fst] in Hb; [|discriminate].
    now apply IH.
Qed.

Lemma emit_images_only_emits h valves aat prompt width height images_out :
  forall idx count,
    keeps only_emits
      (emit_images h valves aat prompt width height images_out idx count).
Proof.
  induction images_out as [|url rest IH]; intros idx count; simpl.
  - emits_step.
  - emits_step; [apply emit_image_only_emits | apply IH].
Qed.

(** The emission loop counts at most one success per image. *)
Lemma emit_images_count h valves aat prompt width height images_out :
  forall idx count w n,
    fst (emit_images h valves aat prompt width height images_out idx count w)
      = Ok n ->
    (count <= n <= count + List.length images_out)%nat.
Proof.
  induction images_out as [|url rest IH]; intros idx count w n; simpl.
  - unfold ret; simpl. intros H; inversion H; subst. lia.
  - unfold bind at 1.
    destruct (_emit_image h valves aat prompt url width height _ _ w)
      as [[b|e] w1]; simpl.
    + intros H. apply IH in H. destruct b; lia.
    + discriminate.
Qed.

(** ** The materializer, case by case *)

Lemma after_fs_after_fs ops1 ops2 w :
  after_fs ops2 (after_fs ops1 w) = after_fs (ops1 ++ ops2) w.
Proof. unfold after_fs; simpl. rewrite app_assoc. reflexivity. Qed.

Lemma log_fs_run op w : log_fs op w = (Ok tt, after_fs [op] w).
Proof. reflexivity. Qed.

Lemma path_exists_run h p w :
  path_exists h p w =
  (match fs h p with
   | Absent => Ok false
   | StatFails => Raise os_error
   | NotRegular | Regular _ _ _ => Ok true
   end, after_fs [OpExists p] w).
Proof.
  unfold path_exists, bind. rewrite log_fs_run.
  destruct (fs h p); reflexivity.
Qed.

Lemma path_is_file_run h p w :
  path_is_file h p w =
  (match fs h p with
   | Regular _ _ _ => Ok true
   | StatFails => Raise os_error
   | Absent | NotRegular => Ok false
   end, after_fs [OpIsFile p] w).
Proof.
  unfold path_is_file, bind. rewrite log_fs_run.
  destruct (fs h p); reflexivity.
Qed.

Lemma path_stat_size_run h p size readable bytes w :
  fs h p = Regular size readable bytes ->
  path_stat_size h p w = (Ok size, after_fs [OpStat p] w).
Proof.
  intros E. unfold path_stat_size, bind. rewrite log_fs_run, E. reflexivity.
Qed.

Lemma read_bytes_run h p size readable bytes w :
  fs h p = Regular size readable bytes ->
  read_bytes h p w =
  (if readable then Ok bytes else Raise os_error, after_fs [OpRead p] w).
Proof.
  intros E. unfold read_bytes, bind. rewrite log_fs_run, E.
  destruct readable; reflexivity.
Qed.

(** What [_path_to_data_uri] returns and which file-system calls it makes,
    by what the path names. *)
Lemma path_to_data_uri_run h valves path w :
  _path_to_data_uri h valves path w =
  match fs h path with
  | Absent | StatFails => (Ok "", after_fs [OpExists path] w)
  | NotRegular => (Ok "", after_fs [OpExists path; OpIsFile path] w)
  | Regular size readable bytes =>
      if too_large valves size || negb (extension_supported valves path)
      then (Ok "", after_fs [OpExists path; OpIsFile path; OpStat path] w)
      else
        (Ok (if readable
             then "data:" ++ detected_mime path ++ ";base64,"
                          ++ Base64.b64encode bytes
             else ""),
         after_fs [OpExists path; OpIsFile path; OpStat path; OpRead path] w)
  end.
Proof.
  unfold _path_to_data_uri, try_except, bind at 1.
  rewrite path_exists_run.
  destruct (fs h path) as [| | |size readable bytes] eqn:E;
    cbv beta iota zeta; try reflexivity.
  - change (negb true) with false. cbv iota. unfold bind at 1.
    rewrite path_is_file_run, E, after_fs_after_fs. reflexivity.
  - change (negb true) with false. cbv iota. unfold bind at 1.
    rewrite path_is_file_run, E, after_fs_after_fs.
    cbv beta iota zeta. change (negb true) with false. cbv iota.
    unfold bind at 1.
    rewrite (path_stat_size_run _ _ _ _ _ _ E), after_fs_after_fs.
    cbv beta iota zeta.
    fold (too_large valves size). fold (extension_supported valves path).
    destruct (too_large valves size); [reflexivity|].
    destruct (extension_supported valves path); [|reflexivity].
    cbv beta iota zeta. unfold negb, orb. unfold bind at 1.
    rewrite (read_bytes_run _ _ _ _ _ _ E), after_fs_after_fs.
    destruct readable; reflexivity.
Qed.

Lemma path_to_data_uri_never_raises h valves path :
  never_raises (_path_to_data_uri h valves path).
Proof.
  apply never_raises_try_except. intros e. apply never_raises_ret.
Qed.

Lemma after_fs_only_reads ops w : only_reads w (after_fs ops w).
Proof. repeat split. exists ops. reflexivity. Qed.

Lemma path_to_data_uri_only_reads h valves path :
  keeps only_reads (_path_to_data_uri h valves path).
Proof.
  intros w. rewrite path_to_data_uri_run.
  destruct (fs h path) as [| | |size readable bytes];
    try apply after_fs_only_reads.
  destruct (too_large valves size || negb (extension_supported valves path));
    apply after_fs_only_reads.
Qed.

(** ** The resolver as a function of the file system *)

Lemma path_to_data_uri_result h valves path w :
  fst (_path_to_data_uri h valves path w) = Ok (materialize h valves path).
Proof.
  rewrite path_to_data_uri_run. unfold materialize.
  destruct (fs h path) as [| | |size [|] bytes]; try reflexivity;
    destruct (too_large valves size || negb (extension_supported valves path));
    reflexivity.
Qed.

Lemma local_path_or_url_result h valves v w :
  fst (local_path_or_url h valves v w) = Ok (resolved_path h valves v).
Proof.
  destruct v; try reflexivity.
  unfold local_path_or_url, resolved_path, names_regular_file, try_except,
    bind at 1.
  rewrite path_exists_run.
  destruct (fs h s) as [| | |size readable bytes] eqn:E; cbv beta iota zeta;
    try reflexivity.
  - unfold bind at 1. rewrite path_is_file_run, E. reflexivity.
  - unfold bind at 1. rewrite path_is_file_run, E.
    cbv beta iota zeta. unfold bind at 1.
    pose proof (path_to_data_uri_result h valves s
                  (after_fs [OpIsFile s] (after_fs [OpExists s] w))) as H.
    destruct (_path_to_data_uri h valves s _) as [[uri|e] w']; simpl in H.
    + inversion H; subst. reflexivity.
    + discriminate.
Qed.

Lemma local_path_or_url_never_raises h valves v :
  never_raises (local_path_or_url h valves v).
Proof.
  intros w. eexists. apply local_path_or_url_result.
Qed.

Lemma log_fs_only_reads op : keeps only_reads (log_fs op).
Proof. intros w. rewrite log_fs_run. apply after_fs_only_reads. Qed.

Lemma path_exists_only_reads h p : keeps only_reads (path_exists h p).
Proof.
  intros w. rewrite path_exists_run. apply after_fs_only_reads.
Qed.

Lemma path_is_file_only_reads h p : keeps only_reads (path_is_file h p).
Proof.
  intros w. rewrite path_is_file_run. apply after_fs_only_reads.
Qed.

Lemma local_path_or_url_only_reads h valves v :
  keeps only_reads (local_path_or_url h valves v).
Proof.
  destruct v; try (apply keeps_ret; apply only_reads_refl).
  unfold local_path_or_url.
  reads_step; [|reads_step].
  reads_step; [apply path_exists_only_reads|].
  reads_step.
  - apply keeps_if; [apply path_is_file_only_reads | reads_step].
  - apply keeps_if; [|reads_step].
    reads_step; [apply path_to_data_uri_only_reads | reads_step].
Qed.

Lemma b64_field_only_reads v : keeps only_reads (b64_field v).
Proof. destruct v; simpl; reads_step. Qed.

Lemma scan_fields_only_reads h valves fields it :
  keeps only_reads (scan_fields h valves fields it).
Proof.
  induction fields as [|field rest IH]; simpl.
  - reads_step.
  - destruct (Py.lookup field it) as [v|]; [|exact IH].
    repeat apply keeps_if; auto using local_path_or_url_only_reads,
      b64_field_only_reads.
    reads_step.
Qed.

Lemma resolve_item_only_reads h valves it :
  keeps only_reads (resolve_item h valves it).
Proof.
  destruct it; unfold resolve_item;
    try (apply keeps_ret; apply only_reads_refl).
  - apply local_path_or_url_only_reads.
  - reads_step; [apply scan_fields_only_reads|].
    apply keeps_if; [|reads_step].
    reads_step; reads_step.
Qed.

Lemma process_items_only_reads h valves raw_items :
  forall images_out,
    keeps only_reads (process_items h valves raw_items images_out).
Proof.
  induction raw_items as [|it rest IH]; intros images_out; simpl.
  - reads_step.
  - reads_step; [apply resolve_item_only_reads | apply IH].
Qed.


(* ================================================================== *)
(** * The claims of the specification *)

(** ** Inline base64 (C7) *)

Lemma startswith_app p s : PyStr.startswith p (p ++ s) = true.
Proof.
  unfold PyStr.startswith.
  induction p as [|c p IH]; simpl.
  - destruct s; reflexivity.
  - rewrite IH. destruct (ascii_dec c c) as [_|N]; [reflexivity | now elim N].
Qed.

Lemma startswith_true_iff p s :
  PyStr.startswith p s = true <-> exists rest, s = p ++ rest.
Proof.
  unfold PyStr.startswith. split.
  - revert s. induction p as [|c p IH]; intros s H.
    + exists s. reflexivity.
    + destruct s as [|d s]; simpl in H; [discriminate|].
      destruct (ascii_dec c d) as [->|]; [|discriminate].
      destruct (IH _ H) as [rest ->]. exists rest. reflexivity.
  - intros [rest ->]. apply startswith_app.
Qed.

(** C7. For a string taken from a [b64] / [base64] field,
    [_make_data_uri_from_b64] (with the default MIME type, as the resolver
    calls it) returns the string itself when it starts with [data:] and
    [data:image/png;base64,] followed by the string otherwise; so the output
    starts with [data:], the field value is a suffix of it, and converting
    the output again changes nothing. The resolver's base64 branch yields
    exactly this output and touches nothing. *)
Theorem make_data_uri_from_b64_spec : forall b64 : string,
  let out := _make_data_uri_from_b64 b64 "image/png" in
  out = (if PyStr.startswith "data:" b64 then b64
         else "data:image/png;base64," ++ b64)
  /\ PyStr.startswith "data:" out = true
  /\ (exists front, out = front ++ b64)
  /\ _make_data_uri_from_b64 out "image/png" = out
  /\ (forall w, b64_field (VStr b64) w = (Ok (VStr out), w)).
Proof.
  intros b64 out.
  assert (E : out = if PyStr.startswith "data:" b64 then b64
                    else "data:image/png;base64," ++ b64).
  { subst out. unfold _make_data_uri_from_b64.
    destruct (PyStr.startswith "data:" b64); reflexivity. }
  assert (S : PyStr.startswith "data:" out = true).
  { rewrite E. destruct (PyStr.startswith "data:" b64) eqn:P; [exact P|].
    apply (startswith_app "data:" ("image/png;base64," ++ b64)). }
  split; [exact E|]. split; [exact S|]. split.
  { rewrite E. destruct (PyStr.startswith "data:" b64);
      [exists "" | exists "data:image/png;base64,"]; reflexivity. }
  split.
  { unfold _make_data_uri_from_b64 at 1. rewrite S. reflexivity. }
  intros w. reflexivity.
Qed.

(** ** The materializer (C5, C6) *)

Lemma extension_supported_iff valves path :
  extension_supported valves path = true <->
  exists fmt,
    In fmt (PyStr.split "," (SUPPORTED_FORMATS valves))
    /\ PyStr.lower (PathLib.suffix path) = "." ++ PyStr.lower (PyStr.strip fmt).
Proof.
  unfold extension_supported, str_in, supported_exts.
  rewrite existsb_exists. split.
  - intros (ext & Hin & Heq). apply in_map_iff in Hin.
    destruct Hin as (fmt & <- & Hfmt). apply String.eqb_eq in Heq.
    exists fmt. split; assumption.
  - intros (fmt & Hfmt & Heq).
    exists ("." ++ PyStr.lower (PyStr.strip fmt)). split.
    + apply in_map_iff. exists fmt. split; [reflexivity | assumption].
    + apply String.eqb_eq. exact Heq.
Qed.

Lemma too_large_iff valves size :
  too_large valves size = true
  <-> (size > MAX_FILE_SIZE_MB valves * 1024 * 1024)%Z.
Proof.
  unfold too_large. rewrite Z.gtb_ltb, Z.ltb_lt. lia.
Qed.

Lemma data_uri_nonempty mime payload : "data:" ++ mime ++ payload <> "".
Proof. discriminate. Qed.

(** C5, as the code has it. [_path_to_data_uri] never raises: for every
    path it returns a string. That string is empty exactly when the path
    does not exist, the existence test itself raises, the path is no regular
    file, the file's size exceeds [MAX_FILE_SIZE_MB * 1024 * 1024] bytes, its
    extension (lower-cased) is not among the lower-cased, stripped entries of
    [SUPPORTED_FORMATS], or the file cannot be opened and read. The content
    is read only when the file is regular and passes the size and extension
    checks, so never when it is too large. *)
Theorem path_to_data_uri_rejections : forall h valves path w,
  exists uri ops,
    _path_to_data_uri h valves path w = (Ok uri, after_fs ops w)
    /\ (uri = "" <->
        match fs h path with
        | Absent | StatFails | NotRegular => True
        | Regular size readable _ =>
            (size > MAX_FILE_SIZE_MB valves * 1024 * 1024)%Z
            \/ ~ (exists fmt,
                     In fmt (PyStr.split "," (SUPPORTED_FORMATS valves))
                     /\ PyStr.lower (PathLib.suffix path)
                        = "." ++ PyStr.lower (PyStr.strip fmt))
            \/ readable = false
        end)
    /\ (In (OpRead path) ops <->
        exists size readable bytes,
          fs h path = Regular size readable bytes
          /\ (size <= MAX_FILE_SIZE_MB valves * 1024 * 1024)%Z
          /\ extension_supported valves path = true).
Proof.
  intros h valves path w. rewrite path_to_data_uri_run.
  destruct (fs h path) as [| | |size readable bytes] eqn:E.
  1-3: do 2 eexists; split; [reflexivity|]; split; [tauto|];
       split; [simpl; intuition discriminate
              | intros (? & ? & ? & ? & _); discriminate].
  destruct (too_large valves size) eqn:L;
    [|destruct (extension_supported valves path) eqn:X]; simpl.
  - apply too_large_iff in L.
    do 2 eexists; split; [reflexivity|]. split; [tauto|]. split.
    + simpl. intuition discriminate.
    + intros (s & r & b & H & Hs & _). inversion H; subst. lia.
  - assert (~ (size > MAX_FILE_SIZE_MB valves * 1024 * 1024)%Z) as NL.
    { rewrite <- too_large_iff, L. discriminate. }
    pose proof (proj1 (extension_supported_iff _ _) X) as X'.
    do 2 eexists; split; [reflexivity|]. split; [|split].
    + destruct readable; split; intros H.
      * exfalso. revert H. apply data_uri_nonempty.
      * destruct H as [H|[H|H]]; [contradiction | contradiction | discriminate].
      * right; right; reflexivity.
      * reflexivity.
    + intros _. exists size, readable, bytes. split; [reflexivity|].
      split; [lia | reflexivity].
    + intros _. simpl. auto.
  - do 2 eexists; split; [reflexivity|]. split; [|split].
    + split; [intros _|reflexivity]. right; left.
      rewrite <- extension_supported_iff, X. discriminate.
    + simpl. intuition discriminate.
    + intros (s & r & b & H & _ & Hx). discriminate.
Qed.

(** C5 as stated fails: its "exactly when" misses a cause.
    [/tmp/locked.png] exists, is a regular file of 3 bytes with a supported
    extension, and the result is empty all the same, because opening it
    raises. *)
Lemma path_to_data_uri_unreadable_is_empty :
  fs (sample_host None (Ok VNone)) "/tmp/locked.png"
    = Regular 3 false (list_byte_of_string "Man")
  /\ too_large default_valves 3 = false
  /\ extension_supported default_valves "/tmp/locked.png" = true
  /\ fst (_path_to_data_uri (sample_host None (Ok VNone)) default_valves
            "/tmp/locked.png" (initial_world None)) = Ok "".
Proof. repeat split. Qed.

Lemma detected_mime_table path :
  detected_mime path =
  (let ext := PyStr.lower (PathLib.suffix path) in
   if (ext =? ".jpg") || (ext =? ".jpeg") then "image/jpeg"
   else if ext =? ".png" then "image/png"
   else if ext =? ".webp" then "image/webp"
   else if ext =? ".gif" then "image/gif"
   else if ext =? ".bmp" then "image/bmp"
   else if ext =? ".tiff" then "image/tiff"
   else "image/png").
Proof.
  unfold detected_mime. cbv zeta.
  generalize (PyStr.lower (PathLib.suffix path)) as ext. intros ext.
  unfold mime_map, mime_map_get.
  rewrite !(String.eqb_sym _ ext).
  destruct (ext =? ".jpg") eqn:E1; [reflexivity|].
  destruct (ext =? ".jpeg") eqn:E2; [reflexivity|].
  cbv [orb].
  destruct (ext =? ".png") eqn:E3.
  - apply String.eqb_eq in E3. subst ext. reflexivity.
  - reflexivity.
Qed.

(** C6, as the code has it. For an existing regular file that passes the
    size and extension checks and can be read, [_path_to_data_uri] returns
    [data:<mime>;base64,<payload>]: the payload is the base64 encoding of the
    file's bytes, the MIME type comes from the lower-cased extension (jpg and
    jpeg: image/jpeg; png, webp, gif, bmp, tiff: image/ followed by the
    extension) and is image/png for any other extension. *)
Theorem path_to_data_uri_success : forall h valves path size bytes w,
  fs h path = Regular size true bytes ->
  (size <= MAX_FILE_SIZE_MB valves * 1024 * 1024)%Z ->
  extension_supported valves path = true ->
  fst (_path_to_data_uri h valves path w)
    = Ok ("data:" ++ detected_mime path ++ ";base64,"
                  ++ Base64.b64encode bytes)
  /\ detected_mime path =
     (let ext := PyStr.lower (PathLib.suffix path) in
      if (ext =? ".jpg") || (ext =? ".jpeg") then "image/jpeg"
      else if ext =? ".png" then "image/png"
      else if ext =? ".webp" then "image/webp"
      else if ext =? ".gif" then "image/gif"
      else if ext =? ".bmp" then "image/bmp"
      else if ext =? ".tiff" then "image/tiff"
      else "image/png").
Proof.
  intros h valves path size bytes w E Hsize Hext.
  split; [|apply detected_mime_table].
  rewrite path_to_data_uri_result. unfold materialize. rewrite E, Hext.
  assert (too_large valves size = false) as ->.
  { destruct (too_large valves size) eqn:L; [|reflexivity].
    apply too_large_iff in L. lia. }
  reflexivity.
Qed.

(** C6 at [/tmp/photo.JPG], which holds the two bytes [Ma]: the extension
    is matched whatever its case, and the URI is that of a JPEG. *)
Lemma path_to_data_uri_success_witness :
  fs (sample_host None (Ok VNone)) "/tmp/photo.JPG"
    = Regular 2 true (list_byte_of_string "Ma")
  /\ fst (_path_to_data_uri (sample_host None (Ok VNone)) default_valves
            "/tmp/photo.JPG" (initial_world None))
     = Ok "data:image/jpeg;base64,TWE=".
Proof.
  split; [reflexivity|].
  refine (proj1 (path_to_data_uri_success (sample_host None (Ok VNone))
                   default_valves "/tmp/photo.JPG" 2
                   (list_byte_of_string "Ma") (initial_world None)
                   eq_refl _ eq_refl)).
  vm_compute. discriminate.
Defined.

(** C6 as stated fails for a file that cannot be read:
    [/srv/out/locked.jpg] is a regular file that passes both checks, and the
    result is the empty string, not the data URI of its bytes. *)
Lemma path_to_data_uri_unreadable_no_uri :
  fs (sample_host None (Ok VNone)) "/srv/out/locked.jpg"
    = Regular 3 false (list_byte_of_string "Man")
  /\ too_large default_valves 3 = false
  /\ extension_supported default_valves "/srv/out/locked.jpg" = true
  /\ fst (_path_to_data_uri (sample_host None (Ok VNone)) default_valves
            "/srv/out/locked.jpg" (initial_world None))
     = Ok ""
  /\ "" <> "data:image/jpeg;base64," ++ Base64.b64encode (list_byte_of_string "Man").
Proof. repeat split. discriminate. Qed.

(** ** The dispatcher (C8) *)

Lemma emit_image_direct_run h f url w hh alt wd :
  event_emitter h = Some f ->
  _emit_image_direct h url w hh alt wd = attempt f (direct_event url w hh alt) wd.
Proof.
  intros E. unfold _emit_image_direct, try_except, bind, call_emitter, attempt.
  rewrite E. destruct (f (emitted wd) _); reflexivity.
Qed.

Lemma emit_image_markdown_run h f url alt wd :
  event_emitter h = Some f ->
  _emit_image_markdown h url alt wd = attempt f (markdown_event url alt) wd.
Proof.
  intros E. unfold _emit_image_markdown, try_except, bind, call_emitter, attempt.
  rewrite E. destruct (f (emitted wd) _); reflexivity.
Qed.

Lemma emit_image_html_run h f url w hh alt wd :
  event_emitter h = Some f ->
  _emit_image_html h url w hh alt wd = attempt f (html_event url w hh alt) wd.
Proof.
  intros E. unfold _emit_image_html, try_except, bind, call_emitter, attempt.
  rewrite E. destruct (f (emitted wd) _); reflexivity.
Qed.

Lemma after_events_after_events evs1 evs2 w :
  after_events evs2 (after_events evs1 w) = after_events (evs1 ++ evs2) w.
Proof. unfold after_events; simpl. rewrite app_assoc. reflexivity. Qed.

Lemma after_events_nil w : after_events [] w = w.
Proof. destruct w; unfold after_events; simpl. rewrite app_nil_r. reflexivity. Qed.

(** The loop over the methods, for methods that each hand one event to the
    transport: it hands over a prefix of the events, in order, and stops at
    the first that the transport accepts. *)
Lemma try_methods_attempts f methods evs :
  Forall2 (fun nm ev => forall w, snd nm w = attempt f ev w) methods evs ->
  forall wd, exists k,
    (k <= List.length evs)%nat
    /\ snd (try_methods methods wd) = after_events (firstn k evs) wd
    /\ ((fst (try_methods methods wd) = Ok true
         /\ (1 <= k)%nat
         /\ refused_before f (emitted wd) evs (k - 1)
         /\ f (emitted wd ++ firstn (k - 1) evs)%list (nth (k - 1) evs VNone)
            = Ok tt)
        \/ (fst (try_methods methods wd) = Ok false
            /\ k = List.length evs
            /\ refused_before f (emitted wd) evs k)).
Proof.
  induction 1 as [|[name m] ev methods evs Hm _ IH]; intros wd.
  - exists 0%nat. simpl. rewrite after_events_nil.
    split; [lia|]. split; [reflexivity|]. right.
    split; [reflexivity|]. split; [reflexivity|]. intros i Hi. lia.
  - simpl in Hm. simpl try_methods. unfold bind at 1 2 3. rewrite Hm.
    unfold attempt at 1 2 3.
    destruct (f (emitted wd) ev) as [[]|e] eqn:F.
    + exists 1%nat. simpl. split; [lia|]. split; [reflexivity|]. left.
      split; [reflexivity|]. split; [lia|]. split.
      * intros i Hi. lia.
      * rewrite app_nil_r. exact F.
    + destruct (IH (after_events [ev] wd)) as (k & Hk & Hw & Hr).
      exists (S k). simpl List.length. split; [lia|]. split.
      * rewrite Hw, after_events_after_events. reflexivity.
      * assert (refused_before f (emitted wd) (ev :: evs) 1) as R1.
        { intros i Hi. assert (i = 0)%nat as -> by lia. simpl.
          rewrite app_nil_r. eauto. }
        assert (forall n, refused_before f (emitted (after_events [ev] wd)) evs n ->
                          refused_before f (emitted wd) (ev :: evs) (S n)) as Rn.
        { intros n Hn [|i] Hi; [apply R1; lia|].
          destruct (Hn i) as [e' He']; [lia|].
          exists e'. simpl in *. rewrite <- app_assoc in He'. exact He'. }
        destruct Hr as [(Hb & H1 & Href & Hacc) | (Hb & Hlen & Href)].
        -- left. split; [exact Hb|]. split; [lia|].
           replace (S k - 1)%nat with (S (k - 1)) by lia. split.
           ++ apply Rn. exact Href.
           ++ simpl in *. rewrite <- app_assoc in Hacc. exact Hacc.
        -- right. split; [exact Hb|]. split; [lia|]. apply Rn. exact Href.
Qed.

Lemma emission_error_has_len url :
  has_len url = true -> emission_error url = None.
Proof.
  unfold has_len, emission_error.
  destruct (Py.len url); [|discriminate]. now destruct (Py.truthy url).
Qed.

Lemma emission_error_no_len url :
  Py.truthy url = true -> has_len url = false ->
  emission_error url = Some (no_len url).
Proof.
  unfold has_len, emission_error. intros ->.
  destruct url; try discriminate; reflexivity.
Qed.

Lemma methods_attempt h f valves url w hh alt :
  event_emitter h = Some f ->
  Forall2 (fun nm ev => forall w', snd nm w' = attempt f ev w')
    (methods_of h valves url w hh alt)
    (map (delivery_event url w hh alt)
         (delivery_order (EMIT_METHOD_PRIORITY valves))).
Proof.
  intros E. unfold methods_of.
  destruct (EMIT_METHOD_PRIORITY valves); simpl;
    repeat (apply Forall2_cons; simpl;
            [intros w'; first [ apply emit_image_direct_run
                              | apply emit_image_markdown_run
                              | apply emit_image_html_run ]; exact E|]);
    apply Forall2_nil.
Qed.

Lemma emit_image_methods h f valves aat prompt url w hh alt index wd :
  Py.truthy url = true ->
  emission_error url = None ->
  event_emitter h = Some f ->
  exists methods,
    _emit_image h valves aat prompt url w hh alt index wd
      = try_methods methods wd
    /\ Forall2 (fun nm ev => forall w', snd nm w' = attempt f ev w') methods
         (map (delivery_event url w hh (effective_alt aat prompt alt index))
              (delivery_order (EMIT_METHOD_PRIORITY valves))).
Proof.
  intros T N E. eexists. split; [now apply emit_image_dispatches|].
  now apply methods_attempt.
Qed.

Lemma methods_without_transport h valves url w hh alt wd :
  event_emitter h = None ->
  try_methods (methods_of h valves url w hh alt) wd = (Ok false, wd).
Proof.
  intros E. unfold methods_of.
  destruct (EMIT_METHOD_PRIORITY valves); simpl;
    unfold bind, _emit_image_direct, _emit_image_markdown, _emit_image_html,
      try_except; rewrite E; reflexivity.
Qed.

(** C8. [_emit_image] gives up at once on a falsy (empty) image. On every
    non-empty image that has a length, so on every non-empty string (its
    parameter is typed [str]), it goes through the three delivery methods in the order
    that starts with the method [EMIT_METHOD_PRIORITY] names (the direct one
    for [auto], whose order is direct, markdown, html) and continues with the
    others. With a transport, the events handed over are the first [k] of
    that order: every one before the last was refused (the transport
    raised), and the result is [True] exactly when the last one was accepted,
    in which case nothing further is tried; the result is [False] only after
    all three were refused. Without a transport every method fails and the
    result is [False]. In particular, with priority [html] and a transport
    that raises on the HTML event, the direct event is handed over next, and
    the markdown event too before failure is reported. (On a non-empty value
    without a length, a number or a plain object, which is no image
    reference, the [len] of the log line raises [TypeError] before any method
    is tried.) *)
Theorem emit_image_dispatch :
  forall h valves aat prompt url w hh alt index wd,
  let alt' := effective_alt aat prompt alt index in
  let order := delivery_order (EMIT_METHOD_PRIORITY valves) in
  let evs := map (delivery_event url w hh alt') order in
  let run := _emit_image h valves aat prompt url w hh alt index wd in
  hd_error order = Some (preferred (EMIT_METHOD_PRIORITY valves))
  /\ delivery_order Auto = [ByDirect; ByMarkdown; ByHtml]
  /\ (Py.is_str url = true -> has_len url = true)
  /\ (Py.truthy url = false -> run = (Ok false, wd))
  /\ (Py.truthy url = true -> has_len url = false ->
      run = (Raise (no_len url), wd))
  /\ (Py.truthy url = true -> has_len url = true ->
      event_emitter h = None -> run = (Ok false, wd))
  /\ (forall f, Py.truthy url = true -> has_len url = true ->
      event_emitter h = Some f ->
      exists k,
        (1 <= k <= 3)%nat
        /\ snd run = after_events (firstn k evs) wd
        /\ ((fst run = Ok true
             /\ refused_before f (emitted wd) evs (k - 1)
             /\ f (emitted wd ++ firstn (k - 1) evs)%list
                  (nth (k - 1) evs VNone) = Ok tt)
            \/ (fst run = Ok false
                /\ k = 3%nat
                /\ refused_before f (emitted wd) evs 3)))
  /\ (forall f e,
        EMIT_METHOD_PRIORITY valves = Html ->
        Py.truthy url = true ->
        has_len url = true ->
        event_emitter h = Some f ->
        f (emitted wd) (html_event url w hh alt') = Raise e ->
        exists rest,
          emitted (snd run)
            = (emitted wd ++ html_event url w hh alt'
                 :: direct_event url w hh alt' :: rest)%list
          /\ (fst run = Ok false -> rest = [markdown_event url alt'])).
Proof.
  intros h valves aat prompt url w hh alt index wd alt' order evs run.
  assert (Hmain : forall f, Py.truthy url = true -> has_len url = true ->
      event_emitter h = Some f ->
      exists k,
        (1 <= k <= 3)%nat
        /\ snd run = after_events (firstn k evs) wd
        /\ ((fst run = Ok true
             /\ refused_before f (emitted wd) evs (k - 1)
             /\ f (emitted wd ++ firstn (k - 1) evs)%list
                  (nth (k - 1) evs VNone) = Ok tt)
            \/ (fst run = Ok false
                /\ k = 3%nat
                /\ refused_before f (emitted wd) evs 3))).
  { intros f T L E.
    destruct (emit_image_methods h f valves aat prompt url w hh alt index wd T
                (emission_error_has_len url L) E)
      as (methods & Hrun & Hall).
    destruct (try_methods_attempts f methods _ Hall wd) as (k & Hk & Hw & Hr).
    fold alt' in Hk, Hw, Hr. fold order in Hk, Hw, Hr. fold evs in Hk, Hw, Hr.
    assert (List.length evs = 3%nat) as Hlen.
    { subst evs order. rewrite length_map.
      destruct (EMIT_METHOD_PRIORITY valves); reflexivity. }
    subst run. rewrite Hrun. exists k.
    destruct Hr as [(Hb & H1 & Href & Hacc) | (Hb & Hkl & Href)].
    - split; [lia|]. split; [exact Hw|]. left. auto.
    - split; [lia|]. split; [exact Hw|]. right.
      rewrite Hkl, Hlen in *. auto. }
  split; [reflexivity|]. split; [reflexivity|].
  split; [|split; [|split; [|split; [|split]]]].
  - destruct url; try discriminate. reflexivity.
  - intros T. subst run. now apply emit_image_empty.
  - intros T L. subst run.
    apply emit_image_raises. now apply emission_error_no_len.
  - intros T L E. subst run.
    rewrite (emit_image_dispatches _ _ _ _ _ _ _ _ _ _ T
               (emission_error_has_len url L)).
    now apply methods_without_transport.
  - exact Hmain.
  - intros f e P T L E Hhtml.
    destruct (Hmain f T L E) as (k & Hk & Hw & Hr).
    assert (evs = [html_event url w hh alt'; direct_event url w hh alt';
                   markdown_event url alt']) as Hevs.
    { subst evs order. rewrite P. reflexivity. }
    rewrite Hw. rewrite Hevs in *. simpl emitted.
    destruct Hr as [(Hb & Href & Hacc) | (Hb & -> & Href)].
    + assert (k = 1 \/ k = 2 \/ k = 3)%nat as [-> | [-> | ->]] by lia.
      * simpl in Hacc. rewrite app_nil_r in Hacc. congruence.
      * exists []. split; [reflexivity|]. intros Hf. congruence.
      * exists [markdown_event url alt']. split; reflexivity.
    + exists [markdown_event url alt']. split; reflexivity.
Qed.

(** The dispatcher on an image without a length. The number 5 is a
    non-empty image the resolver produces (from a mapping whose [url] is 5):
    on it the dispatcher tries no method and returns neither success nor
    failure, it raises. The call as a whole then returns a failure result,
    and the transport has been handed no image. *)
Example emit_image_raises_without_length :
  _emit_image (sample_host (Some accepting_emitter) (Ok VNone)) default_valves
    (VBool true) "a red cat" (VInt 5) 512 512 "imagen_generada_1" 1
    (initial_world None)
  = (Raise (Exc "TypeError" "object of type 'int' has no len()"),
     initial_world None)
  /\ fst (process_items
            (sample_host (Some accepting_emitter)
               (Ok (VList [VDict [("url", VInt 5)]])))
            default_valves [VDict [("url", VInt 5)]] [] (initial_world None))
     = Ok [VInt 5]
  /\ fst (generate_image
            (sample_host (Some accepting_emitter)
               (Ok (VList [VDict [("url", VInt 5)]])))
            default_valves "a red cat" 512 512 15 None None None VNone
            (initial_world None))
     = Ok (failure_result
             (sample_host (Some accepting_emitter)
                (Ok (VList [VDict [("url", VInt 5)]])))
             default_valves
             (Exc "TypeError" "object of type 'int' has no len()"))
  /\ filter is_delivery
       (emitted (snd (generate_image
                        (sample_host (Some accepting_emitter)
                           (Ok (VList [VDict [("url", VInt 5)]])))
                        default_valves "a red cat" 512 512 15 None None None
                        VNone (initial_world None))))
     = [].
Proof. repeat split. Qed.

(** ** The resolver on mappings (C3, C4) *)

Lemma b64_field_result v w :
  fst (b64_field v w) =
  match v with
  | VStr s => Ok (VStr (_make_data_uri_from_b64 s "image/png"))
  | _ => Raise (no_startswith v)
  end.
Proof. destruct v; reflexivity. Qed.

(** The loop over the fields yields what the first accepted field makes of
    its value, and [None] when no field is accepted. *)
Lemma scan_fields_result h valves fields it w :
  fst (scan_fields h valves fields it w) =
  match first_accepted fields it with
  | Some (field, v) => field_result h valves field v
  | None => Ok VNone
  end.
Proof.
  induction fields as [|field rest IH]; [reflexivity|].
  cbn [scan_fields first_accepted].
  destruct (Py.lookup field it) as [v|]; [|exact IH].
  unfold accepted.
  change ((field =? "url") || str_in field ["file_path"; "path"])
    with (is_path_field field).
  change (str_in field ["b64"; "base64"]) with (is_b64_field field).
  destruct (Py.truthy v); [|exact IH]. cbn [andb].
  destruct (is_path_field field) eqn:P; cbn [orb].
  { unfold field_result. rewrite P. apply local_path_or_url_result. }
  destruct (is_b64_field field) eqn:B; cbn [orb].
  { unfold field_result. rewrite P, B. apply b64_field_result. }
  replace (Py.is_str v && match v with
                          | VStr s => PyStr.startswith "data:" s
                                      || PyStr.startswith "http" s
                          | _ => false
                          end) with (looks_resolved v)
    by (destruct v; reflexivity).
  destruct (looks_resolved v); [|exact IH].
  unfold field_result. rewrite P, B. reflexivity.
Qed.

Lemma resolve_item_mapping h valves it w :
  fst (resolve_item h valves (VDict it) w) = resolve_mapping h valves it.
Proof.
  unfold resolve_item, resolve_mapping, bind at 1.
  pose proof (scan_fields_result h valves priority_fields it w) as H.
  destruct (scan_fields h valves priority_fields it w) as [[r|e] w1];
    cbn [fst] in H.
  - assert (fst ((if negb (Py.truthy r)
                  then s <- lift (Json.dumps (VDict it));; ret (VStr s)
                  else ret r) w1)
            = if Py.truthy r then Ok r else json_fallback it) as Hr.
    { unfold json_fallback, bind, lift, ret.
      destruct (Py.truthy r); cbn [negb]; [reflexivity|].
      destruct (Json.dumps (VDict it)); reflexivity. }
    rewrite Hr.
    destruct (first_accepted priority_fields it) as [[field v]|].
    + rewrite <- H. reflexivity.
    + inversion H; subst. reflexivity.
  - destruct (first_accepted priority_fields it) as [[field v]|].
    + rewrite <- H. reflexivity.
    + discriminate.
Qed.

Lemma first_accepted_some fields it field v :
  first_accepted fields it = Some (field, v) ->
  exists before after,
    fields = (before ++ field :: after)%list
    /\ Py.lookup field it = Some v
    /\ accepted field v = true
    /\ forall g u, In g before -> Py.lookup g it = Some u ->
                   accepted g u = false.
Proof.
  induction fields as [|f rest IH]; simpl; [discriminate|].
  destruct (Py.lookup f it) as [u|] eqn:L.
  - destruct (accepted f u) eqn:A.
    + intros H; inversion H; subst.
      exists [], rest. repeat split; try assumption. intros g u0 [].
    + intros H. destruct (IH H) as (before & after & -> & Hl & Ha & Hb).
      exists (f :: before), after. repeat split; try assumption.
      intros g u0 [<-|Hin] Hg; [congruence | eauto].
  - intros H. destruct (IH H) as (before & after & -> & Hl & Ha & Hb).
    exists (f :: before), after. repeat split; try assumption.
    intros g u0 [<-|Hin] Hg; [congruence | eauto].
Qed.

Lemma first_accepted_none fields it :
  first_accepted fields it = None ->
  forall g u, In g fields -> Py.lookup g it = Some u -> accepted g u = false.
Proof.
  induction fields as [|f rest IH]; simpl; [intros _ g u []|].
  destruct (Py.lookup f it) as [u|] eqn:L.
  - destruct (accepted f u) eqn:A; [discriminate|].
    intros H g u0 [<-|Hin] Hg; [congruence | eauto].
  - intros H g u0 [<-|Hin] Hg; [congruence | eauto].
Qed.

(** C3, as the code has it. The resolver scans a mapping's fields in the
    order url, b64, image, data, base64, file_path, path, src, image_url and
    takes the first field that is present with a non-empty value and is
    accepted: [url], [file_path], [path], [b64] and [base64] always are,
    while [image], [data], [src] and [image_url] are accepted only when their
    value is a string starting with [data:] or [http] (otherwise the scan
    moves on to the next field). The resolved image is what the taken field
    makes of its value; the resolver falls back to the JSON form of the whole
    mapping when no field is accepted, and also when the taken field yields
    an empty result (a local file that the materializer rejects). *)
Theorem resolve_mapping_scan : forall h valves it w,
  priority_fields
    = ["url"; "b64"; "image"; "data"; "base64"; "file_path"; "path"; "src";
       "image_url"]
  /\ fst (resolve_item h valves (VDict it) w)
     = match first_accepted priority_fields it with
       | Some (field, v) =>
           match field_result h valves field v with
           | Ok r => if Py.truthy r then Ok r else json_fallback it
           | Raise e => Raise e
           end
       | None => json_fallback it
       end
  /\ (forall field v,
        first_accepted priority_fields it = Some (field, v) ->
        exists before after,
          priority_fields = (before ++ field :: after)%list
          /\ Py.lookup field it = Some v
          /\ Py.truthy v = true
          /\ (is_path_field field = true \/ is_b64_field field = true
              \/ looks_resolved v = true)
          /\ forall g u, In g before -> Py.lookup g it = Some u ->
                         accepted g u = false)
  /\ (first_accepted priority_fields it = None ->
      forall g u, In g priority_fields -> Py.lookup g it = Some u ->
                  accepted g u = false).
Proof.
  intros h valves it w. split; [reflexivity|].
  split; [apply resolve_item_mapping|]. split.
  - intros field v H.
    destruct (first_accepted_some _ _ _ _ H)
      as (before & after & Hf & Hl & Ha & Hb).
    exists before, after. unfold accepted in Ha.
    apply andb_true_iff in Ha. destruct Ha as [Ht Hk].
    rewrite !orb_true_iff in Hk. repeat split; try assumption. tauto.
  - apply first_accepted_none.
Qed.

(** C3 as stated fails. In the first mapping the first field present
    with a non-empty value is [image], yet the resolved image comes from
    [path]; in the second a field is present with a non-empty value, yet the
    resolver falls back to the JSON form. *)
Lemma resolve_skips_unrecognised_value :
  first_present_nonempty priority_fields
    [("image", VStr "foo.png"); ("path", VStr "http://x/y.png")]
    = Some ("image", VStr "foo.png")
  /\ fst (resolve_item (sample_host None (Ok VNone)) default_valves
            (VDict [("image", VStr "foo.png"); ("path", VStr "http://x/y.png")])
            (initial_world None))
     = Ok (VStr "http://x/y.png")
  /\ first_present_nonempty priority_fields [("image", VStr "foo.png")]
     = Some ("image", VStr "foo.png")
  /\ fst (resolve_item (sample_host None (Ok VNone)) default_valves
            (VDict [("image", VStr "foo.png")]) (initial_world None))
     = Ok (VStr ("{" ++ PyStr.dq ++ "image" ++ PyStr.dq ++ ": "
                     ++ PyStr.dq ++ "foo.png" ++ PyStr.dq ++ "}")).
Proof. repeat split. Qed.

Lemma is_path_field_iff field :
  is_path_field field = true
  <-> field = "url" \/ field = "file_path" \/ field = "path".
Proof.
  unfold is_path_field, str_in. simpl.
  rewrite !orb_true_iff, !String.eqb_eq. intuition discriminate.
Qed.

(** C4, as the code has it. Take a mapping whose first accepted field is
    [url], [file_path] or [path]. When its value does not name an existing
    regular file (also when it is no string, or the file test raises), the
    value is passed through unchanged. When it names an existing regular
    file, the file goes through the materializer: a readable file that passes
    the size and extension checks resolves to the base64 data URI of its
    bytes, and a file the materializer rejects resolves to the JSON form of
    the mapping. *)
Theorem resolve_path_field : forall h valves it field v w,
  first_accepted priority_fields it = Some (field, v) ->
  field = "url" \/ field = "file_path" \/ field = "path" ->
  (names_regular_file h v = false ->
   fst (resolve_item h valves (VDict it) w) = Ok v)
  /\ (forall p size bytes,
        v = VStr p ->
        fs h p = Regular size true bytes ->
        too_large valves size = false ->
        extension_supported valves p = true ->
        fst (resolve_item h valves (VDict it) w)
          = Ok (VStr ("data:" ++ detected_mime p ++ ";base64,"
                              ++ Base64.b64encode bytes)))
  /\ (forall p size readable bytes,
        v = VStr p ->
        fs h p = Regular size readable bytes ->
        too_large valves size = true
        \/ extension_supported valves p = false
        \/ readable = false ->
        fst (resolve_item h valves (VDict it) w) = json_fallback it).
Proof.
  intros h valves it field v w Hfirst Hfield.
  apply is_path_field_iff in Hfield.
  assert (Py.truthy v = true) as Hv.
  { destruct (first_accepted_some _ _ _ _ Hfirst) as (? & ? & _ & _ & Ha & _).
    unfold accepted in Ha. apply andb_true_iff in Ha. tauto. }
  rewrite resolve_item_mapping. unfold resolve_mapping, field_result.
  rewrite Hfirst, Hfield. unfold resolved_path.
  split; [|split].
  - intros Hn. destruct v; try (rewrite Hv; reflexivity).
    rewrite Hn, Hv. reflexivity.
  - intros p size bytes -> E L X. unfold names_regular_file, materialize.
    rewrite E, L, X. reflexivity.
  - intros p size readable bytes -> E H. unfold names_regular_file, materialize.
    rewrite E.
    destruct H as [H|[H|H]]; rewrite H;
      try reflexivity; destruct readable; try reflexivity;
      rewrite orb_true_r; reflexivity.
Qed.

(** C4 at a mapping whose [url] names the PNG file [/tmp/cat.png]. *)
Lemma resolve_path_field_witness :
  first_accepted priority_fields [("url", VStr "/tmp/cat.png")]
    = Some ("url", VStr "/tmp/cat.png")
  /\ sample_fs "/tmp/cat.png" = Regular 3 true (list_byte_of_string "Man")
  /\ fst (resolve_item (sample_host None (Ok VNone)) default_valves
            (VDict [("url", VStr "/tmp/cat.png")]) (initial_world None))
     = Ok (VStr "data:image/png;base64,TWFu").
Proof.
  split; [reflexivity|]. split; [reflexivity|].
  exact (proj1 (proj2
    (resolve_path_field (sample_host None (Ok VNone)) default_valves
       [("url", VStr "/tmp/cat.png")] "url" (VStr "/tmp/cat.png")
       (initial_world None) eq_refl (or_introl eq_refl)))
    "/tmp/cat.png" 3%Z (list_byte_of_string "Man")
    eq_refl eq_refl eq_refl eq_refl).
Defined.

(** C4 as stated fails: [/tmp/notes.txt] is an existing regular file,
    but its extension is not supported, so the [url] field does not resolve
    to a data URI; the JSON form of the mapping is used. *)
Lemma resolve_path_field_rejected_file :
  first_accepted priority_fields [("url", VStr "/tmp/notes.txt")]
    = Some ("url", VStr "/tmp/notes.txt")
  /\ names_regular_file (sample_host None (Ok VNone)) (VStr "/tmp/notes.txt")
     = true
  /\ fst (resolve_item (sample_host None (Ok VNone)) default_valves
            (VDict [("url", VStr "/tmp/notes.txt")]) (initial_world None))
     = Ok (VStr ("{" ++ PyStr.dq ++ "url" ++ PyStr.dq ++ ": "
                     ++ PyStr.dq ++ "/tmp/notes.txt" ++ PyStr.dq ++ "}"))
  /\ PyStr.startswith "data:"
       ("{" ++ PyStr.dq ++ "url" ++ PyStr.dq ++ ": "
            ++ PyStr.dq ++ "/tmp/notes.txt" ++ PyStr.dq ++ "}") = false.
Proof. repeat split. Qed.

(** ** One invocation, step by step *)

Lemma emit_status_run h show_status description done w :
  exists w',
    _emit_status h show_status description done w = (Ok tt, w')
    /\ only_emits w w'.
Proof.
  pose proof (emit_status_never_raises h show_status description done w)
    as [[] H].
  pose proof (emit_status_only_emits h show_status description done w) as K.
  destruct (_emit_status h show_status description done w) as [r w'].
  simpl in *. subst r. exists w'. split; [reflexivity | exact K].
Qed.

Lemma emit_images_run h valves aat prompt width height images_out idx count w :
  exists w',
    only_emits w w'
    /\ match first_emission_error images_out with
       | None =>
           exists n,
             emit_images h valves aat prompt width height images_out idx count
               w
             = (Ok n, w')
             /\ (count <= n <= count + List.length images_out)%nat
       | Some e =>
           emit_images h valves aat prompt width height images_out idx count w
           = (Raise e, w')
       end.
Proof.
  pose proof (emit_images_only_emits h valves aat prompt width height
                images_out idx count w) as K.
  destruct (first_emission_error images_out) as [e|] eqn:F.
  - pose proof (emit_images_raises h valves aat prompt width height
                  images_out e F idx count w) as H.
    destruct (emit_images h valves aat prompt width height images_out idx
                count w) as [r w'].
    simpl in *. subst r. exists w'. auto.
  - pose proof (emit_images_never_raises h valves aat prompt width height
                  images_out F idx count w) as [n H].
    pose proof (emit_images_count h valves aat prompt width height
                  images_out idx count w n H) as C.
    destruct (emit_images h valves aat prompt width height images_out idx
                count w) as [r w'].
    simpl in *. subst r. exists w'. split; [exact K|]. exists n. auto.
Qed.

Lemma call_image_generations_run h form u w :
  call_image_generations h form u w =
  (fst (image_generations h (IMAGE_STEPS w) form u),
   {| IMAGE_STEPS := match IMAGE_STEPS w with
                     | Some _ =>
                         Some (snd (image_generations h (IMAGE_STEPS w) form u))
                     | None => None
                     end;
      emitted := emitted w;
      fs_trace := fs_trace w;
      gen_calls := gen_calls w ++
        [{| steps_seen := IMAGE_STEPS w; form_data := form; user_arg := u;
            gen_result := fst (image_generations h (IMAGE_STEPS w) form u) |}]
   |}).
Proof.
  unfold call_image_generations.
  destruct (image_generations h (IMAGE_STEPS w) form u). reflexivity.
Qed.

(** The [try] block either fails at the import, before the collaborator is
    reached, or calls the collaborator exactly once, with the setting as it
    stands; its result is then decided by the response. *)
Lemma generate_body_run h valves prompt width height steps wf sm seed user
    ss aat w :
  let payload := build_payload prompt width height steps wf sm seed in
  let run := generate_body h valves prompt width height steps wf sm seed user
               ss aat w in
  (images_module h = false
   /\ (exists e, fst run = Raise e) /\ snd run = w)
  \/ (images_module h = true
      /\ exists c,
           gen_calls (snd run) = (gen_calls w ++ [c])%list
           /\ steps_seen c = IMAGE_STEPS w
           /\ form_data c = payload
           /\ gen_result c
              = fst (image_generations h (IMAGE_STEPS w) payload
                       (get_user_obj h user))
           /\ (IMAGE_STEPS w = None <-> IMAGE_STEPS (snd run) = None)
           /\ match gen_result c with
              | Raise e => fst run = Raise e
              | Ok images =>
                  exists wp,
                    match fst (process_items h valves (raw_items_of images)
                                 [] wp) with
                    | Raise e => fst run = Raise e
                    | Ok images_out =>
                        match first_emission_error images_out with
                        | Some e => fst run = Raise e
                        | None =>
                            exists n,
                              (n <= List.length images_out)%nat
                              /\ fst run
                                 = Ok (success_result valves ss aat images
                                         images_out n)
                        end
                    end
              end).
Proof.
  intros payload run.
  assert (R : run = generate_body h valves prompt width height steps wf sm
                      seed user ss aat w) by reflexivity.
  clearbody run. unfold generate_body in R. fold payload in R.
  unfold import_images in R.
  destruct (images_module h) eqn:I; [right | left].
  2:{ subst run. split; [reflexivity|]. split; [eexists|]; reflexivity. }
  split; [reflexivity|].
  rewrite (bind_ok _ _ w tt w eq_refl) in R.
  destruct (emit_status_run h ss "Generando imagen..." false w)
    as (w1 & E1 & (S1 & G1 & _)).
  rewrite (bind_ok _ _ _ _ _ E1) in R.
  unfold bind at 1 in R. rewrite call_image_generations_run in R.
  rewrite S1, G1 in R.
  destruct (image_generations h (IMAGE_STEPS w) payload (get_user_obj h user))
    as [[images|e] left] eqn:A; cbn [fst snd] in R |- *.
  - fold (raw_items_of images) in R.
    match type of R with
    | run = _ ?w2 => set (wc := w2) in R
    end.
    pose proof (process_items_only_reads h valves (raw_items_of images) [] wc)
      as (P1 & P2 & _).
    destruct (process_items h valves (raw_items_of images) [] wc)
      as [[images_out|e] w3] eqn:P; cbn [snd] in P1, P2.
    + rewrite (bind_ok _ _ _ _ _ P) in R.
      destruct (emit_images_run h valves aat prompt width height images_out
                  0 0 w3) as (w4 & (S4 & G4 & _) & E4).
      destruct (first_emission_error images_out) as [ee|] eqn:FE.
      * rewrite (bind_raise _ _ _ _ _ E4) in R. subst run. cbn [fst snd].
        eexists. split; [rewrite G4, P2; reflexivity|].
        cbn [steps_seen form_data gen_result].
        repeat split; try reflexivity.
        -- rewrite S4, P1. subst wc. cbn [IMAGE_STEPS].
           destruct (IMAGE_STEPS w); [discriminate | reflexivity].
        -- rewrite S4, P1. subst wc. cbn [IMAGE_STEPS].
           destruct (IMAGE_STEPS w); [discriminate | reflexivity].
        -- exists wc. rewrite P. cbn [fst]. rewrite FE. reflexivity.
      * destruct E4 as (n & E4 & C4).
        rewrite (bind_ok _ _ _ _ _ E4) in R.
        match type of R with
        | context [_emit_status h ss ?msg true] =>
            destruct (emit_status_run h ss msg true w4)
              as (w5 & E5 & (S5 & G5 & _))
        end.
        rewrite (bind_ok _ _ _ _ _ E5) in R. unfold ret in R. subst run.
        cbn [fst snd].
        eexists. split; [rewrite G5, G4, P2; reflexivity|].
        cbn [steps_seen form_data gen_result].
        repeat split; try reflexivity.
        -- rewrite S5, S4, P1. subst wc. cbn [IMAGE_STEPS].
           destruct (IMAGE_STEPS w); [discriminate | reflexivity].
        -- rewrite S5, S4, P1. subst wc. cbn [IMAGE_STEPS].
           destruct (IMAGE_STEPS w); [discriminate | reflexivity].
        -- exists wc. rewrite P. cbn [fst]. rewrite FE.
           exists n. split; [lia | reflexivity].
    + rewrite (bind_raise _ _ _ _ _ P) in R. subst run. cbn [fst snd].
      eexists. split; [rewrite P2; reflexivity|].
      cbn [steps_seen form_data gen_result].
      repeat split; try reflexivity.
      * rewrite P1. subst wc. cbn [IMAGE_STEPS].
        destruct (IMAGE_STEPS w); [discriminate | reflexivity].
      * rewrite P1. subst wc. cbn [IMAGE_STEPS].
        destruct (IMAGE_STEPS w); [discriminate | reflexivity].
      * exists wc. rewrite P. reflexivity.
  - subst run. cbn [fst snd]. eexists. split; [reflexivity|].
    cbn [steps_seen form_data gen_result IMAGE_STEPS].
    repeat split; try reflexivity;
      destruct (IMAGE_STEPS w); (discriminate || reflexivity).
Qed.

Lemma override_steps_run steps w :
  override_steps steps w =
  match IMAGE_STEPS w with
  | Some original =>
      (Ok original,
       {| IMAGE_STEPS := Some (VInt steps); emitted := emitted w;
          fs_trace := fs_trace w; gen_calls := gen_calls w |})
  | None => (Ok VNone, w)
  end.
Proof.
  unfold override_steps, read_IMAGE_STEPS, write_IMAGE_STEPS.
  destruct (IMAGE_STEPS w) eqn:E; [|reflexivity].
  rewrite E. reflexivity.
Qed.

(** The [finally] block raises nothing, touches the setting only, and
    leaves [original] in it unless [original] is [None] or the setting
    cannot be written. *)
Lemma restore_steps_run original w :
  fst (restore_steps original w) = Ok tt
  /\ emitted (snd (restore_steps original w)) = emitted w
  /\ fs_trace (snd (restore_steps original w)) = fs_trace w
  /\ gen_calls (snd (restore_steps original w)) = gen_calls w
  /\ IMAGE_STEPS (snd (restore_steps original w))
     = match IMAGE_STEPS w with
       | Some current =>
           Some (match original with VNone => current | _ => original end)
       | None => None
       end.
Proof.
  unfold restore_steps, try_except, write_IMAGE_STEPS, ret.
  destruct original; destruct (IMAGE_STEPS w) eqn:E; simpl;
    rewrite ?E; repeat split; reflexivity.
Qed.

Lemma generate_failed_run h valves ss e w :
  exists w',
    generate_failed h valves ss e w = (Ok (failure_result h valves e), w')
    /\ only_emits w w'.
Proof.
  unfold generate_failed.
  match goal with
  | |- context [_emit_status h ss ?msg true] =>
      destruct (emit_status_run h ss msg true w) as (w' & E & F)
  end.
  exists w'. rewrite (bind_ok _ _ _ _ _ E). split; [reflexivity | exact F].
Qed.

(** Past the reading of the user valves, an invocation is: the first status,
    the override of the setting, the [try] block with its handler, and the
    restoring [finally]. *)
Lemma generate_image_run h valves prompt width height steps wf sm seed user
    uv w :
  get_user_valves user = Ok uv ->
  let ss := _get_valve uv ["SHOW_PROCESSING_STATUS"; "show_processing_status";
                           "showProcessingStatus"] (VBool true) in
  let aat := _get_valve uv ["AUTO_ALT_TEXT"; "auto_alt_text"; "autoAltText"]
               (VBool true) in
  let original := match IMAGE_STEPS w with Some v => v | None => VNone end in
  exists w1 wh,
    only_emits w w1
    /\ let body := generate_body h valves prompt width height steps wf sm seed
                     user ss aat (snd (override_steps steps w1)) in
       only_emits (snd body) wh
       /\ fst (generate_image h valves prompt width height steps wf sm seed
                 user w)
          = match fst body with
            | Ok r => Ok r
            | Raise e => Ok (failure_result h valves e)
            end
       /\ snd (generate_image h valves prompt width height steps wf sm seed
                 user w)
          = snd (restore_steps original wh).
Proof.
  intros U ss aat original.
  unfold generate_image, lift. rewrite (bind_ok _ _ w uv w); [|now rewrite U].
  fold ss aat.
  destruct (emit_status_run h ss "Inicializando generación de imagen..."
              false w) as (w1 & E1 & F1).
  rewrite (bind_ok _ _ _ _ _ E1).
  exists w1.
  assert (fst (override_steps steps w1) = Ok original) as O.
  { rewrite override_steps_run. subst original.
    destruct F1 as (S1 & _). rewrite S1.
    destruct (IMAGE_STEPS w); reflexivity. }
  destruct (override_steps steps w1) as [o w2] eqn:OV. cbn [fst snd] in *.
  subst o. rewrite (bind_ok _ _ _ _ _ OV).
  unfold try_finally, try_except.
  destruct (generate_body h valves prompt width height steps wf sm seed user
              ss aat w2) as [[r|e] wb].
  - exists wb. cbn [fst snd]. split; [exact F1|].
    split; [apply only_emits_refl|]. split; reflexivity.
  - destruct (generate_failed_run h valves ss e wb) as (wh & EH & FH).
    rewrite EH. exists wh. cbn [fst snd]. split; [exact F1|].
    split; [exact FH|]. split; reflexivity.
Qed.

(** ** The entry point (C1, C2, C9, C10) *)

(** Reading the user valves raises for a truthy [__user__] that is no
    container (a number, [True], an object without [__contains__]), and for
    a list or a string that holds ["valves"], which cannot be indexed by a
    string. It returns for [None], any falsy value and any mapping. *)
Lemma get_user_valves_ok user :
  Py.truthy user = false \/ (exists d, user = VDict d) ->
  exists uv, get_user_valves user = Ok uv.
Proof.
  unfold get_user_valves. intros [F | [d ->]].
  - rewrite F. eexists; reflexivity.
  - destruct (Py.truthy (VDict d)); [|eexists; reflexivity].
    unfold Py.contains, Py.getitem.
    destruct (Py.lookup "valves" d); eexists; reflexivity.
Qed.

(** X1. For a [__user__] that is falsy ([None] included) or a mapping, and
    whatever the host does (no transport, failing imports, a raising
    collaborator, unreadable files), the call never raises: it returns a
    dict with the keys of the success shape and [success = True], or with
    the keys of the failure shape and [success = False]. *)
Theorem generate_image_returns_result h valves prompt width height steps wf sm
    seed user w :
  Py.truthy user = false \/ (exists d, user = VDict d) ->
  exists r,
    fst (generate_image h valves prompt width height steps wf sm seed user w)
      = Ok r
    /\ ((result_keys r = success_keys
         /\ result_field "success" r = Some (VBool true))
        \/ (result_keys r = failure_keys
            /\ result_field "success" r = Some (VBool false))).
Proof.
  intros U. destruct (get_user_valves_ok user U) as [uv Huv].
  destruct (generate_image_run h valves prompt width height steps wf sm seed
              user uv w Huv) as (w1 & wh & _ & _ & Hfst & _).
  rewrite Hfst. clear Hfst.
  match goal with
  | |- context [generate_body h valves prompt width height steps wf sm seed
                  user ?ss ?aat ?w2] =>
      pose proof (generate_body_run h valves prompt width height steps wf sm
                    seed user ss aat w2) as B;
      destruct (generate_body h valves prompt width height steps wf sm seed
                  user ss aat w2) as [[r|e] wb]
  end; cbn [fst snd] in *.
  2:{ eexists. split; [reflexivity|]. right. split; reflexivity. }
  exists r. split; [reflexivity|].
  destruct B as [(_ & [e He] & _) | (_ & c & _ & _ & _ & _ & _ & Hc)];
    [discriminate|].
  destruct (gen_result c) as [images|e]; [|discriminate].
  destruct Hc as [wp Hp].
  destruct (fst (process_items h valves (raw_items_of images) [] wp))
    as [images_out|e]; [|discriminate].
  destruct (first_emission_error images_out); [discriminate|].
  destruct Hp as (n & _ & Hr). inversion Hr; subst.
  left. split; reflexivity.
Qed.

(** C1 at its failing input. With a truthy [__user__] that is no container
    (the number 1, or any plain object, whatever its attributes) the test
    ["valves" in __user__] on line 121 raises [TypeError] before any [try] is
    entered: the exception leaves [generate_image], whatever the host and the
    other arguments, and nothing has been done to the world. *)
Theorem generate_image_raises_for_non_container_user :
  forall h valves prompt width height steps wf sm seed w,
    generate_image h valves prompt width height steps wf sm seed (VInt 1) w
    = (Raise (Exc "TypeError" "argument of type 'int' is not iterable"), w)
    /\ forall cls text attrs,
         generate_image h valves prompt width height steps wf sm seed
           (VObj cls text attrs) w
         = (Raise (Exc "TypeError"
                     ("argument of type '" ++ cls ++ "' is not iterable")),
            w).
Proof. intros. split; reflexivity. Qed.

(** X1 at a host whose collaborator raises, with a transport that raises
    too. *)
Lemma generate_image_returns_result_witness :
  exists r,
    fst (generate_image
           (sample_host (Some failing_emitter)
              (Raise (Exc "RuntimeError" "backend down")))
           default_valves "a red cat" 512 512 15 None None None
           (VDict [("id", VStr "u1")]) (initial_world None))
      = Ok r
    /\ ((result_keys r = success_keys
         /\ result_field "success" r = Some (VBool true))
        \/ (result_keys r = failure_keys
            /\ result_field "success" r = Some (VBool false))).
Proof.
  apply (generate_image_returns_result
           (sample_host (Some failing_emitter)
              (Raise (Exc "RuntimeError" "backend down")))
           default_valves "a red cat" 512 512 15 None None None
           (VDict [("id", VStr "u1")]) (initial_world None)).
  right. exists [("id", VStr "u1")]. reflexivity.
Defined.

(** X2. When the setting can be read and does not hold [None], every exit
    of the call (a normal return, a failure caught inside, an exception that
    leaves the call) leaves in it the value it had before, whatever the
    collaborator did to it; and the collaborator, which is called at most
    once, finds the request's [steps] in it. *)
Theorem generate_image_restores_steps h valves prompt width height steps wf sm
    seed user w v :
  IMAGE_STEPS w = Some v ->
  v <> VNone ->
  let run := generate_image h valves prompt width height steps wf sm seed
               user w in
  IMAGE_STEPS (snd run) = Some v
  /\ (gen_calls (snd run) = gen_calls w
      \/ exists c, gen_calls (snd run) = (gen_calls w ++ [c])%list
                   /\ steps_seen c = Some (VInt steps)).
Proof.
  intros Hv Hnone run. subst run.
  destruct (get_user_valves user) as [uv|e] eqn:U.
  2:{ unfold generate_image, lift.
      rewrite (bind_raise _ _ w e w); [|now rewrite U].
      split; [exact Hv | left; reflexivity]. }
  destruct (generate_image_run h valves prompt width height steps wf sm seed
              user uv w U) as (w1 & wh & F1 & FH & _ & Hsnd).
  rewrite Hsnd, Hv. clear Hsnd.
  destruct F1 as (S1 & G1 & _). destruct FH as (SH & GH & _).
  rewrite override_steps_run, S1, Hv in SH, GH. cbn [snd] in SH, GH.
  match type of SH with
  | context [generate_body h valves prompt width height steps wf sm seed
               user ?ss ?aat ?w2] =>
      pose proof (generate_body_run h valves prompt width height steps wf sm
                    seed user ss aat w2) as B
  end.
  cbv zeta in B. cbn [IMAGE_STEPS gen_calls] in B.
  match type of SH with
  | IMAGE_STEPS wh = IMAGE_STEPS ?X => remember X as wb eqn:WB
  end.
  destruct (restore_steps_run v wh) as (_ & _ & _ & RG & RS).
  rewrite RS, RG, GH, SH. clear RS RG GH SH WB.
  assert (exists current, IMAGE_STEPS wb = Some current
                          /\ (gen_calls wb = gen_calls w
                              \/ exists c,
                                   gen_calls wb = (gen_calls w ++ [c])%list
                                   /\ steps_seen c = Some (VInt steps)))
    as (current & -> & Hcalls).
  { destruct B as [(_ & _ & ->) | (_ & c & Hg & Hs & _ & _ & Hn & _)].
    - eexists. split; [reflexivity|]. left. exact G1.
    - destruct (IMAGE_STEPS wb) as [current|] eqn:C.
      + exists current. split; [reflexivity|]. right. exists c.
        rewrite Hg, G1. split; [reflexivity | exact Hs].
      + pose proof (proj2 Hn eq_refl). discriminate. }
  split; [|exact Hcalls].
  destruct v; try reflexivity. contradiction.
Qed.

(** X2 at a setting that holds 50 and a collaborator that raises. *)
Lemma generate_image_restores_steps_witness :
  IMAGE_STEPS
    (snd (generate_image
            (sample_host None (Raise (Exc "RuntimeError" "backend down")))
            default_valves "a red cat" 512 512 15 None None None VNone
            (initial_world (Some (VInt 50)))))
  = Some (VInt 50).
Proof.
  refine (proj1
    (generate_image_restores_steps
       (sample_host None (Raise (Exc "RuntimeError" "backend down")))
       default_valves "a red cat" 512 512 15 None None None VNone
       (initial_world (Some (VInt 50))) (VInt 50) eq_refl _)).
  discriminate.
Defined.

(** C2 at its failing input. The setting holds [None] before the call (the
    read succeeds), the collaborator leaves the setting as it finds it, and
    the call returns normally; yet the setting ends up holding the request's
    [steps]: the [finally] block takes the saved [None] for "nothing was
    saved" and restores nothing. *)
Theorem generate_image_keeps_override_of_none :
  let run := generate_image (sample_host None (Ok VNone)) default_valves
               "a red cat" 512 512 15 None None None VNone
               (initial_world (Some VNone)) in
  result_field "success" (match fst run with Ok r => r | Raise _ => VNone end)
    = Some (VBool true)
  /\ map steps_seen (gen_calls (snd run)) = [Some (VInt 15)]
  /\ IMAGE_STEPS (snd run) = Some (VInt 15).
Proof. repeat split. Qed.

Lemma app_singleton_not_self {A} (l : list A) (x : A) : l <> (l ++ [x])%list.
Proof.
  intros H. apply (f_equal (@List.length A)) in H.
  rewrite length_app in H. simpl in H. lia.
Qed.

(** C9. Whenever the generation collaborator is called during an invocation
    and returns [None], [generate_image] returns a success result whose
    [images] is the empty list and whose [images_emitted] and
    [total_processed] are 0: no image is no error. *)
Theorem generate_image_none_response :
  forall h valves prompt width height steps wf sm seed user w c,
    gen_calls (snd (generate_image h valves prompt width height steps wf sm
                      seed user w))
      = (gen_calls w ++ [c])%list ->
    gen_result c = Ok VNone ->
    exists r,
      fst (generate_image h valves prompt width height steps wf sm seed user w)
        = Ok r
      /\ result_keys r = success_keys
      /\ result_field "success" r = Some (VBool true)
      /\ result_field "images" r = Some (VList [])
      /\ result_field "images_emitted" r = Some (VInt 0)
      /\ result_field "total_processed" r = Some (VInt 0).
Proof.
  intros h valves prompt width height steps wf sm seed user w c Hcalls Hnone.
  destruct (get_user_valves user) as [uv|e] eqn:U.
  2:{ exfalso. revert Hcalls. unfold generate_image, lift.
      rewrite (bind_raise _ _ w e w); [|now rewrite U].
      apply app_singleton_not_self. }
  destruct (generate_image_run h valves prompt width height steps wf sm seed
              user uv w U) as (w1 & wh & F1 & FH & Hfst & Hsnd).
  rewrite Hfst. rewrite Hsnd in Hcalls. clear Hfst Hsnd.
  destruct F1 as (S1 & G1 & _). destruct FH as (_ & GH & _).
  match type of GH with
  | context [generate_body h valves prompt width height steps wf sm seed
               user ?ss ?aat ?w2] =>
      pose proof (generate_body_run h valves prompt width height steps wf sm
                    seed user ss aat w2) as B;
      assert (gen_calls w2 = gen_calls w) as G2
        by (rewrite override_steps_run;
            destruct (IMAGE_STEPS w1); exact G1);
      destruct (generate_body h valves prompt width height steps wf sm seed
                  user ss aat w2) as [rb wb]
  end.
  cbv zeta in B. cbn [fst snd] in *.
  destruct (restore_steps_run
              match IMAGE_STEPS w with Some v => v | None => VNone end wh)
    as (_ & _ & _ & RG & _).
  rewrite RG, GH in Hcalls. clear RG GH.
  destruct B as [(_ & _ & ->) | (_ & c' & Hg & _ & _ & _ & _ & Hc)].
  - exfalso. rewrite G2 in Hcalls. revert Hcalls.
    apply app_singleton_not_self.
  - rewrite Hg, G2 in Hcalls. apply app_inj_tail in Hcalls.
    destruct Hcalls as [_ ->]. rewrite Hnone in Hc.
    destruct Hc as [wp Hp]. cbn in Hp.
    destruct Hp as (n & Hn & ->).
    assert (n = 0)%nat as -> by lia.
    eexists. split; [reflexivity|]. repeat split.
Qed.

(** C9 at a host whose collaborator answers [None], called with no user
    and no event transport. *)
Lemma generate_image_none_response_witness :
  exists r,
    fst (generate_image (sample_host None (Ok VNone)) default_valves
           "a red cat" 512 512 15 None None None VNone
           (initial_world (Some (VInt 50))))
      = Ok r
    /\ result_keys r = success_keys
    /\ result_field "success" r = Some (VBool true)
    /\ result_field "images" r = Some (VList [])
    /\ result_field "images_emitted" r = Some (VInt 0)
    /\ result_field "total_processed" r = Some (VInt 0).
Proof.
  apply (generate_image_none_response (sample_host None (Ok VNone))
           default_valves "a red cat" 512 512 15 None None None VNone
           (initial_world (Some (VInt 50)))
           {| steps_seen := Some (VInt 15);
              form_data := build_payload "a red cat" 512 512 15 None None None;
              user_arg := VNone;
              gen_result := Ok VNone |}).
  - reflexivity.
  - reflexivity.
Defined.














(** ** The scenarios of the specification, run on the model *)

(** A plain URL string is passed through unchanged, and the dispatcher hands
    that very URL to the transport. *)
Example scenario_plain_url :
  let run := generate_image
               (sample_host (Some accepting_emitter)
                  (Ok (VStr "https://example.com/x.png")))
               default_valves "a red cat" 512 512 15 None None None VNone
               (initial_world (Some (VInt 50))) in
  result_field "images" (match fst run with Ok r => r | Raise _ => VNone end)
    = Some (VList [VStr "https://example.com/x.png"])
  /\ In (direct_event (VStr "https://example.com/x.png") 512 512
           "imagen_generada_1")
        (emitted (snd run)).
Proof. split; [reflexivity|]. vm_compute. tauto. Qed.

(** When the collaborator raises, the call returns a failure result whose
    error starts with [Error interno:], and the overridden setting is back
    to its previous value. *)
Example scenario_collaborator_raises :
  let run := generate_image
               (sample_host None (Raise (Exc "RuntimeError" "backend down")))
               default_valves "a red cat" 512 512 15 None None None VNone
               (initial_world (Some (VInt 50))) in
  fst run
    = Ok (VDict [("success", VBool false);
                 ("error", VStr "Error interno: backend down");
                 ("internal_trace",
                  VStr "Activa DEBUG_ENABLED en Valves para detalles");
                 ("valves_config",
                  VDict [("debug", VBool false); ("verbose", VBool false)])])
  /\ map steps_seen (gen_calls (snd run)) = [Some (VInt 15)]
  /\ IMAGE_STEPS (snd run) = Some (VInt 50).
Proof. repeat split. Qed.

(** With priority [html] and a transport that refuses message events, the
    HTML event is tried first, then the direct one, which is accepted. *)
Example scenario_html_priority_falls_back :
  let valves := {| DEBUG_ENABLED := false; VERBOSE_LOGGING := false;
                   EMIT_METHOD_PRIORITY := Html; MAX_FILE_SIZE_MB := 10;
                   SUPPORTED_FORMATS := "png" |} in
  let url := VStr "https://example.com/x.png" in
  _emit_image (sample_host (Some image_only_emitter) (Ok VNone)) valves
    (VBool true) "a red cat" url 512 512 "" 1 (initial_world None)
  = (Ok true,
     after_events
       [html_event url 512 512 "Imagen generada: a red cat - #1";
        direct_event url 512 512 "Imagen generada: a red cat - #1"]
       (initial_world None)).
Proof. reflexivity. Qed.

(** RFC 4648 test vectors. *)
Example b64encode_vectors :
  map (fun s => Base64.b64encode (list_byte_of_string s))
      [""; "f"; "fo"; "foo"; "foob"; "fooba"; "foobar"]
  = [""; "Zg=="; "Zm8="; "Zm9v"; "Zm9vYg=="; "Zm9vYmE="; "Zm9vYmFy"].
Proof. reflexivity. Qed.

(* ================================================================== *)
(** * Further properties of the code *)

(** ** The resolver is a function of the response and the file system *)

Lemma resolve_item_value h valves it w :
  fst (resolve_item h valves it w) = resolve_value h valves it.
Proof.
  destruct it; try reflexivity.
  - change (resolve_item h valves (VStr s) w)
      with (local_path_or_url h valves (VStr s) w).
    apply local_path_or_url_result.
  - apply resolve_item_mapping.
Qed.

Lemma process_items_resolve_all h valves items :
  forall acc w,
    fst (process_items h valves items acc w)
    = match resolve_all h valves items with
      | Ok l => Ok (acc ++ l)%list
      | Raise e => Raise e
      end.
Proof.
  induction items as [|it rest IH]; intros acc w; cbn [process_items resolve_all].
  - unfold ret. cbn [fst]. rewrite app_nil_r. reflexivity.
  - unfold bind at 1.
    pose proof (resolve_item_value h valves it w) as H.
    destruct (resolve_item h valves it w) as [[v|e] w1]; cbn [fst] in H;
      rewrite <- H; [|reflexivity].
    rewrite IH.
    destruct (resolve_all h valves rest) as [l|e]; [|reflexivity].
    destruct (Py.truthy v); [|reflexivity].
    rewrite <- app_assoc. reflexivity.
Qed.


(** ** What is handed to the transport *)

Lemma emit_status_exact h show_status description done w :
  _emit_status h show_status description done w
  = (Ok tt, after_events (status_events h show_status description done) w).
Proof.
  unfold _emit_status, status_events, status_event.
  destruct (Py.truthy show_status); cbn [negb].
  - unfold try_except. destruct (event_emitter h) as [f|].
    + unfold call_emitter, ret, after_events.
      destruct (f (emitted w) _) as [[]|e]; reflexivity.
    + unfold ret. rewrite after_events_nil. reflexivity.
  - unfold ret. rewrite after_events_nil. reflexivity.
Qed.

Lemma delivery_event_is_delivery url w hh alt m :
  is_delivery (delivery_event url w hh alt m) = true.
Proof. destruct m; reflexivity. Qed.

Lemma Forall_firstn {A} (P : A -> Prop) (l : list A) n :
  Forall P l -> Forall P (firstn n l).
Proof.
  intros H. revert n. induction H as [|x l Hx _ IH]; intros [|n]; simpl;
    constructor; auto.
Qed.

(** One image: the events handed over are delivery events. *)
Lemma emit_image_events h valves aat prompt url w hh alt index wd :
  exists evs,
    Forall (fun ev => is_delivery ev = true) evs
    /\ match emission_error url with
       | None =>
           exists b,
             _emit_image h valves aat prompt url w hh alt index wd
             = (Ok b, after_events evs wd)
       | Some e =>
           _emit_image h valves aat prompt url w hh alt index wd
           = (Raise e, after_events evs wd)
       end.
Proof.
  destruct (emission_error url) as [e|] eqn:N.
  { exists []. split; [constructor|]. rewrite after_events_nil.
    now apply emit_image_raises. }
  destruct (Py.truthy url) eqn:T.
  2:{ exists []. split; [constructor|]. exists false.
      rewrite after_events_nil. now apply emit_image_empty. }
  destruct (event_emitter h) as [f|] eqn:E.
  - destruct (emit_image_methods h f valves aat prompt url w hh alt index wd
                T N E) as (methods & Hrun & Hall).
    destruct (try_methods_attempts f methods _ Hall wd) as (k & _ & Hw & Hr).
    rewrite Hrun.
    destruct (try_methods methods wd) as [r w'] eqn:R. cbn [fst snd] in *.
    subst w'.
    assert (exists b, r = Ok b) as [b ->].
    { destruct Hr as [(-> & _) | (-> & _)]; eexists; reflexivity. }
    eexists. split; [|exists b; reflexivity].
    apply Forall_firstn. apply Forall_forall. intros ev Hin.
    apply in_map_iff in Hin. destruct Hin as (m & <- & _).
    apply delivery_event_is_delivery.
  - exists []. split; [constructor|]. exists false.
    rewrite after_events_nil.
    rewrite (emit_image_dispatches _ _ _ _ _ _ _ _ _ _ T N).
    now apply methods_without_transport.
Qed.

(** The emission loop: delivery events only; it ends with a count within
    bounds, or with the exception of the first image without a length. *)
Lemma emit_images_events h valves aat prompt width height images_out :
  forall idx count w,
  exists evs,
    Forall (fun ev => is_delivery ev = true) evs
    /\ match first_emission_error images_out with
       | None =>
           exists n,
             emit_images h valves aat prompt width height images_out idx count
               w
             = (Ok n, after_events evs w)
             /\ (count <= n <= count + List.length images_out)%nat
       | Some e =>
           emit_images h valves aat prompt width height images_out idx count w
           = (Raise e, after_events evs w)
       end.
Proof.
  induction images_out as [|url rest IH]; intros idx count w;
    cbn [emit_images first_emission_error].
  - exists []. split; [constructor|]. exists count.
    rewrite after_events_nil. split; [reflexivity | simpl; lia].
  - destruct (emit_image_events h valves aat prompt url width height
                ("imagen_generada_" ++ PyStr.of_nat (idx + 1)) (idx + 1) w)
      as (evs1 & F1 & E1).
    destruct (emission_error url) as [e|].
    { exists evs1. split; [exact F1|]. now apply bind_raise. }
    destruct E1 as (b & E1).
    rewrite (bind_ok _ _ _ _ _ E1).
    destruct (IH (S idx) (if b then count + 1 else count)%nat
                (after_events evs1 w)) as (evs2 & F2 & E2).
    exists (evs1 ++ evs2)%list. split; [apply Forall_app; auto|].
    rewrite <- after_events_after_events.
    destruct (first_emission_error rest) as [e|]; [exact E2|].
    destruct E2 as (n & E2 & C2). exists n. split; [exact E2|].
    simpl. destruct b; lia.
Qed.

(** The [try] block, with what it hands to the transport. *)
Lemma generate_body_trace h valves prompt width height steps wf sm seed user
    ss aat w :
  let payload := build_payload prompt width height steps wf sm seed in
  let run := generate_body h valves prompt width height steps wf sm seed user
               ss aat w in
  let answer := image_generations h (IMAGE_STEPS w) payload
                  (get_user_obj h user) in
  let generating := status_events h ss "Generando imagen..." false in
  (images_module h = false /\ run = (Raise import_error, w))
  \/ (images_module h = true
      /\ gen_calls (snd run)
         = (gen_calls w ++
              [{| steps_seen := IMAGE_STEPS w; form_data := payload;
                  user_arg := get_user_obj h user;
                  gen_result := fst answer |}])%list
      /\ (IMAGE_STEPS w = None <-> IMAGE_STEPS (snd run) = None)
      /\ match fst answer with
         | Raise e =>
             fst run = Raise e
             /\ emitted (snd run) = (emitted w ++ generating)%list
             /\ fs_trace (snd run) = fs_trace w
         | Ok images =>
             match resolve_all h valves (raw_items_of images) with
             | Raise e =>
                 fst run = Raise e
                 /\ emitted (snd run) = (emitted w ++ generating)%list
             | Ok l =>
                 exists evs wl,
                   Forall (fun ev => is_delivery ev = true) evs
                   /\ match first_emission_error l with
                      | None =>
                          exists n,
                            fst run
                              = Ok (success_result valves ss aat images l n)
                            /\ emitted (snd run)
                               = (emitted w ++ generating ++ evs
                                    ++ status_events h ss
                                         (final_description n
                                            (List.length l)) true)%list
                            /\ emit_images h valves aat prompt width height l
                                 0 0 wl
                               = (Ok n, after_events evs wl)
                      | Some e =>
                          fst run = Raise e
                          /\ emitted (snd run)
                             = (emitted w ++ generating ++ evs)%list
                          /\ emit_images h valves aat prompt width height l
                               0 0 wl
                             = (Raise e, after_events evs wl)
                      end
             end
         end).
Proof.
  intros payload run answer generating.
  assert (R : run = generate_body h valves prompt width height steps wf sm
                      seed user ss aat w) by reflexivity.
  clearbody run. unfold generate_body in R. fold payload in R.
  unfold import_images in R.
  destruct (images_module h) eqn:I; [right | left].
  2:{ subst run. split; reflexivity. }
  split; [reflexivity|].
  rewrite (bind_ok _ _ w tt w eq_refl) in R.
  rewrite (bind_ok _ _ _ _ _
             (emit_status_exact h ss "Generando imagen..." false w)) in R.
  fold generating in R.
  unfold bind at 1 in R. rewrite call_image_generations_run in R.
  cbn [IMAGE_STEPS emitted fs_trace gen_calls after_events] in R.
  fold answer in R.
  destruct answer as [[images|e] left]; cbn [fst snd] in R |- *.
  2:{ subst run. cbn [fst snd gen_calls emitted fs_trace IMAGE_STEPS].
      repeat split; try reflexivity;
        destruct (IMAGE_STEPS w); (discriminate || reflexivity). }
  fold (raw_items_of images) in R.
  match type of R with
  | run = _ ?w2 => set (wc := w2) in R
  end.
  pose proof (process_items_only_reads h valves (raw_items_of images) [] wc)
    as (P1 & P2 & P3 & _).
  pose proof (process_items_resolve_all h valves (raw_items_of images) [] wc)
    as PR.
  destruct (process_items h valves (raw_items_of images) [] wc)
    as [[images_out|e] w3] eqn:P; cbn [fst snd] in P1, P2, P3, PR.
  - rewrite (bind_ok _ _ _ _ _ P) in R.
    destruct (resolve_all h valves (raw_items_of images)) as [l|e];
      [|discriminate].
    cbn [app] in PR. assert (images_out = l) as -> by congruence. clear PR.
    destruct (emit_images_events h valves aat prompt width height l 0 0 w3)
      as (evs & F4 & E4).
    assert (HS : IMAGE_STEPS w = None <-> IMAGE_STEPS w3 = None).
    { rewrite P1. subst wc. cbn [IMAGE_STEPS].
      destruct (IMAGE_STEPS w); split; (discriminate || reflexivity). }
    destruct (first_emission_error l) as [e|].
    + rewrite (bind_raise _ _ _ _ _ E4) in R. subst run.
      cbn [fst snd gen_calls emitted IMAGE_STEPS after_events].
      split; [rewrite P2; reflexivity|]. split; [exact HS|].
      exists evs, w3. split; [exact F4|].
      split; [reflexivity|]. split; [|exact E4].
      rewrite P3. subst wc. cbn [emitted].
      rewrite <- !app_assoc. reflexivity.
    + destruct E4 as (n & E4 & C4).
      rewrite (bind_ok _ _ _ _ _ E4) in R.
      match type of R with
      | context [_emit_status h ss ?msg true] =>
          rewrite (bind_ok _ _ _ _ _ (emit_status_exact h ss msg true
                                        (after_events evs w3))) in R
      end.
      unfold ret in R. subst run.
      cbn [fst snd gen_calls emitted IMAGE_STEPS after_events].
      split; [rewrite P2; reflexivity|]. split; [exact HS|].
      exists evs, w3. split; [exact F4|]. exists n.
      split; [reflexivity|]. split; [|exact E4].
      rewrite P3. subst wc. cbn [emitted].
      unfold final_description. rewrite <- !app_assoc. reflexivity.
  - rewrite (bind_raise _ _ _ _ _ P) in R. subst run.
    cbn [fst snd].
    split; [rewrite P2; reflexivity|]. split.
    { rewrite P1. subst wc. cbn [IMAGE_STEPS].
      destruct (IMAGE_STEPS w); split; (discriminate || reflexivity). }
    destruct (resolve_all h valves (raw_items_of images)) as [l|e'];
      [discriminate|].
    split; [congruence|]. rewrite P3. reflexivity.
Qed.

Lemma generate_failed_exact h valves ss e w :
  generate_failed h valves ss e w
  = (Ok (failure_result h valves e),
     after_events (status_events h ss (error_description e) true) w).
Proof.
  unfold generate_failed.
  rewrite (bind_ok _ _ _ _ _ (emit_status_exact h ss _ true w)).
  reflexivity.
Qed.

(** One invocation that gets past the reading of the user valves: its
    result, the collaborator call it makes and the events it hands to the
    transport, by what the host does. *)
Lemma generate_image_trace h valves prompt width height steps wf sm seed user
    uv w :
  get_user_valves user = Ok uv ->
  let ss := user_show_status uv in
  let aat := user_auto_alt uv in
  let run := generate_image h valves prompt width height steps wf sm seed
               user w in
  let c := the_call h prompt width height steps wf sm seed user w in
  let starting :=
    status_events h ss "Inicializando generación de imagen..." false in
  let generating := status_events h ss "Generando imagen..." false in
  let failed e := status_events h ss (error_description e) true in
  (images_module h = false
   /\ fst run = Ok (failure_result h valves import_error)
   /\ gen_calls (snd run) = gen_calls w
   /\ fs_trace (snd run) = fs_trace w
   /\ emitted (snd run) = (emitted w ++ starting ++ failed import_error)%list)
  \/ (images_module h = true
      /\ gen_calls (snd run) = (gen_calls w ++ [c])%list
      /\ match gen_result c with
         | Raise e =>
             fst run = Ok (failure_result h valves e)
             /\ emitted (snd run)
                = (emitted w ++ starting ++ generating ++ failed e)%list
             /\ fs_trace (snd run) = fs_trace w
         | Ok images =>
             match resolve_all h valves (raw_items_of images) with
             | Raise e =>
                 fst run = Ok (failure_result h valves e)
                 /\ emitted (snd run)
                    = (emitted w ++ starting ++ generating ++ failed e)%list
             | Ok l =>
                 exists evs wl,
                   Forall (fun ev => is_delivery ev = true) evs
                   /\ match first_emission_error l with
                      | None =>
                          exists n,
                            fst run
                              = Ok (success_result valves ss aat images l n)
                            /\ emitted (snd run)
                               = (emitted w ++ starting ++ generating ++ evs
                                    ++ status_events h ss
                                         (final_description n
                                            (List.length l)) true)%list
                            /\ emit_images h valves aat prompt width height l
                                 0 0 wl
                               = (Ok n, after_events evs wl)
                      | Some e =>
                          fst run = Ok (failure_result h valves e)
                          /\ emitted (snd run)
                             = (emitted w ++ starting ++ generating ++ evs
                                  ++ failed e)%list
                          /\ emit_images h valves aat prompt width height l
                               0 0 wl
                             = (Raise e, after_events evs wl)
                      end
             end
         end).
Proof.
  intros U ss aat run c starting generating failed.
  assert (R : run = generate_image h valves prompt width height steps wf sm
                      seed user w) by reflexivity.
  clearbody run. unfold generate_image, lift in R.
  rewrite (bind_ok _ _ w uv w) in R; [|now rewrite U].
  fold (user_show_status uv) in R. fold (user_auto_alt uv) in R.
  fold ss aat in R.
  rewrite (bind_ok _ _ _ _ _ (emit_status_exact h ss _ false w)) in R.
  fold starting in R.
  set (w1 := after_events starting w) in R.
  set (w2 := snd (override_steps steps w1)).
  assert (exists original, override_steps steps w1 = (Ok original, w2))
    as [original O].
  { subst w2. rewrite override_steps_run.
    destruct (IMAGE_STEPS w1); eexists; reflexivity. }
  assert (IMAGE_STEPS w2 = overridden steps w
          /\ emitted w2 = (emitted w ++ starting)%list
          /\ gen_calls w2 = gen_calls w /\ fs_trace w2 = fs_trace w)
    as (S2 & E2 & G2 & T2).
  { subst w2. rewrite override_steps_run. subst w1. unfold overridden.
    cbn [IMAGE_STEPS after_events].
    destruct (IMAGE_STEPS w) eqn:Ew;
      cbn [snd IMAGE_STEPS emitted gen_calls fs_trace after_events];
      rewrite ?Ew; repeat split. }
  rewrite (bind_ok _ _ _ _ _ O) in R. clearbody w2. clear O w1.
  unfold try_finally, try_except in R.
  pose proof (generate_body_trace h valves prompt width height steps wf sm
                seed user ss aat w2) as B.
  cbv zeta in B. fold generating in B. rewrite S2, G2, E2 in B.
  destruct (generate_body h valves prompt width height steps wf sm seed user
              ss aat w2) as [rb wb].
  cbn [fst snd] in B.
  destruct B as [(I & HB) | (I & HG & _ & HB)]; [left | right];
    (split; [exact I|]).
  - inversion HB; subst rb wb. rewrite generate_failed_exact in R.
    subst run. cbn [fst snd].
    destruct (restore_steps_run original
                (after_events (status_events h ss
                                 (error_description import_error) true) w2))
      as (_ & RE & RT & RG & _).
    rewrite RE, RT, RG. cbn [emitted fs_trace gen_calls after_events].
    rewrite E2, G2, T2, <- app_assoc. repeat split.
  - fold c in HG.
    change (fst (image_generations h (overridden steps w)
                   (build_payload prompt width height steps wf sm seed)
                   (get_user_obj h user)))
      with (gen_result c) in HB.
    destruct (gen_result c) as [images|e].
    + destruct (resolve_all h valves (raw_items_of images)) as [l|e].
      * destruct HB as (evs & wl & Hf & HB).
        destruct (first_emission_error l) as [e|].
        -- destruct HB as (Hr & He & Hl). subst rb.
           rewrite generate_failed_exact in R. subst run. cbn [fst snd].
           destruct (restore_steps_run original
                       (after_events (status_events h ss (error_description e)
                                        true) wb)) as (_ & RE & _ & RG & _).
           rewrite RE, RG. cbn [emitted gen_calls after_events].
           rewrite HG, He, <- !app_assoc. split; [reflexivity|].
           exists evs, wl. auto.
        -- destruct HB as (n & Hr & He & Hl). subst rb.
           subst run. cbn [fst snd].
           destruct (restore_steps_run original wb) as (_ & RE & _ & RG & _).
           rewrite RE, RG, HG. split; [reflexivity|].
           exists evs, wl. split; [exact Hf|]. exists n.
           rewrite He, <- !app_assoc. auto.
      * destruct HB as (Hr & He). subst rb.
        rewrite generate_failed_exact in R. subst run. cbn [fst snd].
        destruct (restore_steps_run original
                    (after_events (status_events h ss (error_description e)
                                     true) wb)) as (_ & RE & _ & RG & _).
        rewrite RE, RG. cbn [emitted gen_calls after_events].
        rewrite HG, He, <- !app_assoc. repeat split.
    + destruct HB as (Hr & He & Ht). subst rb.
      rewrite generate_failed_exact in R. subst run. cbn [fst snd].
      destruct (restore_steps_run original
                  (after_events (status_events h ss (error_description e)
                                   true) wb)) as (_ & RE & RT & RG & _).
      rewrite RE, RT, RG. cbn [emitted fs_trace gen_calls after_events].
      rewrite HG, He, Ht, T2, <- !app_assoc. repeat split.
Qed.

Lemma generate_image_probe_raises h valves prompt width height steps wf sm
    seed user w e :
  get_user_valves user = Raise e ->
  generate_image h valves prompt width height steps wf sm seed user w
  = (Raise e, w).
Proof.
  intros U. unfold generate_image, lift.
  apply bind_raise. rewrite U. reflexivity.
Qed.

Lemma status_events_are_statuses h ss description done :
  Forall (fun ev => event_type ev = "status")
         (status_events h ss description done).
Proof.
  unfold status_events.
  destruct (Py.truthy ss); [|constructor].
  destruct (event_emitter h); repeat constructor.
Qed.

Lemma delivery_is_no_status ev :
  is_delivery ev = true -> event_type ev <> "status".
Proof.
  unfold is_delivery. intros H E. rewrite E in H. discriminate.
Qed.

Lemma delivery_is_not_done ev :
  is_delivery ev = true -> is_done_status ev = false.
Proof.
  intros H. unfold is_done_status.
  destruct (event_type ev =? "status") eqn:E; [|reflexivity].
  apply String.eqb_eq in E. now apply delivery_is_no_status in H.
Qed.





(** X4. With a transport and statuses wanted, every call that gets past the
    reading of the user valves brackets its work: the first event it hands
    over is the status [Inicializando generación de imagen...] with
    [done = False], the last one is a status with [done = True], and no
    event in between is a status with [done = True]. This holds on the
    success path and on every failure path alike, and whether or not the
    transport raises. *)
Theorem statuses_bracket_the_call :
  forall h valves prompt width height steps wf sm seed user w uv f,
    get_user_valves user = Ok uv ->
    Py.truthy (user_show_status uv) = true ->
    event_emitter h = Some f ->
    exists between last_description,
      emitted (snd (generate_image h valves prompt width height steps wf sm
                      seed user w))
        = (emitted w
             ++ status_event "Inicializando generación de imagen..." false
             :: between ++ [status_event last_description true])%list
      /\ Forall (fun ev => is_done_status ev = false) between.
Proof.
  intros h valves prompt width height steps wf sm seed user w uv f U S E.
  pose proof (generate_image_trace h valves prompt width height steps wf sm
                seed user uv w U) as T.
  cbv zeta in T. unfold status_events in T. rewrite S, E in T.
  destruct T as [(_ & _ & _ & _ & He) | (_ & _ & T)].
  - exists [], (error_description import_error).
    split; [exact He | constructor].
  - destruct (gen_result _) as [images|e].
    + destruct (resolve_all h valves (raw_items_of images)) as [l|e].
      * destruct T as (evs & wl & Hf & T).
        assert (Forall (fun ev => is_done_status ev = false)
                       (status_event "Generando imagen..." false :: evs)).
        { constructor; [reflexivity|].
          eapply Forall_impl; [|exact Hf].
          intros ev. apply delivery_is_not_done. }
        destruct (first_emission_error l) as [e|].
        -- destruct T as (_ & He & _).
           exists (status_event "Generando imagen..." false :: evs),
                  (error_description e).
           split; [rewrite He; cbn [app]; reflexivity | assumption].
        -- destruct T as (n & _ & He & _).
           exists (status_event "Generando imagen..." false :: evs),
                  (final_description n (List.length l)).
           split; [rewrite He; cbn [app]; reflexivity | assumption].
      * destruct T as (_ & He).
        exists [status_event "Generando imagen..." false],
               (error_description e).
        split; [exact He | repeat constructor].
    + destruct T as (_ & He & _).
      exists [status_event "Generando imagen..." false],
             (error_description e).
      split; [exact He | repeat constructor].
Qed.

(** X4 at a host whose transport raises on every event and whose
    collaborator raises too. *)
Lemma statuses_bracket_the_call_witness :
  exists between last_description,
    emitted (snd (generate_image
                    (sample_host (Some failing_emitter)
                       (Raise (Exc "RuntimeError" "backend down")))
                    default_valves "a red cat" 512 512 15 None None None
                    VNone (initial_world None)))
      = ([] ++ status_event "Inicializando generación de imagen..." false
            :: between ++ [status_event last_description true])%list
    /\ Forall (fun ev => is_done_status ev = false) between.
Proof.
  apply (statuses_bracket_the_call
           (sample_host (Some failing_emitter)
              (Raise (Exc "RuntimeError" "backend down")))
           default_valves "a red cat" 512 512 15 None None None VNone
           (initial_world None) VNone failing_emitter);
    reflexivity.
Defined.

Lemma generate_image_the_call h valves prompt width height steps wf sm seed
    user w c :
  gen_calls (snd (generate_image h valves prompt width height steps wf sm seed
                    user w))
    = (gen_calls w ++ [c])%list ->
  exists uv,
    get_user_valves user = Ok uv
    /\ images_module h = true
    /\ c = the_call h prompt width height steps wf sm seed user w.
Proof.
  intros Hc.
  destruct (get_user_valves user) as [uv|e] eqn:U.
  2:{ rewrite (generate_image_probe_raises _ _ _ _ _ _ _ _ _ _ _ _ U) in Hc.
      cbn [snd] in Hc. apply (f_equal (@List.length _)) in Hc.
      rewrite length_app in Hc. cbn in Hc. lia. }
  exists uv. split; [reflexivity|].
  pose proof (generate_image_trace h valves prompt width height steps wf sm
                seed user uv w U) as T.
  cbv zeta in T.
  destruct T as [(_ & _ & Hg & _) | (Hm & Hg & _)].
  - rewrite Hg in Hc. apply (f_equal (@List.length _)) in Hc.
    rewrite length_app in Hc. cbn in Hc. lia.
  - split; [exact Hm|]. rewrite Hg in Hc.
    apply app_inj_tail in Hc. symmetry. apply Hc.
Qed.

(** X5. When the user valve [SHOW_PROCESSING_STATUS] is falsy, no status
    event is handed to the transport at any point of the call, not even on
    the failure paths: everything that is handed over is an image delivery
    (an [image] or a [message] event). *)
Theorem no_status_when_switched_off :
  forall h valves prompt width height steps wf sm seed user w uv,
    get_user_valves user = Ok uv ->
    Py.truthy (user_show_status uv) = false ->
    exists evs,
      emitted (snd (generate_image h valves prompt width height steps wf sm
                      seed user w))
        = (emitted w ++ evs)%list
      /\ Forall (fun ev => is_delivery ev = true) evs.
Proof.
  intros h valves prompt width height steps wf sm seed user w uv U S.
  pose proof (generate_image_trace h valves prompt width height steps wf sm
                seed user uv w U) as T.
  cbv zeta in T. unfold status_events in T. rewrite S in T.
  cbn [app] in T.
  destruct T as [(_ & _ & _ & _ & He) | (_ & _ & T)].
  - exists []. split; [exact He | constructor].
  - destruct (gen_result _) as [images|e].
    + destruct (resolve_all h valves (raw_items_of images)) as [l|e].
      * destruct T as (evs & wl & Hf & T).
        exists evs. split; [|exact Hf].
        destruct (first_emission_error l) as [e|].
        -- destruct T as (_ & He & _). rewrite He. now rewrite app_nil_r.
        -- destruct T as (n & _ & He & _). rewrite He.
           now rewrite app_nil_r.
      * destruct T as (_ & He). exists []. split; [exact He | constructor].
    + destruct T as (_ & He & _). exists []. split; [exact He | constructor].
Qed.

(** X5 for a user whose valves are a dict with the snake-case key. *)
Lemma no_status_when_switched_off_witness :
  exists evs,
    emitted (snd (generate_image
                    (sample_host (Some accepting_emitter)
                       (Ok (VList [VStr "https://example.com/x.png"])))
                    default_valves "a red cat" 512 512 15 None None None
                    (VDict [("valves",
                             VDict [("show_processing_status", VBool false)])])
                    (initial_world None)))
      = ([] ++ evs)%list
    /\ Forall (fun ev => is_delivery ev = true) evs.
Proof.
  apply (no_status_when_switched_off
           (sample_host (Some accepting_emitter)
              (Ok (VList [VStr "https://example.com/x.png"])))
           default_valves "a red cat" 512 512 15 None None None
           (VDict [("valves",
                    VDict [("show_processing_status", VBool false)])])
           (initial_world None)
           (VDict [("show_processing_status", VBool false)]));
    reflexivity.
Defined.

(** Past the reading of the user valves, the result of a call is the
    result of the [try] block, or the failure result of the exception that
    the block raised. *)
Lemma generate_image_by_body h valves prompt width height steps wf sm seed
    user uv w :
  get_user_valves user = Ok uv ->
  let w2 :=
    snd (override_steps steps
           (snd (_emit_status h (user_show_status uv)
                   "Inicializando generación de imagen..." false w))) in
  let body :=
    generate_body h valves prompt width height steps wf sm seed user
      (user_show_status uv) (user_auto_alt uv) w2 in
  fst (generate_image h valves prompt width height steps wf sm seed user w)
  = match fst body with
    | Ok r => Ok r
    | Raise e => Ok (failure_result h valves e)
    end
  /\ gen_calls (snd (generate_image h valves prompt width height steps wf sm
                       seed user w))
     = gen_calls (snd body)
  /\ gen_calls w2 = gen_calls w.
Proof.
  intros U w2 body.
  unfold generate_image, lift. rewrite (bind_ok _ _ w uv w); [|now rewrite U].
  fold (user_show_status uv). fold (user_auto_alt uv).
  assert (E1 : _emit_status h (user_show_status uv)
                 "Inicializando generación de imagen..." false w
               = (Ok tt,
                  snd (_emit_status h (user_show_status uv)
                         "Inicializando generación de imagen..." false w)))
    by (rewrite emit_status_exact; reflexivity).
  rewrite (bind_ok _ _ _ _ _ E1).
  assert (G2 : gen_calls w2 = gen_calls w).
  { subst w2. rewrite override_steps_run, emit_status_exact. cbn [snd].
    destruct (IMAGE_STEPS _); reflexivity. }
  assert (exists original,
            override_steps steps
              (snd (_emit_status h (user_show_status uv)
                      "Inicializando generación de imagen..." false w))
            = (Ok original, w2)) as [original O].
  { subst w2. rewrite override_steps_run.
    destruct (IMAGE_STEPS _); eexists; reflexivity. }
  rewrite (bind_ok _ _ _ _ _ O). unfold try_finally, try_except.
  fold body. destruct body as [[r|e] wb]; cbn [fst snd].
  - destruct (restore_steps_run original wb) as (_ & _ & _ & RG & _).
    rewrite RG. auto.
  - rewrite generate_failed_exact. cbn [fst snd].
    destruct (restore_steps_run original
                (after_events (status_events h (user_show_status uv)
                                 (error_description e) true) wb))
      as (_ & _ & _ & RG & _).
    rewrite RG. auto.
Qed.

(** X6. What a result discloses. A failure result is built from the very
    exception that the [try] block raised: it always carries that
    exception's message, as [Error interno: <message>], but its traceback
    only when [DEBUG_ENABLED] is set, and a fixed placeholder otherwise. A
    success result is the one the [try] block returns; it carries the
    collaborator's response under [raw] only when [VERBOSE_LOGGING] is set,
    and a fixed placeholder otherwise. *)
Theorem result_disclosure :
  forall h valves prompt width height steps wf sm seed user w uv,
    get_user_valves user = Ok uv ->
    let run :=
      generate_image h valves prompt width height steps wf sm seed user w in
    let body :=
      generate_body h valves prompt width height steps wf sm seed user
        (user_show_status uv) (user_auto_alt uv)
        (snd (override_steps steps
                (snd (_emit_status h (user_show_status uv)
                        "Inicializando generación de imagen..." false w)))) in
    match fst body with
    | Raise e =>
        fst run = Ok (failure_result h valves e)
        /\ result_field "success" (failure_result h valves e)
           = Some (VBool false)
        /\ result_field "error" (failure_result h valves e)
           = Some (VStr ("Error interno: " ++ exc_msg e))
        /\ result_field "internal_trace" (failure_result h valves e)
           = Some (VStr (if DEBUG_ENABLED valves then format_exc h e
                         else "Activa DEBUG_ENABLED en Valves para detalles"))
    | Ok r =>
        fst run = Ok r
        /\ result_field "success" r = Some (VBool true)
        /\ exists c response,
             gen_calls (snd run) = (gen_calls w ++ [c])%list
             /\ gen_result c = Ok response
             /\ result_field "raw" r
                = Some (if VERBOSE_LOGGING valves then response
                        else VStr "Oculto - activa VERBOSE_LOGGING para ver")
    end.
Proof.
  intros h valves prompt width height steps wf sm seed user w uv U.
  destruct (generate_image_by_body h valves prompt width height steps wf sm
              seed user uv w U) as (Hf & Hg & Hw).
  cbv zeta in *.
  match goal with
  | |- context [generate_body h valves prompt width height steps wf sm seed
                  user ?ss ?aat ?w2] =>
      pose proof (generate_body_trace h valves prompt width height steps wf sm
                    seed user ss aat w2) as B;
      destruct (generate_body h valves prompt width height steps wf sm seed
                  user ss aat w2) as [[r|e] wb]
  end; cbv zeta in B; cbn [fst snd] in *.
  2:{ split; [exact Hf|]. repeat split. }
  split; [exact Hf|].
  destruct B as [(_ & HB) | (_ & HG & _ & HB)]; [discriminate|].
  rewrite Hg, HG, Hw.
  match type of HB with
  | match fst ?a with _ => _ end =>
      destruct a as [[images|e] left] eqn:A
  end; cbn [fst] in HB.
  2:{ destruct HB as (HB & _). discriminate. }
  destruct (resolve_all h valves (raw_items_of images)) as [l|e].
  2:{ destruct HB as (HB & _). discriminate. }
  destruct HB as (evs & wl & _ & HB).
  destruct (first_emission_error l) as [e|].
  { destruct HB as (HB & _). discriminate. }
  destruct HB as (n & HB & _).
  assert (r = success_result valves (user_show_status uv) (user_auto_alt uv)
                images l n) as -> by congruence.
  split; [reflexivity|].
  eexists. exists images. split; [reflexivity|]. split; reflexivity.
Qed.

(** X6 at a collaborator that raises, with the default valves (no debug). *)
Lemma result_disclosure_witness :
  fst (generate_image
         (sample_host None (Raise (Exc "RuntimeError" "backend down")))
         default_valves "a red cat" 512 512 15 None None None VNone
         (initial_world None))
  = Ok (failure_result
          (sample_host None (Raise (Exc "RuntimeError" "backend down")))
          default_valves (Exc "RuntimeError" "backend down"))
  /\ result_field "success"
       (failure_result
          (sample_host None (Raise (Exc "RuntimeError" "backend down")))
          default_valves (Exc "RuntimeError" "backend down"))
     = Some (VBool false)
  /\ result_field "error"
       (failure_result
          (sample_host None (Raise (Exc "RuntimeError" "backend down")))
          default_valves (Exc "RuntimeError" "backend down"))
     = Some (VStr ("Error interno: "
                     ++ exc_msg (Exc "RuntimeError" "backend down")))
  /\ result_field "internal_trace"
       (failure_result
          (sample_host None (Raise (Exc "RuntimeError" "backend down")))
          default_valves (Exc "RuntimeError" "backend down"))
     = Some (VStr (if DEBUG_ENABLED default_valves
                   then format_exc
                          (sample_host None
                             (Raise (Exc "RuntimeError" "backend down")))
                          (Exc "RuntimeError" "backend down")
                   else "Activa DEBUG_ENABLED en Valves para detalles")).
Proof.
  exact (result_disclosure
           (sample_host None (Raise (Exc "RuntimeError" "backend down")))
           default_valves "a red cat" 512 512 15 None None None VNone
           (initial_world None) VNone eq_refl).
Defined.



(** X8. When the collaborator raises, the call returns the failure result
    built from that very exception (its message under [error]), and no file
    has been looked at. *)
Theorem collaborator_failure_is_reported :
  forall h valves prompt width height steps wf sm seed user w c e,
    gen_calls (snd (generate_image h valves prompt width height steps wf sm
                      seed user w))
      = (gen_calls w ++ [c])%list ->
    gen_result c = Raise e ->
    fst (generate_image h valves prompt width height steps wf sm seed user w)
      = Ok (failure_result h valves e)
    /\ fs_trace (snd (generate_image h valves prompt width height steps wf sm
                        seed user w))
       = fs_trace w.
Proof.
  intros h valves prompt width height steps wf sm seed user w c e Hc Hr.
  destruct (generate_image_the_call _ _ _ _ _ _ _ _ _ _ _ _ Hc)
    as (uv & U & Hm & ->).
  pose proof (generate_image_trace h valves prompt width height steps wf sm
                seed user uv w U) as T.
  cbv zeta in T.
  destruct T as [(Hm' & _) | (_ & _ & T)]; [congruence|].
  rewrite Hr in T. destruct T as (Hf & _ & Ht). split; assumption.
Qed.

(** X8 at a collaborator that raises [RuntimeError]. *)
Lemma collaborator_failure_is_reported_witness :
  fst (generate_image
         (sample_host None (Raise (Exc "RuntimeError" "backend down")))
         default_valves "a red cat" 512 512 15 None None None VNone
         (initial_world None))
    = Ok (failure_result
            (sample_host None (Raise (Exc "RuntimeError" "backend down")))
            default_valves (Exc "RuntimeError" "backend down"))
  /\ fs_trace (snd (generate_image
                      (sample_host None
                         (Raise (Exc "RuntimeError" "backend down")))
                      default_valves "a red cat" 512 512 15 None None None
                      VNone (initial_world None)))
     = fs_trace (initial_world None).
Proof.
  apply (collaborator_failure_is_reported
           (sample_host None (Raise (Exc "RuntimeError" "backend down")))
           default_valves "a red cat" 512 512 15 None None None VNone
           (initial_world None)
           (the_call
              (sample_host None (Raise (Exc "RuntimeError" "backend down")))
              "a red cat" 512 512 15 None None None VNone
              (initial_world None))
           (Exc "RuntimeError" "backend down"));
    vm_compute; reflexivity.
Defined.

(** X9. The outcome of a call is a function of the collaborator's response
    and of the file system alone. Whatever the state in which the resolver
    loop is run, it gives the same outcome. If that is an exception, the call
    returns the failure result of that exception. If it is a list in which
    every image has a length (every string has one), the call succeeds with
    exactly that list under [images], in the order of the descriptors, and
    with its length under [total_processed]. If the list holds an image
    without a length (a number passed through from a [url] field, say), the
    call returns the failure result of the [TypeError] that [_emit_image]
    raises on the first such image. *)
Theorem images_are_determined_by_the_response :
  forall h valves prompt width height steps wf sm seed user w c response w0,
    gen_calls (snd (generate_image h valves prompt width height steps wf sm
                      seed user w))
      = (gen_calls w ++ [c])%list ->
    gen_result c = Ok response ->
    exists r,
      fst (generate_image h valves prompt width height steps wf sm seed user w)
        = Ok r
      /\ match fst (process_items h valves (raw_items_of response) [] w0) with
         | Ok images_out =>
             match first_emission_error images_out with
             | None =>
                 result_field "success" r = Some (VBool true)
                 /\ result_field "images" r = Some (VList images_out)
                 /\ result_field "total_processed" r
                    = Some (VInt (Z.of_nat (List.length images_out)))
             | Some e => r = failure_result h valves e
             end
         | Raise e => r = failure_result h valves e
         end.
Proof.
  intros h valves prompt width height steps wf sm seed user w c response w0
         Hc Hr.
  destruct (generate_image_the_call _ _ _ _ _ _ _ _ _ _ _ _ Hc)
    as (uv & U & Hm & ->).
  pose proof (generate_image_trace h valves prompt width height steps wf sm
                seed user uv w U) as T.
  cbv zeta in T.
  destruct T as [(Hm' & _) | (_ & _ & T)]; [congruence|].
  rewrite Hr in T. rewrite process_items_resolve_all.
  destruct (resolve_all h valves (raw_items_of response)) as [l|e].
  - destruct T as (evs & wl & _ & T). cbn [app].
    destruct (first_emission_error l) as [e|].
    + destruct T as (Hf & _). eexists. split; [exact Hf|]. reflexivity.
    + destruct T as (n & Hf & _).
      eexists. split; [exact Hf|]. repeat split.
  - destruct T as (Hf & _). eexists. split; [exact Hf|]. reflexivity.
Qed.

(** X9 at a response of a URL and of a local file. *)
Lemma images_are_determined_by_the_response_witness :
  exists r,
    fst (generate_image
           (sample_host None
              (Ok (VList [VStr "https://example.com/x.png";
                          VStr "/tmp/cat.png"])))
           default_valves "a red cat" 512 512 15 None None None VNone
           (initial_world None))
      = Ok r
    /\ match fst (process_items
                    (sample_host None
                       (Ok (VList [VStr "https://example.com/x.png";
                                   VStr "/tmp/cat.png"])))
                    default_valves
                    (raw_items_of (VList [VStr "https://example.com/x.png";
                                          VStr "/tmp/cat.png"]))
                    [] (initial_world (Some (VInt 7)))) with
       | Ok images_out =>
           match first_emission_error images_out with
           | None =>
               result_field "success" r = Some (VBool true)
               /\ result_field "images" r = Some (VList images_out)
               /\ result_field "total_processed" r
                  = Some (VInt (Z.of_nat (List.length images_out)))
           | Some e =>
               r = failure_result
                     (sample_host None
                        (Ok (VList [VStr "https://example.com/x.png";
                                    VStr "/tmp/cat.png"])))
                     default_valves e
           end
       | Raise e =>
           r = failure_result
                 (sample_host None
                    (Ok (VList [VStr "https://example.com/x.png";
                                VStr "/tmp/cat.png"])))
                 default_valves e
       end.
Proof.
  apply (images_are_determined_by_the_response
           (sample_host None
              (Ok (VList [VStr "https://example.com/x.png";
                          VStr "/tmp/cat.png"])))
           default_valves "a red cat" 512 512 15 None None None VNone
           (initial_world None)
           (the_call
              (sample_host None
                 (Ok (VList [VStr "https://example.com/x.png";
                             VStr "/tmp/cat.png"])))
              "a red cat" 512 512 15 None None None VNone
              (initial_world None))
           (VList [VStr "https://example.com/x.png"; VStr "/tmp/cat.png"])
           (initial_world (Some (VInt 7))));
    vm_compute; reflexivity.
Defined.

(** X10. The only way for a call to raise is the reading of the user valves
    before the [try]: it raises exactly when [__user__] is truthy and either
    does not support [in] (a number, [True], a plain object) or is a list or
    a string on which ["valves" in __user__] holds. The exception is then a
    [TypeError] and nothing has been done: no event, no file access, no
    collaborator call, the setting untouched. In every other case the call
    returns a result. *)
Theorem generate_image_raises_exactly_on_the_probe :
  forall h valves prompt width height steps wf sm seed user w,
    if user_probe_fails user
    then exists msg,
        generate_image h valves prompt width height steps wf sm seed user w
        = (Raise (Exc "TypeError" msg), w)
    else exists r,
        fst (generate_image h valves prompt width height steps wf sm seed user
               w)
        = Ok r.
Proof.
  intros h valves prompt width height steps wf sm seed user w.
  destruct (user_probe_fails user) eqn:P.
  - assert (exists msg, get_user_valves user = Raise (Exc "TypeError" msg))
      as [msg U].
    { unfold user_probe_fails in P. apply andb_true_iff in P as [T P].
      unfold get_user_valves. rewrite T.
      destruct user; try discriminate; cbn [Py.contains Py.getitem];
        try rewrite P; eexists; reflexivity. }
    exists msg. now apply generate_image_probe_raises.
  - assert (exists uv, get_user_valves user = Ok uv) as [uv U].
    { unfold user_probe_fails in P. unfold get_user_valves.
      destruct (Py.truthy user); [|eexists; reflexivity].
      cbn [andb] in P.
      destruct user; try discriminate; cbn [Py.contains Py.getitem];
        try rewrite P; try (eexists; reflexivity).
      match goal with
      | |- context [Py.lookup "valves" ?d] => destruct (Py.lookup "valves" d)
      end; eexists; reflexivity. }
    pose proof (generate_image_trace h valves prompt width height steps wf sm
                  seed user uv w U) as T.
    cbv zeta in T.
    destruct T as [(_ & Hr & _) | (_ & _ & T)]; [eexists; exact Hr|].
    destruct (gen_result _) as [images|e].
    + destruct (resolve_all h valves (raw_items_of images)) as [l|e].
      * destruct T as (evs & wl & _ & T).
        destruct (first_emission_error l) as [e|].
        -- destruct T as (Hr & _). eexists; exact Hr.
        -- destruct T as (n & Hr & _). eexists; exact Hr.
      * destruct T as (Hr & _). eexists; exact Hr.
    + destruct T as (Hr & _). eexists; exact Hr.
Qed.

(** ** The emission loop *)

Lemma image_alt_truthy idx : Py.truthy (VStr (image_alt idx)) = true.
Proof. reflexivity. Qed.

Lemma effective_alt_of_image_alt aat prompt idx index :
  effective_alt aat prompt (image_alt idx) index = image_alt idx.
Proof.
  unfold effective_alt. rewrite image_alt_truthy.
  now rewrite andb_false_r.
Qed.

Lemma emit_image_named h valves aat prompt url w hh idx index :
  _emit_image h valves aat prompt url w hh (image_alt idx) index
  = _emit_image h valves VNone "" url w hh (image_alt idx) index.
Proof.
  unfold _emit_image.
  fold (effective_alt aat prompt (image_alt idx) index).
  fold (effective_alt VNone "" (image_alt idx) index).
  now rewrite !effective_alt_of_image_alt.
Qed.

(** X11. The user valve [AUTO_ALT_TEXT] and the prompt have no effect on
    what is delivered: the emission loop names every image
    [imagen_generada_<i>] itself, so that [_emit_image] never makes up an
    alternative text from the prompt. The loop run with any two values of
    the valve and any two prompts does the same. *)
Theorem emission_ignores_auto_alt_text :
  forall h valves auto_alt_text auto_alt_text' prompt prompt' width height
         images_out idx success_count w,
    emit_images h valves auto_alt_text prompt width height images_out idx
      success_count w
    = emit_images h valves auto_alt_text' prompt' width height images_out idx
        success_count w.
Proof.
  intros h valves aat aat' prompt prompt' width height images_out.
  induction images_out as [|url rest IH]; intros idx count w;
    cbn [emit_images]; [reflexivity|].
  fold (image_alt idx).
  rewrite (emit_image_named h valves aat prompt),
          (emit_image_named h valves aat' prompt').
  unfold bind.
  destruct (_emit_image h valves VNone "" url width height (image_alt idx)
              (idx + 1) w) as [[b|e] w1]; [|reflexivity].
  apply IH.
Qed.



Lemma emit_images_without_transport h valves aat prompt width height
    images_out :
  event_emitter h = None ->
  forall idx count w,
    emit_images h valves aat prompt width height images_out idx count w
    = (match first_emission_error images_out with
       | None => Ok count
       | Some e => Raise e
       end, w).
Proof.
  intros E. induction images_out as [|url rest IH]; intros idx count w;
    cbn [emit_images first_emission_error]; [reflexivity|].
  destruct (emission_error url) as [e|] eqn:EU.
  { apply bind_raise. now apply emit_image_raises. }
  assert (R : _emit_image h valves aat prompt url width height
                ("imagen_generada_" ++ PyStr.of_nat (idx + 1)) (idx + 1) w
              = (Ok false, w)).
  { destruct (Py.truthy url) eqn:T; [|now apply emit_image_empty].
    rewrite (emit_image_dispatches _ _ _ _ _ _ _ _ _ _ T EU).
    now apply methods_without_transport. }
  rewrite (bind_ok _ _ _ _ _ R). apply IH.
Qed.

Lemma after_events_inj evs evs' w :
  after_events evs w = after_events evs' w -> evs = evs'.
Proof.
  intros H. apply (f_equal emitted) in H. cbn [after_events emitted] in H.
  now apply app_inv_head in H.
Qed.





Lemma status_events_without_transport h ss description done :
  event_emitter h = None -> status_events h ss description done = [].
Proof.
  intros E. unfold status_events. rewrite E. now destruct (Py.truthy ss).
Qed.

Ltac no_events E He :=
  repeat rewrite (status_events_without_transport _ _ _ _ E) in He;
  cbn [app] in He; rewrite ?app_nil_r in He.

(** X13. Without a transport ([__event_emitter__] is falsy) a call hands
    over nothing and still resolves the images: a success result then has
    [images_emitted = 0]. *)
Theorem nothing_is_emitted_without_transport :
  forall h valves prompt width height steps wf sm seed user w,
    event_emitter h = None ->
    emitted (snd (generate_image h valves prompt width height steps wf sm seed
                    user w))
      = emitted w
    /\ forall r,
         fst (generate_image h valves prompt width height steps wf sm seed
                user w)
           = Ok r ->
         result_field "success" r = Some (VBool true) ->
         result_field "images_emitted" r = Some (VInt 0).
Proof.
  intros h valves prompt width height steps wf sm seed user w E.
  destruct (get_user_valves user) as [uv|e] eqn:U.
  2:{ rewrite (generate_image_probe_raises _ _ _ _ _ _ _ _ _ _ _ _ U).
      split; [reflexivity | discriminate]. }
  pose proof (generate_image_trace h valves prompt width height steps wf sm
                seed user uv w U) as T.
  cbv zeta in T.
  assert (F : forall e,
            fst (generate_image h valves prompt width height steps wf sm seed
                   user w) = Ok (failure_result h valves e) ->
            forall r,
            fst (generate_image h valves prompt width height steps wf sm seed
                   user w) = Ok r ->
            result_field "success" r = Some (VBool true) ->
            result_field "images_emitted" r = Some (VInt 0)).
  { intros e H1 r H2. rewrite H1 in H2. inversion H2; subst r. discriminate. }
  destruct T as [(_ & Hr & _ & _ & He) | (_ & _ & T)].
  { no_events E He. split; [exact He | exact (F _ Hr)]. }
  destruct (gen_result _) as [images|e].
  2:{ destruct T as (Hr & He & _). no_events E He.
      split; [exact He | exact (F _ Hr)]. }
  destruct (resolve_all h valves (raw_items_of images)) as [l|e].
  2:{ destruct T as (Hr & He). no_events E He.
      split; [exact He | exact (F _ Hr)]. }
  destruct T as (evs & wl & _ & T).
  pose proof (emit_images_without_transport h valves (user_auto_alt uv) prompt
                width height l E 0%nat 0%nat wl) as W.
  destruct (first_emission_error l) as [e|].
  - destruct T as (Hr & He & Hl). rewrite W in Hl.
    assert (Hw : after_events [] wl = after_events evs wl)
      by (rewrite after_events_nil; congruence).
    apply after_events_inj in Hw. subst evs. no_events E He.
    split; [exact He | exact (F _ Hr)].
  - destruct T as (n & Hr & He & Hl). rewrite W in Hl.
    assert (Hn : 0%nat = n) by congruence.
    assert (Hw : after_events [] wl = after_events evs wl)
      by (rewrite after_events_nil; congruence).
    apply after_events_inj in Hw. subst evs n. no_events E He.
    split; [exact He|].
    intros r Hrun _. rewrite Hr in Hrun. inversion Hrun; subst r.
    reflexivity.
Qed.

(** X13 at a host without transport. *)
Lemma nothing_is_emitted_without_transport_witness :
  emitted (snd (generate_image
                  (sample_host None (Ok (VStr "https://example.com/x.png")))
                  default_valves "a red cat" 512 512 15 None None None VNone
                  (initial_world None)))
    = emitted (initial_world None)
  /\ result_field "images_emitted"
       (success_result default_valves (VBool true) (VBool true)
          (VStr "https://example.com/x.png")
          [VStr "https://example.com/x.png"] 0)
     = Some (VInt 0).
Proof.
  destruct (nothing_is_emitted_without_transport
              (sample_host None (Ok (VStr "https://example.com/x.png")))
              default_valves "a red cat" 512 512 15 None None None VNone
              (initial_world None) eq_refl) as [He Hr].
  split; [exact He|].
  apply Hr; vm_compute; reflexivity.
Defined.

(** ** The resolver loop as a whole *)



Lemma of_Z_nonempty z : (PyStr.of_Z z =? "") = false.
Proof.
  unfold PyStr.of_Z, NilZero.string_of_int.
  destruct (Z.to_int z) as [d|d]; [|reflexivity].
  unfold NilZero.string_of_uint. destruct d; reflexivity.
Qed.

Lemma str_of_plain_value_truthy it :
  is_plain_value it = true -> Py.truthy (VStr (Py.str it)) = true.
Proof.
  destruct it as [|[|]|z| | | |]; try discriminate; intros _;
    try reflexivity.
  cbn [Py.str Py.repr Py.truthy]. now rewrite of_Z_nonempty.
Qed.

(** X14. Strings that name no regular file (URLs, data URIs, paths of
    missing files or of directories) pass through the resolver loop
    unchanged and in order; only empty strings are dropped. *)
Theorem remote_strings_pass_through :
  forall h valves items images_out w,
    forallb (is_remote_string h) items = true ->
    fst (process_items h valves items images_out w)
    = Ok (images_out ++ filter Py.truthy items)%list.
Proof.
  intros h valves items acc w H.
  rewrite process_items_resolve_all.
  assert (R : resolve_all h valves items = Ok (filter Py.truthy items)).
  { clear acc w. induction items as [|it rest IH]; [reflexivity|].
    cbn [forallb] in H. apply andb_true_iff in H as [Hit Hrest].
    cbn [resolve_all filter]. rewrite (IH Hrest).
    unfold is_remote_string in Hit. apply andb_true_iff in Hit as [Hs Hn].
    destruct it; try discriminate.
    cbn [resolve_value]. unfold resolved_path.
    apply negb_true_iff in Hn. rewrite Hn. reflexivity. }
  now rewrite R.
Qed.

(** X14 at two URLs around an empty string and the path of a directory. *)
Lemma remote_strings_pass_through_witness :
  fst (process_items (sample_host None (Ok VNone)) default_valves
         [VStr "https://example.com/a.png"; VStr ""; VStr "/tmp";
          VStr "https://example.com/b.png"]
         [] (initial_world None))
  = Ok ([] ++ filter Py.truthy
                [VStr "https://example.com/a.png"; VStr ""; VStr "/tmp";
                 VStr "https://example.com/b.png"])%list.
Proof.
  apply (remote_strings_pass_through (sample_host None (Ok VNone))
           default_valves
           [VStr "https://example.com/a.png"; VStr ""; VStr "/tmp";
            VStr "https://example.com/b.png"]
           [] (initial_world None)).
  reflexivity.
Defined.

(** X15. Descriptors that are [None], booleans, numbers or lists are never
    dropped: each of them becomes the image [str(descriptor)], without a
    look at the file system. A response [[None, 0]] thus gives the images
    ['None', '0'], whereas the response [None] gives no image. *)
Theorem plain_values_are_stringified :
  forall h valves items images_out w,
    forallb is_plain_value items = true ->
    process_items h valves items images_out w
    = (Ok (images_out ++ map (fun it => VStr (Py.str it)) items)%list, w).
Proof.
  intros h valves items. induction items as [|it rest IH];
    intros acc w H; cbn [process_items map].
  - now rewrite app_nil_r.
  - cbn [forallb] in H. apply andb_true_iff in H as [Hit Hrest].
    assert (R : resolve_item h valves it w = (Ok (VStr (Py.str it)), w))
      by (destruct it; try discriminate; reflexivity).
    rewrite (bind_ok _ _ _ _ _ R), (str_of_plain_value_truthy it Hit).
    rewrite (IH _ _ Hrest), <- app_assoc. reflexivity.
Qed.

(** X15 at the list [[None, 0, False]]. *)
Lemma plain_values_are_stringified_witness :
  process_items (sample_host None (Ok VNone)) default_valves
    [VNone; VInt 0; VBool false] [] (initial_world None)
  = (Ok ([] ++ map (fun it => VStr (Py.str it))
                  [VNone; VInt 0; VBool false])%list,
     initial_world None).
Proof.
  apply (plain_values_are_stringified (sample_host None (Ok VNone))
           default_valves [VNone; VInt 0; VBool false] []
           (initial_world None)).
  reflexivity.
Defined.




(** ** The extension test *)

Lemma length_substring s :
  forall n m, (n + m <= String.length s)%nat ->
              String.length (substring n m s) = m.
Proof.
  induction s as [|c s IH]; intros [|n] [|m] H; cbn in *; try lia;
    try reflexivity.
  - f_equal. apply IH. lia.
  - apply IH. lia.
  - apply IH. lia.
Qed.

Lemma suffix_empty_or_long path :
  PathLib.suffix path = "" \/ (2 <= String.length (PathLib.suffix path))%nat.
Proof.
  unfold PathLib.suffix.
  destruct (PathLib.rfind "." (PathLib.name path)) as [i|]; [|now left].
  destruct ((0 <? i)%nat && (i <? String.length (PathLib.name path) - 1)%nat)
    eqn:B; [|now left].
  right. apply andb_true_iff in B as [_ B]. apply Nat.ltb_lt in B.
  rewrite length_substring; lia.
Qed.

Lemma length_lower s : String.length (PyStr.lower s) = String.length s.
Proof. induction s as [|c s IH]; cbn; [reflexivity | now rewrite IH]. Qed.

Lemma str_in_In x l : str_in x l = true -> In x l.
Proof.
  unfold str_in. intros H. apply existsb_exists in H as (y & Hy & E).
  apply String.eqb_eq in E. now subst.
Qed.

(** X17. A file is turned into a data URI only if its name has a real
    extension (a dot that is neither the first nor the last character of the
    name, followed by at least one character) and that extension equals, up
    to case, a non-blank entry of the comma-separated [SUPPORTED_FORMATS],
    surrounding blanks of the entry aside. So a file without extension, or
    whose name ends in a dot, is rejected whatever the configuration, and an
    empty [SUPPORTED_FORMATS] rejects every file. *)
Theorem materialized_file_has_listed_extension :
  forall h valves path w uri,
    fst (_path_to_data_uri h valves path w) = Ok uri ->
    (uri =? "") = false ->
    (2 <= String.length (PathLib.suffix path))%nat
    /\ exists entry,
         In entry (PyStr.split "," (SUPPORTED_FORMATS valves))
         /\ PyStr.strip entry <> ""
         /\ PyStr.lower (PathLib.suffix path)
            = "." ++ PyStr.lower (PyStr.strip entry).
Proof.
  intros h valves path w uri Hrun Hne.
  rewrite path_to_data_uri_result in Hrun.
  assert (uri = materialize h valves path) as -> by congruence.
  unfold materialize in Hne.
  destruct (fs h path) as [| | |size [|] bytes]; try discriminate.
  destruct (too_large valves size); [discriminate|].
  destruct (extension_supported valves path) eqn:S; [|discriminate].
  unfold extension_supported in S. apply str_in_In in S.
  unfold supported_exts in S. apply in_map_iff in S as (entry & E & Hin).
  assert (L : (2 <= String.length (PathLib.suffix path))%nat).
  { destruct (suffix_empty_or_long path) as [Z|L]; [|exact L].
    rewrite Z in E. discriminate. }
  split; [exact L|]. exists entry. split; [exact Hin|].
  split; [|now symmetry].
  intros Z. rewrite <- length_lower, <- E, Z in L. cbn in L. lia.
Qed.

(** X17 at the sample file [/tmp/photo.JPG]. *)
Lemma materialized_file_has_listed_extension_witness :
  (2 <= String.length (PathLib.suffix "/tmp/photo.JPG"))%nat
  /\ exists entry,
       In entry (PyStr.split "," (SUPPORTED_FORMATS default_valves))
       /\ PyStr.strip entry <> ""
       /\ PyStr.lower (PathLib.suffix "/tmp/photo.JPG")
          = "." ++ PyStr.lower (PyStr.strip entry).
Proof.
  apply (materialized_file_has_listed_extension
           (sample_host None (Ok VNone)) default_valves "/tmp/photo.JPG"
           (initial_world None) "data:image/jpeg;base64,TWE=");
    vm_compute; reflexivity.
Defined.

(** ** The file-system discipline of a whole call *)

Section ReadsChecked.

Variable h : host.
Variable valves : Valves.

Lemma reads_checked_refl w : reads_checked h valves w w.
Proof. exists []. split; [now rewrite app_nil_r | constructor]. Qed.

Lemma reads_checked_trans w1 w2 w3 :
  reads_checked h valves w1 w2 -> reads_checked h valves w2 w3 ->
  reads_checked h valves w1 w3.
Proof.
  intros (o1 & E1 & F1) (o2 & E2 & F2). exists (o1 ++ o2)%list.
  split; [now rewrite E2, E1, app_assoc | now apply Forall_app].
Qed.

Lemma same_trace_reads_checked w w' :
  fs_trace w' = fs_trace w -> reads_checked h valves w w'.
Proof.
  intros E. exists []. split; [now rewrite app_nil_r | constructor].
Qed.

Lemma only_emits_reads_checked {A} (m : M A) :
  keeps only_emits m -> keeps (reads_checked h valves) m.
Proof.
  intros K w. apply same_trace_reads_checked.
  destruct (K w) as (_ & _ & E & _). exact E.
Qed.

Lemma looks_reads_checked ops w :
  Forall (fun op => match op with OpRead _ => False | _ => True end) ops ->
  reads_checked h valves w (after_fs ops w).
Proof.
  intros F. exists ops. split; [reflexivity|].
  eapply Forall_impl; [|exact F]. intros [p|p|p|p]; simpl; tauto.
Qed.

Lemma path_exists_reads_checked p :
  keeps (reads_checked h valves) (path_exists h p).
Proof.
  intros w. rewrite path_exists_run. apply looks_reads_checked.
  repeat constructor.
Qed.

Lemma path_is_file_reads_checked p :
  keeps (reads_checked h valves) (path_is_file h p).
Proof.
  intros w. rewrite path_is_file_run. apply looks_reads_checked.
  repeat constructor.
Qed.

Lemma path_to_data_uri_reads_checked path :
  keeps (reads_checked h valves) (_path_to_data_uri h valves path).
Proof.
  intros w. rewrite path_to_data_uri_run.
  destruct (fs h path) as [| | |size readable bytes] eqn:E;
    try (apply looks_reads_checked; repeat constructor).
  destruct (too_large valves size) eqn:L; cbn [orb];
    [apply looks_reads_checked; repeat constructor|].
  destruct (extension_supported valves path) eqn:S; cbn [negb];
    [|apply looks_reads_checked; repeat constructor].
  eexists. split; [reflexivity|].
  repeat constructor. cbn [read_allowed]. now rewrite E, L, S.
Qed.

Ltac checked_step :=
  keeps_step reads_checked_refl reads_checked_trans.

Lemma local_path_or_url_reads_checked v :
  keeps (reads_checked h valves) (local_path_or_url h valves v).
Proof.
  destruct v; try (apply keeps_ret; apply reads_checked_refl).
  unfold local_path_or_url.
  checked_step; [|checked_step].
  checked_step; [apply path_exists_reads_checked|].
  checked_step.
  - apply keeps_if; [apply path_is_file_reads_checked | checked_step].
  - apply keeps_if; [|checked_step].
    checked_step; [apply path_to_data_uri_reads_checked | checked_step].
Qed.

Lemma b64_field_reads_checked v : keeps (reads_checked h valves) (b64_field v).
Proof. destruct v; simpl; checked_step. Qed.

Lemma scan_fields_reads_checked fields it :
  keeps (reads_checked h valves) (scan_fields h valves fields it).
Proof.
  induction fields as [|field rest IH]; simpl.
  - checked_step.
  - destruct (Py.lookup field it) as [v|]; [|exact IH].
    repeat apply keeps_if; auto using local_path_or_url_reads_checked,
      b64_field_reads_checked.
    checked_step.
Qed.

Lemma resolve_item_reads_checked it :
  keeps (reads_checked h valves) (resolve_item h valves it).
Proof.
  destruct it; unfold resolve_item;
    try (apply keeps_ret; apply reads_checked_refl).
  - apply local_path_or_url_reads_checked.
  - checked_step; [apply scan_fields_reads_checked|].
    apply keeps_if; [|checked_step].
    checked_step; checked_step.
Qed.

Lemma process_items_reads_checked raw_items :
  forall images_out,
    keeps (reads_checked h valves)
          (process_items h valves raw_items images_out).
Proof.
  induction raw_items as [|it rest IH]; intros images_out; simpl.
  - checked_step.
  - checked_step; [apply resolve_item_reads_checked | apply IH].
Qed.

Lemma call_image_generations_reads_checked form u :
  keeps (reads_checked h valves) (call_image_generations h form u).
Proof.
  intros w. apply same_trace_reads_checked. unfold call_image_generations.
  destruct (image_generations h (IMAGE_STEPS w) form u). reflexivity.
Qed.

Lemma override_steps_reads_checked steps :
  keeps (reads_checked h valves) (override_steps steps).
Proof.
  intros w. apply same_trace_reads_checked. rewrite override_steps_run.
  destruct (IMAGE_STEPS w); reflexivity.
Qed.

Lemma restore_steps_reads_checked original :
  keeps (reads_checked h valves) (restore_steps original).
Proof.
  intros w. apply same_trace_reads_checked.
  apply (restore_steps_run original w).
Qed.

Lemma try_finally_reads_checked {A} (m : M A) cleanup :
  keeps (reads_checked h valves) m ->
  keeps (reads_checked h valves) cleanup ->
  keeps (reads_checked h valves) (try_finally m cleanup).
Proof.
  intros Hm Hc w. unfold try_finally. specialize (Hm w).
  destruct (m w) as [r w']. cbn [snd] in *.
  eapply reads_checked_trans; [exact Hm | apply Hc].
Qed.

Lemma generate_body_reads_checked prompt width height steps wf sm seed user
    ss aat :
  keeps (reads_checked h valves)
        (generate_body h valves prompt width height steps wf sm seed user ss
           aat).
Proof.
  unfold generate_body. cbv zeta.
  checked_step.
  { unfold import_images. apply keeps_if; checked_step. }
  checked_step.
  { apply only_emits_reads_checked, emit_status_only_emits. }
  checked_step; [apply call_image_generations_reads_checked|].
  checked_step; [apply process_items_reads_checked|].
  checked_step.
  { apply only_emits_reads_checked, emit_images_only_emits. }
  checked_step; [|checked_step].
  apply only_emits_reads_checked, emit_status_only_emits.
Qed.

Lemma generate_image_reads_checked prompt width height steps wf sm seed user :
  keeps (reads_checked h valves)
        (generate_image h valves prompt width height steps wf sm seed user).
Proof.
  unfold generate_image.
  checked_step; [checked_step|]. cbv zeta.
  checked_step.
  { apply only_emits_reads_checked, emit_status_only_emits. }
  checked_step; [apply override_steps_reads_checked|].
  apply try_finally_reads_checked; [|apply restore_steps_reads_checked].
  checked_step; [apply generate_body_reads_checked|].
  unfold generate_failed.
  checked_step; [|checked_step].
  apply only_emits_reads_checked, emit_status_only_emits.
Qed.

End ReadsChecked.

(** X18. Whatever the collaborator answers, a call opens a file for reading
    only after the file has passed every check: each path whose content is
    read during the call names an existing regular file whose size is at most
    [MAX_FILE_SIZE_MB * 1024 * 1024] bytes and whose extension is among
    [SUPPORTED_FORMATS]. A response can thus make the tool look at any path,
    but never read a file that is too large or of another kind. *)
Theorem content_is_read_only_after_the_checks :
  forall h valves prompt width height steps wf sm seed user w,
  exists ops,
    fs_trace (snd (generate_image h valves prompt width height steps wf sm
                     seed user w))
      = (fs_trace w ++ ops)%list
    /\ forall p, In (OpRead p) ops ->
       exists size readable bytes,
         fs h p = Regular size readable bytes
         /\ (size <= MAX_FILE_SIZE_MB valves * 1024 * 1024)%Z
         /\ extension_supported valves p = true.
Proof.
  intros h valves prompt width height steps wf sm seed user w.
  destruct (generate_image_reads_checked h valves prompt width height steps wf
              sm seed user w) as (ops & E & F).
  exists ops. split; [exact E|]. intros p Hin.
  rewrite Forall_forall in F. specialize (F _ Hin). cbn [read_allowed] in F.
  destruct (fs h p) as [| | |size readable bytes]; try discriminate.
  exists size, readable, bytes. split; [reflexivity|].
  apply andb_true_iff in F as [L S]. split; [|exact S].
  apply negb_true_iff in L. unfold too_large in L.
  rewrite Z.gtb_ltb in L. apply Z.ltb_ge in L. exact L.
Qed.

(** ** The logging helpers *)

(** X19. Once [_update_log_level] has set the logger's level from the
    valves, as [generate_image] does first thing, the level never filters
    what a helper lets through: a debug message is logged exactly when
    [VERBOSE_LOGGING] is set and an info message exactly when
    [DEBUG_ENABLED] is set, so that [VERBOSE_LOGGING] alone gives the debug
    messages without the info ones; warnings and errors are always logged.
    With a level set from other valves (the logger is shared and the valves
    may change between calls) an info message can be lost. *)
Theorem logging_follows_the_valves :
  forall valves message,
    _log_debug valves (_update_log_level valves) message
      = (if VERBOSE_LOGGING valves then [(DEBUG, message)] else [])
    /\ _log_info valves (_update_log_level valves) message
       = (if DEBUG_ENABLED valves then [(INFO, message)] else [])
    /\ (forall stale, _log_warning (_update_log_level stale) message
                      = [(WARNING, message)])
    /\ (forall stale, _log_error (_update_log_level stale) message
                      = [(ERROR, message)])
    /\ (forall stale, DEBUG_ENABLED valves = true ->
          VERBOSE_LOGGING stale = false -> DEBUG_ENABLED stale = false ->
          _log_info valves (_update_log_level stale) message = []).
Proof.
  intros valves message.
  unfold _log_debug, _log_info, _log_warning, _log_error, _update_log_level,
    logger_log.
  repeat split.
  - destruct (VERBOSE_LOGGING valves); reflexivity.
  - destruct (VERBOSE_LOGGING valves), (DEBUG_ENABLED valves); reflexivity.
  - intros stale.
    destruct (VERBOSE_LOGGING stale), (DEBUG_ENABLED stale); reflexivity.
  - intros stale.
    destruct (VERBOSE_LOGGING stale), (DEBUG_ENABLED stale); reflexivity.
  - intros stale -> -> ->. reflexivity.
Qed.

(** ** A host without the image router *)

(** X20. When the import of the host's image router fails, the call returns
    a failure result without having called the collaborator or looked at any
    file, and the only events it hands over are the first status and the
    final error status. *)
Theorem failed_import_does_nothing :
  forall h valves prompt width height steps wf sm seed user w,
    images_module h = false ->
    user_probe_fails user = false ->
    exists e between,
      fst (generate_image h valves prompt width height steps wf sm seed user w)
        = Ok (failure_result h valves e)
      /\ gen_calls (snd (generate_image h valves prompt width height steps wf
                           sm seed user w))
         = gen_calls w
      /\ fs_trace (snd (generate_image h valves prompt width height steps wf
                          sm seed user w))
         = fs_trace w
      /\ emitted (snd (generate_image h valves prompt width height steps wf sm
                         seed user w))
         = (emitted w ++ between)%list
      /\ (List.length between <= 2)%nat
      /\ Forall (fun ev => event_type ev = "status") between.
Proof.
  intros h valves prompt width height steps wf sm seed user w Hm P.
  assert (exists uv, get_user_valves user = Ok uv) as [uv U].
  { unfold user_probe_fails in P. unfold get_user_valves.
    destruct (Py.truthy user); [|eexists; reflexivity].
    cbn [andb] in P.
    destruct user; try discriminate; cbn [Py.contains Py.getitem];
      try rewrite P; try (eexists; reflexivity).
    match goal with
    | |- context [Py.lookup "valves" ?d] => destruct (Py.lookup "valves" d)
    end; eexists; reflexivity. }
  pose proof (generate_image_trace h valves prompt width height steps wf sm
                seed user uv w U) as T.
  cbv zeta in T.
  destruct T as [(_ & Hr & Hg & Hf & He) | (Hm' & _)]; [|congruence].
  exists import_error. eexists. split; [exact Hr|]. split; [exact Hg|].
  split; [exact Hf|]. split; [exact He|]. split.
  - rewrite length_app. unfold status_events.
    destruct (Py.truthy (user_show_status uv)); [|cbn; lia].
    destruct (event_emitter h); cbn; lia.
  - apply Forall_app; split; apply status_events_are_statuses.
Qed.

(** X20 at a host without the image router. *)
Lemma failed_import_does_nothing_witness :
  exists e between,
    fst (generate_image host_without_images default_valves "a red cat" 512 512
           15 None None None VNone (initial_world (Some (VInt 50))))
      = Ok (failure_result host_without_images default_valves e)
    /\ gen_calls (snd (generate_image host_without_images default_valves
                         "a red cat" 512 512 15 None None None VNone
                         (initial_world (Some (VInt 50)))))
       = gen_calls (initial_world (Some (VInt 50)))
    /\ fs_trace (snd (generate_image host_without_images default_valves
                        "a red cat" 512 512 15 None None None VNone
                        (initial_world (Some (VInt 50)))))
       = fs_trace (initial_world (Some (VInt 50)))
    /\ emitted (snd (generate_image host_without_images default_valves
                       "a red cat" 512 512 15 None None None VNone
                       (initial_world (Some (VInt 50)))))
       = (emitted (initial_world (Some (VInt 50))) ++ between)%list
    /\ (List.length between <= 2)%nat
    /\ Forall (fun ev => event_type ev = "status") between.
Proof.
  apply (failed_import_does_nothing host_without_images default_valves
           "a red cat" 512 512 15 None None None VNone
           (initial_world (Some (VInt 50))));
    reflexivity.
Defined.
